(** * Authentication and session security core

    A shallow embedding of the token rotation engine, the device-limit
    manager, the rate limiter and the OTP engine (lib/jwt, lib/rate-limit,
    lib/otp-service, lib/security and db/schema of the booking backend),
    with the properties of its specification.

    Conventions of the embedding.
    - The relational store is a record of tables; a table is the list of
      its rows in insertion order, so [findFirst] without [orderBy] is
      [List.find].
    - [Date] values are milliseconds since the epoch, in [Z].  Every
      timestamp column of the schema is declared
      [integer(.., {mode: 'timestamp'})], which keeps whole seconds: a
      [Date] written to a column is rounded down to the second
      ([timestamp]), and a [Date] compared inside a query is rounded the
      same way ([sql_gt]).
    - One call reads the clock once: [now] stands for every [new Date()]
      and [Date.now()] of the call.
    - Random sources ([crypto.randomUUID], [crypto.randomBytes]) are
      inputs of the call that consumes them.
    - SHA-256 is a variable of the development. *)

From Stdlib Require Import ZArith Lia Bool List Ascii String Arith.
Import ListNotations.

Local Open Scope string_scope.
Local Open Scope Z_scope.

(** ** JavaScript values *)

(** Truthiness of a [string | undefined | null]: the empty string is falsy. *)
Definition truthy (o : option string) : bool :=
  match o with
  | Some s => negb (String.eqb s "")
  | None => false
  end.

(** [a || b] on optional strings. *)
Definition js_or (a b : option string) : option string :=
  if truthy a then a else b.

(** SQL [col = v] on a nullable text column: never true on NULL. *)
Definition sql_eq (col : option string) (v : string) : bool :=
  match col with
  | Some c => String.eqb c v
  | None => false
  end.

(** A [Date] as stored in a [{mode: 'timestamp'}] column and read back. *)
Definition timestamp (ms : Z) : Z := 1000 * (ms / 1000).

(** SQL [col > param] and [col < param] on a timestamp column: both sides
    in whole seconds. *)
Definition sql_gt (col param : Z) : bool := (param / 1000) <? (col / 1000).
Definition sql_lt (col param : Z) : bool := (col / 1000) <? (param / 1000).

(** What a call does: it returns a value, or it throws. *)
Inductive Outcome (A : Type) : Type :=
| Returned (a : A)
| Thrown.
Arguments Returned {A} a.
Arguments Thrown {A}.

(** ** lib/security *)

Definition is_digit (c : ascii) : bool :=
  ((48 <=? nat_of_ascii c) && (nat_of_ascii c <=? 57))%nat.

(** [s.replace(/\D/g, '')] *)
Fixpoint strip_non_digits (s : string) : string :=
  match s with
  | EmptyString => EmptyString
  | String c rest =>
      if is_digit c then String c (strip_non_digits rest)
      else strip_non_digits rest
  end.

Fixpoint all_digits (s : string) : bool :=
  match s with
  | EmptyString => true
  | String c rest => is_digit c && all_digits rest
  end.

(** [/^[1-9]\d{1,14}$/.test(s)] *)
Definition e164 (s : string) : bool :=
  match s with
  | EmptyString => false
  | String c rest =>
      (is_digit c && negb (Ascii.eqb c "0"%char)) && all_digits rest
      && ((1 <=? String.length rest) && (String.length rest <=? 14))%nat
  end.

(** [normalizePhoneNumber]; [None] when it throws. *)
Definition normalizePhoneNumber (input defaultCountryCode : string)
  : option string :=
  let digits := strip_non_digits input in
  let digits :=
    if (10 <? String.length digits)%nat then substring 0 15 digits
    else digits in
  let digits :=
    if negb (prefix defaultCountryCode digits)
       && (String.length digits =? 10)%nat
    then (defaultCountryCode ++ digits)%string
    else digits in
  if e164 digits then Some ("+" ++ digits)%string else None.

Definition decimal_digit (n : nat) : ascii := ascii_of_nat (48 + n mod 10).

(** [generateOTP(length)] over the bytes [crypto.randomBytes(length)]
    returned: digit [i] is [randomBytes[i] % 10]. *)
Fixpoint generateOTP (length : nat) (randomBytes : list nat) : string :=
  match length, randomBytes with
  | S k, b :: bs => String (decimal_digit b) (generateOTP k bs)
  | _, _ => EmptyString
  end.

(** [generateId(prefix)] over the UUID [crypto.randomUUID()] returned. *)
Definition generateId (prefix uuid : string) : string :=
  (prefix ++ "_" ++ uuid)%string.

Definition CLOCK_SKEW_SECONDS : Z := 30.

(** ** db/schema *)

Record RefreshToken := {
  rt_id : string;
  tokenHash : string;
  rt_userId : option string;
  rt_superuserId : option string;
  rt_tokenFamily : string;
  rt_expiresAt : Z;
  rt_revoked : bool;
  revokedAt : option Z;
  rotatedAt : option Z;
  newTokenId : option string;
  rt_deviceFingerprint : string;
  rt_ipAddress : string;
  rt_userAgent : option string;
  rt_createdAt : Z
}.

Record Session := {
  s_id : string;
  s_userId : option string;
  s_superuserId : option string;
  s_tokenFamily : string;
  s_deviceFingerprint : string;
  s_ipAddress : string;
  s_userAgent : option string;
  lastActivity : Z;
  sessionStarted : Z;
  refreshCount : Z;
  isActive : bool;
  s_revoked : bool;
  s_createdAt : Z
}.

Record Otp := {
  otp_id : string;
  phoneNumber : string;
  otpHash : string;
  otp_expiresAt : Z;
  used : bool;
  usedAt : option Z;
  usedByFingerprint : option string;
  attemptCount : Z;
  otp_createdAt : Z
}.

Record RateLimit := {
  rl_id : string;
  identifier : string;
  endpoint : string;
  requestCount : Z;
  windowStart : Z;
  lastRequest : Z
}.

Record Db := {
  refreshTokens : list RefreshToken;
  sessions : list Session;
  otps : list Otp;
  rateLimits : list RateLimit
}.

Definition with_refreshTokens (db : Db) (l : list RefreshToken) : Db :=
  {| refreshTokens := l; sessions := sessions db;
     otps := otps db; rateLimits := rateLimits db |}.

Definition with_sessions (db : Db) (l : list Session) : Db :=
  {| refreshTokens := refreshTokens db; sessions := l;
     otps := otps db; rateLimits := rateLimits db |}.

Definition with_otps (db : Db) (l : list Otp) : Db :=
  {| refreshTokens := refreshTokens db; sessions := sessions db;
     otps := l; rateLimits := rateLimits db |}.

Definition with_rateLimits (db : Db) (l : list RateLimit) : Db :=
  {| refreshTokens := refreshTokens db; sessions := sessions db;
     otps := otps db; rateLimits := l |}.

(** [UPDATE t SET .. WHERE ..]: the rows selected are rewritten in place. *)
Definition update_where {A : Type} (sel : A -> bool) (set : A -> A)
  (rows : list A) : list A :=
  map (fun r => if sel r then set r else r) rows.

(** [.set({ revoked: true, revokedAt })] on refresh_tokens. *)
Definition set_rt_revoked (at_ : Z) (r : RefreshToken) : RefreshToken :=
  {| rt_id := rt_id r; tokenHash := tokenHash r;
     rt_userId := rt_userId r; rt_superuserId := rt_superuserId r;
     rt_tokenFamily := rt_tokenFamily r; rt_expiresAt := rt_expiresAt r;
     rt_revoked := true; revokedAt := Some (timestamp at_);
     rotatedAt := rotatedAt r; newTokenId := newTokenId r;
     rt_deviceFingerprint := rt_deviceFingerprint r;
     rt_ipAddress := rt_ipAddress r; rt_userAgent := rt_userAgent r;
     rt_createdAt := rt_createdAt r |}.

(** [.set({ rotatedAt, newTokenId })] on refresh_tokens. *)
Definition set_rt_rotated (at_ : Z) (successor : string) (r : RefreshToken)
  : RefreshToken :=
  {| rt_id := rt_id r; tokenHash := tokenHash r;
     rt_userId := rt_userId r; rt_superuserId := rt_superuserId r;
     rt_tokenFamily := rt_tokenFamily r; rt_expiresAt := rt_expiresAt r;
     rt_revoked := rt_revoked r; revokedAt := revokedAt r;
     rotatedAt := Some (timestamp at_); newTokenId := Some successor;
     rt_deviceFingerprint := rt_deviceFingerprint r;
     rt_ipAddress := rt_ipAddress r; rt_userAgent := rt_userAgent r;
     rt_createdAt := rt_createdAt r |}.

(** [.set({ revoked: true, isActive: false })] on sessions. *)
Definition set_s_revoked (s : Session) : Session :=
  {| s_id := s_id s; s_userId := s_userId s;
     s_superuserId := s_superuserId s; s_tokenFamily := s_tokenFamily s;
     s_deviceFingerprint := s_deviceFingerprint s;
     s_ipAddress := s_ipAddress s; s_userAgent := s_userAgent s;
     lastActivity := lastActivity s; sessionStarted := sessionStarted s;
     refreshCount := refreshCount s; isActive := false; s_revoked := true;
     s_createdAt := s_createdAt s |}.

(** [.set({ lastActivity })] on sessions. *)
Definition set_s_lastActivity (at_ : Z) (s : Session) : Session :=
  {| s_id := s_id s; s_userId := s_userId s;
     s_superuserId := s_superuserId s; s_tokenFamily := s_tokenFamily s;
     s_deviceFingerprint := s_deviceFingerprint s;
     s_ipAddress := s_ipAddress s; s_userAgent := s_userAgent s;
     lastActivity := timestamp at_; sessionStarted := sessionStarted s;
     refreshCount := refreshCount s; isActive := isActive s;
     s_revoked := s_revoked s; s_createdAt := s_createdAt s |}.

(** [.set({ lastActivity, refreshCount })] on sessions. *)
Definition set_s_refreshed (at_ count : Z) (s : Session) : Session :=
  {| s_id := s_id s; s_userId := s_userId s;
     s_superuserId := s_superuserId s; s_tokenFamily := s_tokenFamily s;
     s_deviceFingerprint := s_deviceFingerprint s;
     s_ipAddress := s_ipAddress s; s_userAgent := s_userAgent s;
     lastActivity := timestamp at_; sessionStarted := sessionStarted s;
     refreshCount := count; isActive := isActive s;
     s_revoked := s_revoked s; s_createdAt := s_createdAt s |}.

(** [INSERT INTO refresh_tokens]: [id] is the primary key and [token_hash]
    is unique; [None] when a constraint fails (the insert throws). *)
Definition insert_refreshToken (r : RefreshToken) (rows : list RefreshToken)
  : option (list RefreshToken) :=
  if existsb (fun x => String.eqb (rt_id x) (rt_id r)
                       || String.eqb (tokenHash x) (tokenHash r)) rows
  then None
  else Some (rows ++ [r])%list.

(** The constraints db/schema puts on [sessions]: [id] is the primary
    key; [token_family] carries a plain index and stands under no
    PRIMARY KEY or UNIQUE constraint. *)
Definition sessions_tokenFamily_unique : bool := false.

(** [INSERT INTO sessions .. ON CONFLICT (token_family) DO UPDATE SET
    last_activity].  SQLite takes a conflict target only when it matches a
    PRIMARY KEY or UNIQUE constraint and refuses the statement otherwise,
    whatever the rows hold: [None] (the insert throws).  Under such a
    constraint a row of the same family is touched instead; otherwise
    the row is inserted, unless its primary key is taken. *)
Definition upsert_session (s : Session) (touch : Z) (rows : list Session)
  : option (list Session) :=
  if negb sessions_tokenFamily_unique then None
  else if existsb (fun x => String.eqb (s_tokenFamily x) (s_tokenFamily s)) rows
  then Some (update_where
               (fun x => String.eqb (s_tokenFamily x) (s_tokenFamily s))
               (set_s_lastActivity touch) rows)
  else if existsb (fun x => String.eqb (s_id x) (s_id s)) rows
  then None
  else Some (rows ++ [s])%list.

(** ** lib/jwt *)

Definition ACCESS_TOKEN_EXPIRY : Z := 15 * 60.
Definition REFRESH_TOKEN_EXPIRY_DAYS : Z := 30.
Definition MAX_REFRESH_COUNT : Z := 1000.
Definition MIN_REFRESH_INTERVAL : Z := 60000.
Definition GRACE_PERIOD : Z := 10000.

Inductive AccountType : Type := user | superuser.

(** The claims of an access token.  [jwt.sign(payload, JWT_SECRET,
    { expiresIn: '15m' })] keeps the payload and adds [iat], the clock in
    seconds, and [exp], fifteen minutes later; the signature is not
    modelled, a token is its claims. *)
Record TokenPayload := {
  userId : option string;
  superuserId : option string;
  type : AccountType;
  jti : string;
  sessionId : option string;
  iat : Z;
  exp : Z
}.

Definition jwt_sign (userId superuserId : option string) (type : AccountType)
  (jti : string) (sessionId : option string) (now : Z) : TokenPayload :=
  {| userId := userId; superuserId := superuserId; type := type;
     jti := jti; sessionId := sessionId;
     iat := now / 1000; exp := now / 1000 + ACCESS_TOKEN_EXPIRY |}.

Record DeviceInfo := {
  fingerprint : string;
  ipAddress : string;
  userAgent : option string
}.

Record TokenPair := {
  accessToken : TokenPayload;
  refreshToken : string;
  expiresIn : Z
}.

(** [TokenPair | { error: string }] *)
Inductive RotateResult : Type :=
| Tokens (tokens : TokenPair)
| Error (error : string).

Definition InvalidToken := "Invalid refresh token".
Definition TokenRevoked := "Token has been revoked".
Definition TokenExpired := "Refresh token expired. Please login again.".
Definition SessionNotFound := "Session not found".
Definition RotatedTooFrequently := "Token refreshed too frequently".
Definition SessionExpired := "Session expired. Please login again.".
Definition ReauthRequired := "Session requires re-authentication".
Definition DeviceMismatch := "Device fingerprint mismatch".
Definition RotationFailed := "An error occurred during token rotation".

(** What [generateTokenPair] draws: [generateTokenFamily()],
    [crypto.randomUUID()] for the session and the refresh token,
    [generateJti()] and [generateSecureToken()]. *)
Record IssueEntropy := {
  new_family : string;
  new_sessionUuid : string;
  new_jti : string;
  new_secret : string;
  new_rtUuid : string
}.

(** What [rotateRefreshToken] draws: [generateSecureToken()],
    [crypto.randomUUID()] and [generateJti()]. *)
Record RotateEntropy := {
  next_secret : string;
  next_rtUuid : string;
  next_jti : string
}.

Definition in_family (family : string) (r : RefreshToken) : bool :=
  String.eqb (rt_tokenFamily r) family.

Definition session_of (family : string) (s : Session) : bool :=
  String.eqb (s_tokenFamily s) family.

(** The [where] of [verifyOTP]: an unused record of the phone under the
    digest of the code. *)
Definition otp_matches (normalizedPhone hash : string) (o : Otp) : bool :=
  String.eqb (phoneNumber o) normalizedPhone
  && String.eqb (otpHash o) hash
  && Bool.eqb (used o) false.

(** [tokenFamily || generateTokenFamily()] *)
Definition family_or (tokenFamily : option string) (generated : string)
  : string :=
  match tokenFamily with
  | Some f => if truthy tokenFamily then f else generated
  | None => generated
  end.

(** [findFirst({ where: eq(refreshTokens.tokenHash, hash) })] *)
Definition token_by_hash (hash : string) (rows : list RefreshToken)
  : option RefreshToken :=
  find (fun r => String.eqb (tokenHash r) hash) rows.

(** [findFirst({ where: eq(refreshTokens.id, id) })] *)
Definition token_by_id (id : string) (rows : list RefreshToken)
  : option RefreshToken :=
  find (fun r => String.eqb (rt_id r) id) rows.

(** [findFirst({ where: eq(sessions.tokenFamily, family) })] *)
Definition session_by_family (family : string) (rows : list Session)
  : option Session :=
  find (session_of family) rows.

Section Core.

(** [crypto.createHash('sha256').update(s).digest('hex')] *)
Variable sha256hex : string -> string.

Definition hashToken (token : string) : string := sha256hex token.
Definition hashOTP (otp : string) : string := sha256hex otp.

(** [generateTokenPair]: the two inserts run one after the other, outside
    any transaction; what the first wrote stays when the second throws. *)
Definition generateTokenPair (db : Db) (now : Z) (rnd : IssueEntropy)
  (userId superuserId : option string) (deviceInfo : DeviceInfo)
  (tokenFamily : option string) : Db * Outcome TokenPair :=
  let type := if truthy superuserId then superuser else user in
  let family := family_or tokenFamily (new_family rnd) in
  let sessionId := generateId "session" (new_sessionUuid rnd) in
  let jti := new_jti rnd in
  let accessToken := jwt_sign userId superuserId type jti (Some sessionId) now in
  let refreshToken := new_secret rnd in
  let refreshTokenHash := hashToken refreshToken in
  let refreshTokenId := generateId "rt" (new_rtUuid rnd) in
  let expiresAt := now + REFRESH_TOKEN_EXPIRY_DAYS * 24 * 60 * 60 * 1000 in
  match insert_refreshToken
          {| rt_id := refreshTokenId; tokenHash := refreshTokenHash;
             rt_userId := userId; rt_superuserId := superuserId;
             rt_tokenFamily := family; rt_expiresAt := timestamp expiresAt;
             rt_revoked := false; revokedAt := None;
             rotatedAt := None; newTokenId := None;
             rt_deviceFingerprint := fingerprint deviceInfo;
             rt_ipAddress := ipAddress deviceInfo;
             rt_userAgent := userAgent deviceInfo;
             rt_createdAt := timestamp now |}
          (refreshTokens db) with
  | None => (db, Thrown)
  | Some tokens =>
      let db1 := with_refreshTokens db tokens in
      match upsert_session
              {| s_id := sessionId; s_userId := userId;
                 s_superuserId := superuserId; s_tokenFamily := family;
                 s_deviceFingerprint := fingerprint deviceInfo;
                 s_ipAddress := ipAddress deviceInfo;
                 s_userAgent := userAgent deviceInfo;
                 lastActivity := timestamp now;
                 sessionStarted := timestamp now;
                 refreshCount := 0; isActive := true; s_revoked := false;
                 s_createdAt := timestamp now |}
              now (sessions db1) with
      | None => (db1, Thrown)
      | Some rows =>
          (with_sessions db1 rows,
           Returned {| accessToken := accessToken;
                       refreshToken := refreshToken;
                       expiresIn := 15 * 60 |})
      end
  end.

(** The grace branch of [rotateRefreshToken]: the pair handed back when
    the presented record was rotated less than ten seconds ago and its
    successor is there and not revoked; [None] when the call goes on. *)
Definition grace_reissue (db : Db) (now : Z) (rnd : RotateEntropy)
  (tokenRecord : RefreshToken) (oldRefreshToken : string)
  : option TokenPair :=
  match rotatedAt tokenRecord, newTokenId tokenRecord with
  | Some rotated, Some successorId =>
      if truthy (newTokenId tokenRecord) then
        let timeSinceRotation := now - rotated in
        if timeSinceRotation <? GRACE_PERIOD then
          match token_by_id successorId (refreshTokens db) with
          | Some newTokenRecord =>
              if negb (rt_revoked newTokenRecord) then
                Some {| accessToken :=
                          jwt_sign (rt_userId newTokenRecord)
                            (rt_superuserId newTokenRecord)
                            (if truthy (rt_superuserId newTokenRecord)
                             then superuser else user)
                            (next_jti rnd) None now;
                        refreshToken := oldRefreshToken;
                        expiresIn := 15 * 60 |}
              else None
          | None => None
          end
        else None
      else None
  | _, _ => None
  end.

(** The record a rotation inserts. *)
Definition successor_row (now : Z) (rnd : RotateEntropy) (device : DeviceInfo)
  (r : RefreshToken) : RefreshToken :=
  {| rt_id := generateId "rt" (next_rtUuid rnd);
     tokenHash := hashToken (next_secret rnd);
     rt_userId := rt_userId r; rt_superuserId := rt_superuserId r;
     rt_tokenFamily := rt_tokenFamily r;
     rt_expiresAt :=
       timestamp (now + REFRESH_TOKEN_EXPIRY_DAYS * 24 * 60 * 60 * 1000);
     rt_revoked := false; revokedAt := None;
     rotatedAt := None; newTokenId := None;
     rt_deviceFingerprint := fingerprint device;
     rt_ipAddress := ipAddress device;
     rt_userAgent := userAgent device;
     rt_createdAt := timestamp now |}.

(** The checks a rotation makes on the family's session. *)
Definition session_checks_pass (now : Z) (s : Session) : Prop :=
  MIN_REFRESH_INTERVAL <= now - lastActivity s
  /\ now - sessionStarted s <= REFRESH_TOKEN_EXPIRY_DAYS * 24 * 60 * 60 * 1000
  /\ refreshCount s <= MAX_REFRESH_COUNT.

(** [rotateRefreshToken]: the body runs in one transaction; an insert that
    throws rolls it back and the [catch] answers [RotationFailed]. *)
Definition rotateRefreshToken (db : Db) (now : Z) (rnd : RotateEntropy)
  (oldRefreshToken : string) (deviceInfo : DeviceInfo) : Db * RotateResult :=
  let tokenHash_ := hashToken oldRefreshToken in
  match token_by_hash tokenHash_ (refreshTokens db) with
  | None => (db, Error InvalidToken)
  | Some tokenRecord =>
    let family := rt_tokenFamily tokenRecord in
    if rt_revoked tokenRecord then
      let db1 := with_refreshTokens db
                   (update_where (in_family family) (set_rt_revoked now)
                      (refreshTokens db)) in
      let db2 := with_sessions db1
                   (update_where (session_of family) set_s_revoked
                      (sessions db1)) in
      (db2, Error TokenRevoked)
    else if now >? rt_expiresAt tokenRecord then (db, Error TokenExpired)
    else
    match grace_reissue db now rnd tokenRecord oldRefreshToken with
    | Some reissued => (db, Tokens reissued)
    | None =>
    match session_by_family family (sessions db) with
    | None => (db, Error SessionNotFound)
    | Some session =>
      let timeSinceLastRefresh := now - lastActivity session in
      if timeSinceLastRefresh <? MIN_REFRESH_INTERVAL then
        (db, Error RotatedTooFrequently)
      else
      let sessionAge := now - sessionStarted session in
      if sessionAge >? REFRESH_TOKEN_EXPIRY_DAYS * 24 * 60 * 60 * 1000 then
        (db, Error SessionExpired)
      else if refreshCount session >? MAX_REFRESH_COUNT then
        (db, Error ReauthRequired)
      else if negb (String.eqb (rt_deviceFingerprint tokenRecord)
                               (fingerprint deviceInfo)) then
        (with_refreshTokens db
           (update_where (in_family family) (set_rt_revoked now)
              (refreshTokens db)),
         Error DeviceMismatch)
      else
      let newRefreshToken := next_secret rnd in
      let newRefreshTokenId := generateId "rt" (next_rtUuid rnd) in
      match insert_refreshToken (successor_row now rnd deviceInfo tokenRecord)
              (refreshTokens db) with
      | None => (db, Error RotationFailed)
      | Some inserted =>
          let tokens :=
            update_where
              (fun r => String.eqb (rt_id r) (rt_id tokenRecord))
              (set_rt_rotated now newRefreshTokenId) inserted in
          let rows :=
            update_where
              (fun s => String.eqb (s_id s) (s_id session))
              (set_s_refreshed now (refreshCount session + 1))
              (sessions db) in
          (with_sessions (with_refreshTokens db tokens) rows,
           Tokens {| accessToken :=
                       jwt_sign (rt_userId tokenRecord)
                         (rt_superuserId tokenRecord)
                         (if truthy (rt_superuserId tokenRecord)
                          then superuser else user)
                         (next_jti rnd) None now;
                     refreshToken := newRefreshToken;
                     expiresIn := 15 * 60 |})
      end
    end
    end
  end.

(** [verifyAccessToken]: the signature is taken as good; the token is
    refused once the clock, in seconds, passes [exp] by more than the
    tolerance. *)
Definition verifyAccessToken (token : TokenPayload) (now : Z)
  : option TokenPayload :=
  if now / 1000 >=? exp token + CLOCK_SKEW_SECONDS then None else Some token.

Definition revokeAllTokens (db : Db) (now : Z)
  (userId superuserId : option string) : Db :=
  let db1 :=
    match userId with
    | Some u =>
        if truthy userId then
          with_sessions
            (with_refreshTokens db
               (update_where (fun r => sql_eq (rt_userId r) u)
                  (set_rt_revoked now) (refreshTokens db)))
            (update_where (fun s => sql_eq (s_userId s) u)
               set_s_revoked (sessions db))
        else db
    | None => db
    end in
  match superuserId with
  | Some su =>
      if truthy superuserId then
        with_sessions
          (with_refreshTokens db1
             (update_where (fun r => sql_eq (rt_superuserId r) su)
                (set_rt_revoked now) (refreshTokens db1)))
          (update_where (fun s => sql_eq (s_superuserId s) su)
             set_s_revoked (sessions db1))
      else db1
  | None => db1
  end.

(** [cleanupOrphanedSessions]: the account's sessions idle for more than
    seven days are deleted. *)
Definition cleanupOrphanedSessions (db : Db) (now : Z)
  (userId superuserId : option string) : Db :=
  let sevenDaysAgo := now - 7 * 24 * 60 * 60 * 1000 in
  let db1 :=
    match userId with
    | Some u =>
        if truthy userId then
          with_sessions db
            (filter (fun s => negb (sql_eq (s_userId s) u
                                    && sql_lt (lastActivity s) sevenDaysAgo))
               (sessions db))
        else db
    | None => db
    end in
  match superuserId with
  | Some su =>
      if truthy superuserId then
        with_sessions db1
          (filter (fun s => negb (sql_eq (s_superuserId s) su
                                  && sql_lt (lastActivity s) sevenDaysAgo))
             (sessions db1))
      else db1
  | None => db1
  end.

(** [orderBy: asc(sessions.createdAt)]: rows of equal [createdAt] keep
    their table order. *)
Fixpoint insert_by_createdAt (s : Session) (sorted : list Session)
  : list Session :=
  match sorted with
  | [] => [s]
  | x :: rest =>
      if s_createdAt s <=? s_createdAt x then s :: x :: rest
      else x :: insert_by_createdAt s rest
  end.

Definition orderBy_createdAt (rows : list Session) : list Session :=
  fold_right insert_by_createdAt [] rows.

(** The [where] of [enforceDeviceLimit]: the account's active sessions. *)
Definition active_session_of (accountType : AccountType) (accountId : string)
  (s : Session) : bool :=
  match accountType with
  | user => sql_eq (s_userId s) accountId
  | superuser => sql_eq (s_superuserId s) accountId
  end && Bool.eqb (isActive s) true.

Definition DEFAULT_MAX_DEVICES : Z := 5.

(** [enforceDeviceLimit]; it throws when [activeSessions[0]] is read off
    an empty list. *)
Definition enforceDeviceLimit (db : Db) (now : Z)
  (userId superuserId : option string) (maxDevices : Z)
  : Db * Outcome unit :=
  let accountId := js_or userId superuserId in
  let accountType := if truthy userId then user else superuser in
  match accountId with
  | None => (db, Returned tt)
  | Some account =>
    if negb (truthy accountId) then (db, Returned tt)
    else
    let activeSessions :=
      orderBy_createdAt
        (filter (active_session_of accountType account) (sessions db)) in
    if Z.of_nat (List.length activeSessions) >=? maxDevices then
      match activeSessions with
      | [] => (db, Thrown)
      | oldest :: _ =>
          let db1 :=
            with_sessions db
              (update_where (fun s => String.eqb (s_id s) (s_id oldest))
                 set_s_revoked (sessions db)) in
          (with_refreshTokens db1
             (update_where (in_family (s_tokenFamily oldest))
                (set_rt_revoked now) (refreshTokens db1)),
           Returned tt)
      end
    else (db, Returned tt)
  end.

(** ** lib/rate-limit *)

Record RateLimitConfig := {
  windowMs : Z;
  maxRequests : Z
}.

Definition RATE_LIMIT_CONFIGS : list (string * RateLimitConfig) :=
  [ ("auth:send-otp", {| windowMs := 60 * 1000; maxRequests := 3 |});
    ("auth:verify-otp", {| windowMs := 60 * 1000; maxRequests := 5 |});
    ("auth:login", {| windowMs := 15 * 60 * 1000; maxRequests := 10 |});
    ("auth:refresh", {| windowMs := 60 * 1000; maxRequests := 20 |});
    ("api:general", {| windowMs := 60 * 1000; maxRequests := 100 |});
    ("appointment:create", {| windowMs := 60 * 1000; maxRequests := 5 |}) ].

Fixpoint config_lookup (key : string)
  (table : list (string * RateLimitConfig)) : option RateLimitConfig :=
  match table with
  | [] => None
  | (k, c) :: rest => if String.eqb k key then Some c else config_lookup key rest
  end.

(** The members a plain object inherits from [Object.prototype]. *)
Definition Object_prototype : list string :=
  [ "constructor"; "__defineGetter__"; "__defineSetter__";
    "hasOwnProperty"; "__lookupGetter__"; "__lookupSetter__";
    "isPrototypeOf"; "propertyIsEnumerable"; "toString"; "valueOf";
    "__proto__"; "toLocaleString" ].

(** [RATE_LIMIT_CONFIGS[endpoint] || RATE_LIMIT_CONFIGS['api:general']].
    One of the table's six keys gives its entry.  A name inherited from
    [Object.prototype] gives that member, which is truthy and has neither
    [windowMs] nor [maxRequests]: [None].  Every other name gives the
    general entry. *)
Definition config_for (endpoint : string) : option RateLimitConfig :=
  match config_lookup endpoint RATE_LIMIT_CONFIGS with
  | Some c => Some c
  | None =>
      if existsb (String.eqb endpoint) Object_prototype then None
      else config_lookup "api:general" RATE_LIMIT_CONFIGS
  end.

Record RateLimitResult := {
  allowed : bool;
  remainingRequests : option Z;
  resetTime : option Z
}.

(** The [where] of [checkRateLimit]: the pair's record whose window
    started after [now - windowMs]. *)
Definition in_window (identifier_ endpoint_ : string) (since : Z)
  (r : RateLimit) : bool :=
  String.eqb (identifier r) identifier_
  && String.eqb (endpoint r) endpoint_
  && sql_gt (windowStart r) since.

Definition set_rl_counted (count at_ : Z) (r : RateLimit) : RateLimit :=
  {| rl_id := rl_id r; identifier := identifier r; endpoint := endpoint r;
     requestCount := count; windowStart := windowStart r;
     lastRequest := timestamp at_ |}.

(** [checkRateLimit] over the UUID drawn for a new record; an insert that
    throws is caught and the request is allowed.  Without [windowMs] the
    window start is [new Date(NaN)], an invalid date that the store does not
    take as a query parameter: the call throws before any write, and the
    [catch] allows the request. *)
Definition checkRateLimit (db : Db) (now : Z) (uuid : string)
  (identifier_ endpoint_ : string) : Db * RateLimitResult :=
  match config_for endpoint_ with
  | None =>
      (db, {| allowed := true; remainingRequests := None;
              resetTime := None |})
  | Some config =>
    let windowStart_ := now - windowMs config in
    match find (in_window identifier_ endpoint_ windowStart_)
               (rateLimits db) with
    | Some existing =>
        if requestCount existing >=? maxRequests config then
          (db, {| allowed := false; remainingRequests := Some 0;
                  resetTime := Some (windowStart existing + windowMs config) |})
        else
          (with_rateLimits db
             (update_where (fun r => String.eqb (rl_id r) (rl_id existing))
                (set_rl_counted (requestCount existing + 1) now)
                (rateLimits db)),
           {| allowed := true;
              remainingRequests :=
                Some (maxRequests config - requestCount existing - 1);
              resetTime := Some (windowStart existing + windowMs config) |})
    | None =>
        let id := generateId "rl" uuid in
        if existsb (fun r => String.eqb (rl_id r) id) (rateLimits db) then
          (db, {| allowed := true; remainingRequests := None;
                  resetTime := None |})
        else
          (with_rateLimits db
             (rateLimits db ++
              [ {| rl_id := id; identifier := identifier_;
                   endpoint := endpoint_; requestCount := 1;
                   windowStart := timestamp now;
                   lastRequest := timestamp now |} ])%list,
           {| allowed := true;
              remainingRequests := Some (maxRequests config - 1);
              resetTime := Some (now + windowMs config) |})
    end
  end.

(** ** lib/otp-service *)

Record SendOTPResult := {
  success : bool;
  waitTime : option Z;
  message : string;
  otpId : option string
}.

Record VerifyOTPResult := {
  verified : bool;
  verdict : string;
  verifiedPhone : option string
}.

(** The outbound SMS call: it resolves or rejects after some
    milliseconds, or never settles. *)
Inductive Delivery : Type :=
| Resolves (after : Z)
| Rejects (after : Z)
| Hangs.

Definition SMS_TIMEOUT : Z := 10000.

(** [Promise.race([send, timeout])] resolves only if the send resolves
    before the timer rejects. *)
Definition sms_sent (d : Delivery) : bool :=
  match d with
  | Resolves after => after <? SMS_TIMEOUT
  | _ => false
  end.

Definition OtpCooldown :=
  "OTP already sent. Check your SMS or wait before requesting again.".
Definition SmsFailed := "Failed to send SMS. Please try again.".
Definition OtpSent := "OTP sent successfully".
Definition OtpError := "An error occurred. Please try again.".
Definition InvalidOrUsed := "Invalid or already used OTP".
Definition OtpExpired := "OTP has expired. Please request a new one.".
Definition TooManyAttempts :=
  "Too many failed attempts. Please request a new OTP.".
Definition OtpVerified := "OTP verified successfully".

Definition failed (msg : string) : SendOTPResult :=
  {| success := false; waitTime := None; message := msg; otpId := None |}.

Definition refused (msg : string) : VerifyOTPResult :=
  {| verified := false; verdict := msg; verifiedPhone := None |}.

(** [sendOTP] over the random bytes and the UUID it draws and the fate
    of the SMS call. *)
Definition sendOTP (db : Db) (now : Z) (randomBytes : list nat)
  (uuid : string) (sms : Delivery) (phone countryCode : string)
  : Db * SendOTPResult :=
  match normalizePhoneNumber phone countryCode with
  | None => (db, failed OtpError)
  | Some normalizedPhone =>
    match find (fun o => String.eqb (phoneNumber o) normalizedPhone
                         && sql_gt (otp_createdAt o) (now - 60000)
                         && Bool.eqb (used o) false)
               (otps db) with
    | Some recentOTP =>
        (db, {| success := false;
                waitTime := Some (60 - (now - otp_createdAt recentOTP) / 1000);
                message := OtpCooldown; otpId := None |})
    | None =>
        let otp := generateOTP 6 randomBytes in
        let otpHash_ := hashOTP otp in
        let otpId_ := generateId "otp" uuid in
        if negb (sms_sent sms) then (db, failed SmsFailed)
        else if existsb (fun o => String.eqb (otp_id o) otpId_) (otps db)
        then (db, failed OtpError)
        else
          (with_otps db
             (otps db ++
              [ {| otp_id := otpId_; phoneNumber := normalizedPhone;
                   otpHash := otpHash_;
                   otp_expiresAt := timestamp (now + 10 * 60 * 1000);
                   used := false; usedAt := None;
                   usedByFingerprint := None; attemptCount := 0;
                   otp_createdAt := timestamp now |} ])%list,
           {| success := true; waitTime := None; message := OtpSent;
              otpId := Some otpId_ |})
    end
  end.

Definition set_otp_used (at_ : Z) (by_ : string) (o : Otp) : Otp :=
  {| otp_id := otp_id o; phoneNumber := phoneNumber o;
     otpHash := otpHash o; otp_expiresAt := otp_expiresAt o;
     used := true; usedAt := Some (timestamp at_);
     usedByFingerprint := Some by_; attemptCount := attemptCount o;
     otp_createdAt := otp_createdAt o |}.

(** [SET attempt_count = attempt_count + 1] *)
Definition set_otp_attempted (o : Otp) : Otp :=
  {| otp_id := otp_id o; phoneNumber := phoneNumber o;
     otpHash := otpHash o; otp_expiresAt := otp_expiresAt o;
     used := used o; usedAt := usedAt o;
     usedByFingerprint := usedByFingerprint o;
     attemptCount := attemptCount o + 1;
     otp_createdAt := otp_createdAt o |}.

(** [verifyOTP].  [storeFault] says that the transaction throws (the
    store is unavailable); only then, and when the phone number does not
    normalise, does control reach the [catch] block. *)
Definition verifyOTP (db : Db) (now : Z) (storeFault : bool)
  (phone otp fingerprint_ countryCode : string) : Db * VerifyOTPResult :=
  match normalizePhoneNumber phone countryCode with
  | None => (db, refused OtpError)
  | Some normalizedPhone =>
    let otpHash_ := hashOTP otp in
    if storeFault then
      (with_otps db
         (update_where
            (fun o => String.eqb (phoneNumber o) normalizedPhone
                      && Bool.eqb (used o) false)
            set_otp_attempted (otps db)),
       refused OtpError)
    else
    match find (otp_matches normalizedPhone otpHash_) (otps db) with
    | None => (db, refused InvalidOrUsed)
    | Some otpRecord =>
        if now >? otp_expiresAt otpRecord then (db, refused OtpExpired)
        else if attemptCount otpRecord >=? 5 then (db, refused TooManyAttempts)
        else
          (with_otps db
             (update_where
                (fun o => String.eqb (otp_id o) (otp_id otpRecord))
                (set_otp_used now fingerprint_) (otps db)),
           {| verified := true; verdict := OtpVerified;
              verifiedPhone := Some normalizedPhone |})
    end
  end.

(** [cleanupExpiredTokens], refresh-token half: batch after batch, every
    row the store finds expired is deleted.  The statement is raw SQL
    ([expires_at < ?]) and how the driver binds the [Date] is not in the
    source, so the comparison the store makes is an input. *)
Definition cleanupExpiredTokens (db : Db) (expired : Z -> bool) : Db :=
  with_refreshTokens db
    (filter (fun r => negb (expired (rt_expiresAt r))) (refreshTokens db)).

(** ** The writers of the refresh-token store *)

Inductive Op : Type :=
| Issue (now : Z) (rnd : IssueEntropy) (userId superuserId : option string)
    (deviceInfo : DeviceInfo) (tokenFamily : option string)
| Rotate (now : Z) (rnd : RotateEntropy) (oldRefreshToken : string)
    (deviceInfo : DeviceInfo)
| RevokeAll (now : Z) (userId superuserId : option string)
| EnforceLimit (now : Z) (userId superuserId : option string)
    (maxDevices : Z)
| Cleanup (expired : Z -> bool).

Definition step (db : Db) (op : Op) : Db :=
  match op with
  | Issue now rnd u su device family =>
      fst (generateTokenPair db now rnd u su device family)
  | Rotate now rnd secret device =>
      fst (rotateRefreshToken db now rnd secret device)
  | RevokeAll now u su => revokeAllTokens db now u su
  | EnforceLimit now u su maxDevices =>
      fst (enforceDeviceLimit db now u su maxDevices)
  | Cleanup expired => cleanupExpiredTokens db expired
  end.

Definition run (db : Db) (ops : list Op) : Db := fold_left step ops db.

End Core.

Arguments step sha256hex db op : simpl nomatch.

(** ** The rest of lib/security, lib/jwt and lib/rate-limit *)

(** [isTimestampValid(timestamp, maxAgeSeconds)]: the clock is in
    milliseconds, the timestamp and the age in seconds. *)
Definition isTimestampValid (nowMs timestamp_ : Z) (maxAgeSeconds : option Z)
  : bool :=
  let now := nowMs / 1000 in
  let diff := Z.abs (now - timestamp_) in
  if diff >? CLOCK_SKEW_SECONDS then
    match maxAgeSeconds with
    | Some maxAge =>
        if negb (maxAge =? 0) && (timestamp_ <? now - maxAge) then false
        else true
    | None => true
    end
  else true.

(** The [token_blacklist] table: [id] is the primary key, [token_jti] is
    unique. *)
Record BlacklistEntry := {
  bl_id : string;
  tokenJti : string;
  bl_expiresAt : Z;
  bl_createdAt : Z
}.

(** [isTokenBlacklisted] *)
Definition isTokenBlacklisted (rows : list BlacklistEntry) (jti_ : string)
  : bool :=
  match find (fun b => String.eqb (tokenJti b) jti_) rows with
  | Some _ => true
  | None => false
  end.

(** [blacklistToken] over the UUID it draws; it throws when a constraint
    fails. *)
Definition blacklistToken (rows : list BlacklistEntry) (now : Z)
  (uuid jti_ : string) (expiresAt : Z) : Outcome (list BlacklistEntry) :=
  let id := generateId "bl" uuid in
  if existsb (fun b => String.eqb (bl_id b) id
                       || String.eqb (tokenJti b) jti_) rows
  then Thrown
  else Returned
         (rows ++ [ {| bl_id := id; tokenJti := jti_;
                       bl_expiresAt := timestamp expiresAt;
                       bl_createdAt := timestamp now |} ])%list.

(** The [audit_logs] table. *)
Record AuditLog := {
  al_id : string;
  al_userId : option string;
  al_superuserId : option string;
  al_companyId : option string;
  al_action : string;
  al_resource : string;
  al_resourceId : option string;
  al_ipAddress : string;
  al_userAgent : option string;
  al_metadata : option string;
  al_success : bool;
  al_errorMessage : option string;
  al_createdAt : Z
}.

(** [AuditLogData]; [d_metadata] is the metadata object as
    [JSON.stringify] renders it. *)
Record AuditLogData := {
  d_userId : option string;
  d_superuserId : option string;
  d_action : string;
  d_resource : string;
  d_resourceId : option string;
  d_ipAddress : string;
  d_userAgent : option string;
  d_metadata : option string;
  d_success : bool;
  d_errorMessage : option string;
  d_companyId : option string
}.

(** [createAuditLog] over the UUID it draws: the row it inserts takes no
    [companyId]; an insert that throws is caught and nothing is stored. *)
Definition createAuditLog (rows : list AuditLog) (now : Z) (uuid : string)
  (data : AuditLogData) : list AuditLog :=
  let id := generateId "audit" uuid in
  if existsb (fun a => String.eqb (al_id a) id) rows then rows
  else
    (rows ++
     [ {| al_id := id; al_userId := d_userId data;
          al_superuserId := d_superuserId data; al_companyId := None;
          al_action := d_action data; al_resource := d_resource data;
          al_resourceId := d_resourceId data;
          al_ipAddress := d_ipAddress data;
          al_userAgent := d_userAgent data;
          al_metadata := d_metadata data;
          al_success := d_success data;
          al_errorMessage := d_errorMessage data;
          al_createdAt := timestamp now |} ])%list.

Inductive AuthAction : Type :=
| Signup | Login | Logout | TokenRefresh | OtpSend | OtpVerify.

Definition action_name (a : AuthAction) : string :=
  match a with
  | Signup => "signup"
  | Login => "login"
  | Logout => "logout"
  | TokenRefresh => "token-refresh"
  | OtpSend => "otp-send"
  | OtpVerify => "otp-verify"
  end.

Record AuthEvent := {
  ev_userId : option string;
  ev_superuserId : option string;
  ev_phoneNumber : option string;
  ev_ipAddress : string;
  ev_userAgent : option string;
  ev_success : bool;
  ev_errorMessage : option string
}.

(** [auditAuthEvent] *)
Definition auditAuthEvent (rows : list AuditLog) (now : Z) (uuid : string)
  (action : AuthAction) (data : AuthEvent) : list AuditLog :=
  createAuditLog rows now uuid
    {| d_userId := ev_userId data; d_superuserId := ev_superuserId data;
       d_action := ("auth:" ++ action_name action)%string;
       d_resource := "authentication";
       d_resourceId := ev_phoneNumber data;
       d_ipAddress := ev_ipAddress data;
       d_userAgent := ev_userAgent data;
       d_metadata := None;
       d_success := ev_success data;
       d_errorMessage := ev_errorMessage data;
       d_companyId := None |}.

(** The [where] of [getFailedLoginAttempts]. *)
Definition failed_login (identifier_ : string) (since : Z) (a : AuditLog)
  : bool :=
  String.eqb (al_action a) "auth:login"
  && sql_eq (al_resourceId a) identifier_
  && Bool.eqb (al_success a) false
  && sql_gt (al_createdAt a) since.

(** [getFailedLoginAttempts(identifier, windowMs)] *)
Definition getFailedLoginAttempts (rows : list AuditLog) (now : Z)
  (identifier_ : string) (windowMs_ : Z) : Z :=
  let windowStart_ := now - windowMs_ in
  Z.of_nat (List.length (filter (failed_login identifier_ windowStart_) rows)).

Definition LOGIN_WINDOW : Z := 15 * 60 * 1000.

(** [shouldLockAccount(identifier, maxAttempts)] *)
Definition shouldLockAccount (rows : list AuditLog) (now : Z)
  (identifier_ : string) (maxAttempts : Z) : bool :=
  getFailedLoginAttempts rows now identifier_ LOGIN_WINDOW >=? maxAttempts.

(** The [where] of [sendOTP]: an unused code of the phone created in the
    last sixty seconds. *)
Definition recent_otp (normalizedPhone : string) (now : Z) (o : Otp) : bool :=
  String.eqb (phoneNumber o) normalizedPhone
  && sql_gt (otp_createdAt o) (now - 60000)
  && Bool.eqb (used o) false.

(** The account's active sessions, as [enforceDeviceLimit] selects them. *)
Definition active_sessions (db : Db) (userId superuserId : option string)
  (account : string) : list Session :=
  filter (active_session_of (if truthy userId then user else superuser)
            account) (sessions db).

(** The refresh-token row that [generateTokenPair] writes. *)
Definition login_row (sha256hex : string -> string) (now : Z)
  (rnd : IssueEntropy) (userId superuserId : option string)
  (deviceInfo : DeviceInfo) (tokenFamily : option string) : RefreshToken :=
  {| rt_id := generateId "rt" (new_rtUuid rnd);
     tokenHash := hashToken sha256hex (new_secret rnd);
     rt_userId := userId; rt_superuserId := superuserId;
     rt_tokenFamily := family_or tokenFamily (new_family rnd);
     rt_expiresAt :=
       timestamp (now + REFRESH_TOKEN_EXPIRY_DAYS * 24 * 60 * 60 * 1000);
     rt_revoked := false; revokedAt := None;
     rotatedAt := None; newTokenId := None;
     rt_deviceFingerprint := fingerprint deviceInfo;
     rt_ipAddress := ipAddress deviceInfo;
     rt_userAgent := userAgent deviceInfo;
     rt_createdAt := timestamp now |}.

(** What may change in a session row over its life: [lastActivity], a
    growing [refreshCount], and a revocation that is never undone. *)
Definition session_grows (s s' : Session) : Prop :=
  s_tokenFamily s' = s_tokenFamily s
  /\ sessionStarted s' = sessionStarted s
  /\ s_createdAt s' = s_createdAt s
  /\ refreshCount s <= refreshCount s'
  /\ (s_revoked s = true -> s_revoked s' = true)
  /\ (isActive s = false -> isActive s' = false).

(** The store after a series of verification calls for one phone that all
    met a store fault. *)
Definition faulted (sha256hex : string -> string) (db : Db)
  (phone fingerprint_ countryCode : string) (tries : list (Z * string))
  : Db :=
  fold_left
    (fun d try =>
       fst (verifyOTP sha256hex d (fst try) true phone (snd try)
              fingerprint_ countryCode))
    tries db.

(** ** Notions of the specification *)

(** A record is active when it is neither revoked nor rotated. *)
Definition active (r : RefreshToken) : bool :=
  negb (rt_revoked r)
  && match rotatedAt r with Some _ => false | None => true end.

(** The secrets an operation draws hash to something else than [hash]. *)
Definition draws_other_than (sha256hex : string -> string) (hash : string)
  (op : Op) : Prop :=
  match op with
  | Issue _ rnd _ _ _ _ => hashToken sha256hex (new_secret rnd) <> hash
  | Rotate _ rnd _ _ => hashToken sha256hex (next_secret rnd) <> hash
  | _ => True
  end.

(** Every record stored under [hash] is revoked. *)
Definition all_revoked (hash : string) (rows : list RefreshToken) : Prop :=
  forall x, In x rows -> tokenHash x = hash -> rt_revoked x = true.

(** The store after a series of verification attempts for one phone,
    each a clock reading and a code, none met by a store fault. *)
Definition attempts (sha256hex : string -> string) (db : Db)
  (phone fingerprint_ countryCode : string) (tries : list (Z * string))
  : Db :=
  fold_left
    (fun d try =>
       fst (verifyOTP sha256hex d (fst try) false phone (snd try)
              fingerprint_ countryCode))
    tries db.

(** The store after a series of [checkRateLimit] calls for one pair, each
    a clock reading and the UUID it would draw. *)
Definition window_calls (db : Db) (identifier_ endpoint_ : string)
  (calls : list (Z * string)) : Db :=
  fold_left
    (fun d call =>
       fst (checkRateLimit d (fst call) (snd call) identifier_ endpoint_))
    calls db.

(** A clock reading inside the window opened by a first call at [start]:
    the record keeps [timestamp start] and the window is [windowMs] long. *)
Definition inside_window (start windowMs t : Z) : Prop :=
  start <= t < timestamp start + windowMs.

(** The head of a list is its earliest-created row. *)
Definition head_earliest (rows : list Session) : Prop :=
  match rows with
  | [] => True
  | oldest :: _ =>
      forall x, In x rows -> s_createdAt oldest <= s_createdAt x
  end.

(** The pair's counter is the last row of the table, opened at [start];
    no earlier row is in the window or shares its id. *)
Definition counting (db : Db) (identifier_ endpoint_ : string)
  (start window : Z) (pre : list RateLimit) (row : RateLimit) : Prop :=
  rateLimits db = (pre ++ [row])%list
  /\ identifier row = identifier_
  /\ endpoint row = endpoint_
  /\ windowStart row = timestamp start
  /\ Forall (fun x =>
               in_window identifier_ endpoint_ (start - window) x = false) pre
  /\ Forall (fun x => String.eqb (rl_id x) (rl_id row) = false) pre.

(** *** The refresh-token invariant *)

(** [id] is the primary key. *)
Definition unique_ids (rows : list RefreshToken) : Prop :=
  NoDup (map rt_id rows).

(** At most one active record in each family. *)
Definition one_active_per_family (rows : list RefreshToken) : Prop :=
  forall family,
    (List.length (filter (fun r => in_family family r && active r) rows)
     <= 1)%nat.

(** Successor links point forward: no record names itself or a record
    inserted before it as its successor. *)
Fixpoint links_forward (rows : list RefreshToken) : Prop :=
  match rows with
  | [] => True
  | r :: rest =>
      newTokenId r <> Some (rt_id r)
      /\ (forall x, In x rest -> newTokenId x <> Some (rt_id r))
      /\ links_forward rest
  end.

(** A record that was never rotated has no successor. *)
Definition linked_when_rotated (rows : list RefreshToken) : Prop :=
  forall r, In r rows -> rotatedAt r = None -> newTokenId r = None.

Record store_invariant (rows : list RefreshToken) : Prop := {
  inv_ids : unique_ids rows;
  inv_active : one_active_per_family rows;
  inv_forward : links_forward rows;
  inv_linked : linked_when_rotated rows
}.

(** [r'] is the successor of [r]. *)
Definition succeeds (rows : list RefreshToken) (r r' : RefreshToken) : Prop :=
  In r rows /\ In r' rows /\ newTokenId r = Some (rt_id r').

(** [r'] is reached from [r] along successor links. *)
Inductive chain (rows : list RefreshToken)
  : RefreshToken -> RefreshToken -> Prop :=
| chain_link r r' : succeeds rows r r' -> chain rows r r'
| chain_more r r' r'' :
    succeeds rows r r' -> chain rows r' r'' -> chain rows r r''.

Definition acyclic (rows : list RefreshToken) : Prop :=
  forall r, ~ chain rows r r.

(** A successor link, once set, stays: the record keeps it for as long
    as it is stored. *)
Definition links_kept (before after : list RefreshToken) : Prop :=
  forall r successor r',
    In r before -> newTokenId r = Some successor ->
    In r' after -> rt_id r' = rt_id r ->
    newTokenId r' = Some successor.

(** The call goes on to rotate a record that was rotated before: the
    record found under the secret is already rotated, the grace branch is
    not taken, and the call passes every check and hands out a new
    pair.  A call that ends in an error, or in the grace branch, does
    not. *)
Definition rotates_again (sha256hex : string -> string) (db : Db) (now : Z)
  (rnd : RotateEntropy) (secret : string) (device : DeviceInfo) : Prop :=
  exists r issued,
    token_by_hash (hashToken sha256hex secret) (refreshTokens db) = Some r
    /\ rotatedAt r <> None
    /\ grace_reissue db now rnd r secret = None
    /\ snd (rotateRefreshToken sha256hex db now rnd secret device)
       = Tokens issued.

(** The operations the invariant is stated for: an issue into a family
    that has no active record, a rotation that does not rotate a record
    again, and every revocation, eviction and sweep. *)
Definition keeps_lineage (sha256hex : string -> string) (db : Db) (op : Op)
  : Prop :=
  match op with
  | Issue _ rnd _ _ _ tokenFamily =>
      forall r, In r (refreshTokens db) ->
                rt_tokenFamily r = family_or tokenFamily (new_family rnd) ->
                active r = false
  | Rotate now rnd secret device =>
      ~ rotates_again sha256hex db now rnd secret device
  | _ => True
  end.

(** A rewrite of rows that keeps ids, families and successor links and
    never makes a record active. *)
Definition benign (g : RefreshToken -> RefreshToken) : Prop :=
  forall x,
    rt_id (g x) = rt_id x
    /\ rt_tokenFamily (g x) = rt_tokenFamily x
    /\ newTokenId (g x) = newTokenId x
    /\ rotatedAt (g x) = rotatedAt x
    /\ (active (g x) = true -> active x = true).

(** ** Sample data *)

(** A stand-in digest for running the definitions: injective, as SHA-256
    is taken to be. *)
Definition toy_digest (s : string) : string := ("sha256:" ++ s)%string.

Definition empty_db : Db :=
  {| refreshTokens := []; sessions := []; otps := []; rateLimits := [] |}.

Definition t0 : Z := 1700000000000.

Definition phone_device : DeviceInfo :=
  {| fingerprint := "fp-phone"; ipAddress := "10.0.0.1";
     userAgent := Some "app/1.0" |}.

Definition laptop_device : DeviceInfo :=
  {| fingerprint := "fp-laptop"; ipAddress := "10.0.0.2";
     userAgent := Some "browser/7" |}.

Definition login_entropy : IssueEntropy :=
  {| new_family := "fam1"; new_sessionUuid := "s1"; new_jti := "j1";
     new_secret := "secretA"; new_rtUuid := "a" |}.

Definition second_entropy : RotateEntropy :=
  {| next_secret := "secretB"; next_rtUuid := "b"; next_jti := "j2" |}.

Definition third_entropy : RotateEntropy :=
  {| next_secret := "secretC"; next_rtUuid := "c"; next_jti := "j3" |}.

(** A refresh-token record of user [u1], issued at [t0], and the session
    of its family. *)
Definition recordA : RefreshToken :=
  {| rt_id := "rt_a"; tokenHash := "sha256:secretA";
     rt_userId := Some "u1"; rt_superuserId := None;
     rt_tokenFamily := "fam1"; rt_expiresAt := 1702592000000;
     rt_revoked := false; revokedAt := None;
     rotatedAt := None; newTokenId := None;
     rt_deviceFingerprint := "fp-phone"; rt_ipAddress := "10.0.0.1";
     rt_userAgent := Some "app/1.0"; rt_createdAt := 1700000000000 |}.

Definition sessionA : Session :=
  {| s_id := "session_s1"; s_userId := Some "u1"; s_superuserId := None;
     s_tokenFamily := "fam1"; s_deviceFingerprint := "fp-phone";
     s_ipAddress := "10.0.0.1"; s_userAgent := Some "app/1.0";
     lastActivity := 1700000000000; sessionStarted := 1700000000000;
     refreshCount := 0; isActive := true; s_revoked := false;
     s_createdAt := 1700000000000 |}.

(** A store holding the two. *)
Definition db_login : Db :=
  {| refreshTokens := [recordA]; sessions := [sessionA];
     otps := []; rateLimits := [] |}.

(** The successor drawn by a rotation 61 seconds later. *)
Definition recordB : RefreshToken :=
  {| rt_id := "rt_b"; tokenHash := "sha256:secretB";
     rt_userId := Some "u1"; rt_superuserId := None;
     rt_tokenFamily := "fam1"; rt_expiresAt := 1702592061000;
     rt_revoked := false; revokedAt := None;
     rotatedAt := None; newTokenId := None;
     rt_deviceFingerprint := "fp-phone"; rt_ipAddress := "10.0.0.1";
     rt_userAgent := Some "app/1.0"; rt_createdAt := 1700000061000 |}.

Definition recordA_rotated : RefreshToken :=
  set_rt_rotated (t0 + 61000) "rt_b" recordA.

Definition sessionA_refreshed : Session :=
  set_s_refreshed (t0 + 61000) 1 sessionA.

(** The store after that rotation. *)
Definition db_rotated : Db :=
  {| refreshTokens := [recordA_rotated; recordB];
     sessions := [sessionA_refreshed]; otps := []; rateLimits := [] |}.

(** The pair that rotation hands out. *)
Definition second_pair : TokenPair :=
  {| accessToken :=
       {| userId := Some "u1"; superuserId := None; type := user;
          jti := "j2"; sessionId := None;
          iat := 1700000061; exp := 1700000961 |};
     refreshToken := "secretB"; expiresIn := 900 |}.

(** The store after the family was revoked. *)
Definition db_revoked : Db :=
  {| refreshTokens :=
       [set_rt_revoked (t0 + 61000) recordA];
     sessions := [set_s_revoked sessionA]; otps := []; rateLimits := [] |}.

(** Five sessions of user [u1], started a minute apart. *)
Definition session_at (n : Z) (name : string) : Session :=
  {| s_id := ("session_" ++ name)%string; s_userId := Some "u1";
     s_superuserId := None; s_tokenFamily := ("fam_" ++ name)%string;
     s_deviceFingerprint := ("fp_" ++ name)%string;
     s_ipAddress := "10.0.0.1"; s_userAgent := None;
     lastActivity := t0 + n * 60000; sessionStarted := t0 + n * 60000;
     refreshCount := 0; isActive := true; s_revoked := false;
     s_createdAt := t0 + n * 60000 |}.

Definition record_of (s : Session) (name : string) : RefreshToken :=
  {| rt_id := ("rt_" ++ name)%string;
     tokenHash := toy_digest name;
     rt_userId := s_userId s; rt_superuserId := s_superuserId s;
     rt_tokenFamily := s_tokenFamily s;
     rt_expiresAt := sessionStarted s + 2592000000;
     rt_revoked := false; revokedAt := None;
     rotatedAt := None; newTokenId := None;
     rt_deviceFingerprint := s_deviceFingerprint s;
     rt_ipAddress := s_ipAddress s; rt_userAgent := s_userAgent s;
     rt_createdAt := s_createdAt s |}.

Definition five_sessions : list Session :=
  [ session_at 2 "c"; session_at 0 "a"; session_at 4 "e";
    session_at 1 "b"; session_at 3 "d" ].

Definition db_five : Db :=
  {| refreshTokens :=
       [ record_of (session_at 2 "c") "c"; record_of (session_at 0 "a") "a";
         record_of (session_at 4 "e") "e"; record_of (session_at 1 "b") "b";
         record_of (session_at 3 "d") "d" ];
     sessions := five_sessions; otps := []; rateLimits := [] |}.

(** A code [123456] sent to [+15551234567]. *)
Definition otp_sent : Otp :=
  {| otp_id := "otp_1"; phoneNumber := "+15551234567";
     otpHash := toy_digest "123456";
     otp_expiresAt := t0 + 600000; used := false; usedAt := None;
     usedByFingerprint := None; attemptCount := 0;
     otp_createdAt := t0 |}.

Definition db_otp : Db :=
  {| refreshTokens := []; sessions := []; otps := [otp_sent];
     rateLimits := [] |}.

Definition five_wrong_codes : list (Z * string) :=
  [ (t0 + 1000, "000000"); (t0 + 2000, "111111"); (t0 + 3000, "222222");
    (t0 + 4000, "333333"); (t0 + 5000, "444444") ].

(** Calls two to five of a window opened at [t0]. *)
Definition four_more_calls : list (Z * string) :=
  [ (t0 + 1000, "r2"); (t0 + 2000, "r3"); (t0 + 3000, "r4");
    (t0 + 4000, "r5") ].

Definition relogin_entropy : IssueEntropy :=
  {| new_family := "fam2"; new_sessionUuid := "s2"; new_jti := "j9";
     new_secret := "secretZ"; new_rtUuid := "z" |}.

(** What a login into the empty store leaves behind. *)
Definition db_orphan : Db :=
  {| refreshTokens := [recordA]; sessions := []; otps := [];
     rateLimits := [] |}.

(** The store after the rotation, the rotated record since marked
    revoked: its successor and the session of the family are still
    live. *)
Definition db_stolen : Db :=
  {| refreshTokens := [set_rt_revoked (t0 + 90000) recordA_rotated; recordB];
     sessions := [sessionA_refreshed]; otps := []; rateLimits := [] |}.

(** A number written with a country prefix, spaces and an extension. *)
Definition long_number : string := "+44 20 7946 0958 123456".

(** Ninety-nine calls, a millisecond apart, after the one at [t0]. *)
Definition ninety_nine_calls : list (Z * string) :=
  map (fun n => (t0 + Z.of_nat n, "r")) (seq 1 99).

(** The rate-limit table after one call. *)
Definition db_counted : Db :=
  {| refreshTokens := []; sessions := []; otps := [];
     rateLimits :=
       [ {| rl_id := "rl_r1"; identifier := "203.0.113.9";
            endpoint := "auth:verify-otp"; requestCount := 1;
            windowStart := t0; lastRequest := t0 |} ] |}.

Definition failed_event : AuthEvent :=
  {| ev_userId := None; ev_superuserId := None;
     ev_phoneNumber := Some "+15551234567"; ev_ipAddress := "203.0.113.9";
     ev_userAgent := None; ev_success := false;
     ev_errorMessage := Some "Invalid OTP" |}.

Definition passed_event : AuthEvent :=
  {| ev_userId := Some "u1"; ev_superuserId := None;
     ev_phoneNumber := Some "+15551234567"; ev_ipAddress := "203.0.113.9";
     ev_userAgent := None; ev_success := true; ev_errorMessage := None |}.

Definition one_failure : list AuditLog :=
  [ {| al_id := "audit_1"; al_userId := None; al_superuserId := None;
       al_companyId := None; al_action := "auth:login";
       al_resource := "authentication";
       al_resourceId := Some "+15551234567";
       al_ipAddress := "203.0.113.9"; al_userAgent := None;
       al_metadata := None; al_success := false;
       al_errorMessage := Some "Invalid OTP"; al_createdAt := t0 |} ].

Definition one_blacklisted : list BlacklistEntry :=
  [ {| bl_id := "bl_1"; tokenJti := "j1"; bl_expiresAt := t0 + 900000;
       bl_createdAt := t0 |} ].

(** ** Properties *)

(** *** Lists, lookups and updates *)

Lemma find_map_same {A : Type} (p : A -> bool) (f : A -> A) (l : list A) :
  (forall x, p (f x) = p x) ->
  find p (map f l) = option_map f (find p l).
Proof.
  intros Hp. induction l as [|a l IH]; simpl; [reflexivity|].
  rewrite Hp. destruct (p a); [reflexivity|exact IH].
Qed.

Lemma find_app_found {A : Type} (p : A -> bool) (l l' : list A) (x : A) :
  find p l = Some x -> find p (l ++ l') = Some x.
Proof.
  induction l as [|a l IH]; simpl; [discriminate|].
  destruct (p a); [trivial|exact IH].
Qed.

Lemma find_app_missing {A : Type} (p : A -> bool) (l l' : list A) :
  find p l = None -> find p (l ++ l') = find p l'.
Proof.
  induction l as [|a l IH]; simpl; [reflexivity|].
  destruct (p a); [discriminate|exact IH].
Qed.

Lemma find_none_existsb {A : Type} (p : A -> bool) (l : list A) :
  find p l = None <-> existsb p l = false.
Proof.
  induction l as [|a l IH]; simpl; [tauto|].
  destruct (p a); simpl; [split; discriminate|exact IH].
Qed.

Lemma existsb_orb_false {A : Type} (p q : A -> bool) (l : list A) :
  existsb p l = false -> existsb q l = false ->
  existsb (fun x => p x || q x) l = false.
Proof.
  induction l as [|a l IH]; simpl; [reflexivity|].
  intros Hp Hq. apply orb_false_iff in Hp, Hq.
  destruct Hp as [-> Hp], Hq as [-> Hq]. simpl. auto.
Qed.

Lemma map_update_where {A B : Type} (g : A -> B) (sel : A -> bool)
  (set : A -> A) (l : list A) :
  (forall x, g (set x) = g x) ->
  map g (update_where sel set l) = map g l.
Proof.
  intros Hg. unfold update_where. rewrite map_map. apply map_ext.
  intros a. destruct (sel a); [apply Hg|reflexivity].
Qed.

Lemma update_where_app {A : Type} (sel : A -> bool) (set : A -> A)
  (l l' : list A) :
  update_where sel set (l ++ l') =
  (update_where sel set l ++ update_where sel set l')%list.
Proof. apply map_app. Qed.

Lemma update_where_length {A : Type} (sel : A -> bool) (set : A -> A)
  (l : list A) : List.length (update_where sel set l) = List.length l.
Proof. apply length_map. Qed.

Lemma in_update_where {A : Type} (sel : A -> bool) (set : A -> A)
  (l : list A) (y : A) :
  In y (update_where sel set l) <->
  exists x, In x l /\ y = (if sel x then set x else x).
Proof.
  unfold update_where. rewrite in_map_iff.
  split; intros [x [H1 H2]]; exists x; split; auto.
Qed.

Lemma insert_refreshToken_fresh (r : RefreshToken) (rows : list RefreshToken) :
  token_by_id (rt_id r) rows = None ->
  token_by_hash (tokenHash r) rows = None ->
  insert_refreshToken r rows = Some (rows ++ [r])%list.
Proof.
  unfold token_by_id, token_by_hash, insert_refreshToken.
  intros Hid Hhash. apply find_none_existsb in Hid, Hhash.
  rewrite existsb_orb_false by assumption. reflexivity.
Qed.

Lemma insert_refreshToken_inv (r : RefreshToken)
  (rows rows' : list RefreshToken) :
  insert_refreshToken r rows = Some rows' ->
  rows' = (rows ++ [r])%list
  /\ (forall x, In x rows -> rt_id x <> rt_id r /\ tokenHash x <> tokenHash r).
Proof.
  unfold insert_refreshToken.
  destruct (existsb _ rows) eqn:E; [discriminate|].
  intros H. injection H as <-. split; [reflexivity|].
  intros x Hx.
  split; intros Heq; rewrite <- not_true_iff_false in E; apply E;
    apply existsb_exists; exists x; (split; [exact Hx|]);
    rewrite Heq, String.eqb_refl; auto using orb_true_r.
Qed.

Lemma gtb_false (a b : Z) : a <= b -> (a >? b) = false.
Proof. intros H. rewrite Z.gtb_ltb. apply Z.ltb_ge. exact H. Qed.

Lemma ltb_false (a b : Z) : b <= a -> (a <? b) = false.
Proof. intros H. apply Z.ltb_ge. exact H. Qed.

Lemma truthy_some (s : string) : s <> "" -> truthy (Some s) = true.
Proof.
  intros H. unfold truthy. apply negb_true_iff. apply String.eqb_neq. exact H.
Qed.

Lemma family_revoked_after_update now family rows x :
  In x (update_where (in_family family) (set_rt_revoked now) rows) ->
  rt_tokenFamily x = family -> rt_revoked x = true.
Proof.
  intros Hin Hfam. apply in_update_where in Hin.
  destruct Hin as [y [_ ->]]. unfold in_family in *.
  destruct (String.eqb_spec (rt_tokenFamily y) family) as [_|Hne];
    [reflexivity|contradiction].
Qed.

Lemma sessions_revoked_after_update family rows s :
  In s (update_where (session_of family) set_s_revoked rows) ->
  s_tokenFamily s = family -> s_revoked s = true /\ isActive s = false.
Proof.
  intros Hin Hfam. apply in_update_where in Hin.
  destruct Hin as [y [_ ->]]. unfold session_of in *.
  destruct (String.eqb_spec (s_tokenFamily y) family) as [_|Hne];
    [split; reflexivity|contradiction].
Qed.

Lemma family_revoked_by_update now family rows x :
  In x rows -> rt_tokenFamily x = family ->
  exists x',
    In x' (update_where (in_family family) (set_rt_revoked now) rows)
    /\ rt_id x' = rt_id x /\ tokenHash x' = tokenHash x
    /\ rt_revoked x' = true.
Proof.
  intros Hin Hfam. exists (set_rt_revoked now x).
  split; [|repeat split].
  apply in_update_where. exists x. split; [exact Hin|].
  unfold in_family. rewrite Hfam, String.eqb_refl. reflexivity.
Qed.

Lemma family_spared_by_update now family rows x :
  In x rows -> rt_tokenFamily x <> family ->
  In x (update_where (in_family family) (set_rt_revoked now) rows).
Proof.
  intros Hin Hfam. apply in_update_where. exists x. split; [exact Hin|].
  unfold in_family. apply String.eqb_neq in Hfam. rewrite Hfam. reflexivity.
Qed.

Lemma sessions_revoked_by_update family rows s :
  In s rows -> s_tokenFamily s = family ->
  exists s',
    In s' (update_where (session_of family) set_s_revoked rows)
    /\ s_id s' = s_id s /\ s_revoked s' = true /\ isActive s' = false.
Proof.
  intros Hin Hfam. exists (set_s_revoked s).
  split; [|repeat split].
  apply in_update_where. exists s. split; [exact Hin|].
  unfold session_of. rewrite Hfam, String.eqb_refl. reflexivity.
Qed.

Lemma sessions_spared_by_update family rows s :
  In s rows -> s_tokenFamily s <> family ->
  In s (update_where (session_of family) set_s_revoked rows).
Proof.
  intros Hin Hfam. apply in_update_where. exists s. split; [exact Hin|].
  unfold session_of. apply String.eqb_neq in Hfam. rewrite Hfam. reflexivity.
Qed.

(** A token signed at [now] verifies until its expiry plus the tolerance. *)
Lemma signed_token_verifies u su ty id sid now later :
  later / 1000 < now / 1000 + ACCESS_TOKEN_EXPIRY + CLOCK_SKEW_SECONDS ->
  verifyAccessToken (jwt_sign u su ty id sid now) later
  = Some (jwt_sign u su ty id sid now).
Proof.
  intros H. unfold verifyAccessToken. simpl exp.
  assert (E : (later / 1000 >=?
               now / 1000 + ACCESS_TOKEN_EXPIRY + CLOCK_SKEW_SECONDS) = false)
    by (rewrite Z.geb_leb; apply Z.leb_gt; exact H).
  rewrite E. reflexivity.
Qed.

(** *** C8 *)

Lemma insert_by_createdAt_In s sorted x :
  In x (insert_by_createdAt s sorted) <-> x = s \/ In x sorted.
Proof.
  induction sorted as [|y rest IH]; simpl; [intuition congruence|].
  destruct (s_createdAt s <=? s_createdAt y); simpl;
    [intuition congruence|].
  rewrite IH. intuition congruence.
Qed.

Lemma orderBy_createdAt_In rows x :
  In x (orderBy_createdAt rows) <-> In x rows.
Proof.
  induction rows as [|y rows IH]; simpl; [tauto|].
  rewrite insert_by_createdAt_In, IH. intuition congruence.
Qed.

Lemma insert_by_createdAt_length s sorted :
  List.length (insert_by_createdAt s sorted) = S (List.length sorted).
Proof.
  induction sorted as [|y rest IH]; simpl; [reflexivity|].
  destruct (s_createdAt s <=? s_createdAt y); simpl; congruence.
Qed.

Lemma orderBy_createdAt_length rows :
  List.length (orderBy_createdAt rows) = List.length rows.
Proof.
  induction rows as [|y rows IH]; simpl; [reflexivity|].
  rewrite insert_by_createdAt_length, IH. reflexivity.
Qed.

Lemma insert_by_createdAt_head s sorted :
  head_earliest sorted -> head_earliest (insert_by_createdAt s sorted).
Proof.
  destruct sorted as [|y rest]; simpl.
  - intros _ x [<-|[]]. lia.
  - intros Hy. destruct (s_createdAt s <=? s_createdAt y) eqn:Hle; simpl.
    + apply Z.leb_le in Hle. intros x [<-|Hx]; [lia|].
      specialize (Hy x Hx). lia.
    + apply Z.leb_gt in Hle. intros x [<-|Hx]; [lia|].
      apply insert_by_createdAt_In in Hx. destruct Hx as [->|Hx]; [lia|].
      apply Hy. right. exact Hx.
Qed.

Lemma orderBy_createdAt_head rows : head_earliest (orderBy_createdAt rows).
Proof.
  induction rows as [|y rows IH]; simpl; [exact I|].
  apply insert_by_createdAt_head. exact IH.
Qed.

Lemma update_where_none {A : Type} (sel : A -> bool) (set : A -> A)
  (l : list A) :
  (forall x, In x l -> sel x = false) -> update_where sel set l = l.
Proof.
  intros H. unfold update_where. rewrite <- (map_id l) at 2.
  apply map_ext_in. intros a Ha. rewrite (H a Ha). reflexivity.
Qed.

Lemma update_where_one {A : Type} (key : A -> string) (set : A -> A)
  (l : list A) (x : A) :
  NoDup (map key l) -> In x l ->
  exists pre post,
    l = (pre ++ x :: post)%list
    /\ update_where (fun y => String.eqb (key y) (key x)) set l
       = (pre ++ set x :: post)%list.
Proof.
  intros Hnd Hin. destruct (in_split _ _ Hin) as (pre & post & ->).
  exists pre, post. split; [reflexivity|].
  rewrite map_app in Hnd. simpl in Hnd.
  assert (Hpre : forall y, In y pre -> String.eqb (key y) (key x) = false).
  { intros y Hy. apply String.eqb_neq. intros Heq.
    apply NoDup_remove_2 in Hnd. apply Hnd. apply in_or_app. left.
    rewrite <- Heq. apply in_map. exact Hy. }
  assert (Hpost : forall y, In y post -> String.eqb (key y) (key x) = false).
  { intros y Hy. apply String.eqb_neq. intros Heq.
    apply NoDup_remove_2 in Hnd. apply Hnd. apply in_or_app. right.
    rewrite <- Heq. apply in_map. exact Hy. }
  rewrite update_where_app. simpl. rewrite String.eqb_refl.
  fold (update_where (fun y => String.eqb (key y) (key x)) set post).
  rewrite (update_where_none _ set pre Hpre).
  rewrite (update_where_none _ set post Hpost). reflexivity.
Qed.

(** C8. For an account given by a non-empty id, with session ids unique
    as the primary key makes them, and a positive limit: when the
    account's active sessions number [maxDevices] or more, exactly one
    session row changes, the one created earliest among them (and started
    earliest, [sessionStarted] and [createdAt] being written together):
    it was active and is now revoked and inactive under the same id.
    Every refresh token of its family stays stored and is revoked, the
    tokens of other families are as they were; when the active sessions
    number fewer, the store is untouched. *)
Theorem device_limit_evicts_oldest
  db now userId superuserId maxDevices account :
  js_or userId superuserId = Some account ->
  account <> "" ->
  NoDup (map s_id (sessions db)) ->
  0 < maxDevices ->
  let accountType := if truthy userId then user else superuser in
  let activeSessions :=
    filter (active_session_of accountType account) (sessions db) in
  let after := enforceDeviceLimit db now userId superuserId maxDevices in
  (maxDevices <= Z.of_nat (List.length activeSessions) ->
   exists oldest pre post,
     In oldest activeSessions
     /\ (forall s, In s activeSessions ->
                   s_createdAt oldest <= s_createdAt s)
     /\ ((forall s, In s (sessions db) -> sessionStarted s = s_createdAt s) ->
         forall s, In s activeSessions ->
                   sessionStarted oldest <= sessionStarted s)
     /\ sessions db = (pre ++ oldest :: post)%list
     /\ sessions (fst after) = (pre ++ set_s_revoked oldest :: post)%list
     /\ isActive oldest = true
     /\ s_id (set_s_revoked oldest) = s_id oldest
     /\ s_revoked (set_s_revoked oldest) = true
     /\ isActive (set_s_revoked oldest) = false
     /\ refreshTokens (fst after)
        = update_where (in_family (s_tokenFamily oldest))
            (set_rt_revoked now) (refreshTokens db)
     /\ (forall x, In x (refreshTokens db) ->
                   rt_tokenFamily x = s_tokenFamily oldest ->
                   exists x', In x' (refreshTokens (fst after))
                              /\ rt_id x' = rt_id x
                              /\ tokenHash x' = tokenHash x
                              /\ rt_revoked x' = true)
     /\ (forall x, In x (refreshTokens db) ->
                   rt_tokenFamily x <> s_tokenFamily oldest ->
                   In x (refreshTokens (fst after)))
     /\ (forall x, In x (refreshTokens (fst after)) ->
                   rt_tokenFamily x = s_tokenFamily oldest ->
                   rt_revoked x = true)
     /\ snd after = Returned tt)
  /\ (Z.of_nat (List.length activeSessions) < maxDevices ->
      after = (db, Returned tt)).
Proof.
  intros Hacc Hne Hnd Hpos accountType activeSessions after.
  subst after. unfold enforceDeviceLimit. rewrite Hacc.
  rewrite (truthy_some _ Hne). simpl negb. cbv iota.
  fold accountType. fold activeSessions.
  rewrite orderBy_createdAt_length.
  split.
  - intros Hfull.
    assert (Hge : (Z.of_nat (List.length activeSessions) >=? maxDevices) = true)
      by (rewrite Z.geb_leb; apply Z.leb_le; exact Hfull).
    rewrite Hge.
    pose proof (orderBy_createdAt_head activeSessions) as Hhead.
    pose proof (orderBy_createdAt_In activeSessions) as Hmem.
    pose proof (orderBy_createdAt_length activeSessions) as Hlen.
    destruct (orderBy_createdAt activeSessions) as [|oldest rest].
    { simpl in Hlen. rewrite <- Hlen in Hfull. simpl in Hfull. lia. }
    assert (Hold : In oldest activeSessions) by (apply Hmem; left; reflexivity).
    assert (Hin : In oldest (sessions db))
      by (apply filter_In in Hold; tauto).
    destruct (update_where_one s_id set_s_revoked (sessions db) oldest Hnd Hin)
      as (pre & post & Hsplit & Hupd).
    exists oldest, pre, post.
    cbn [fst snd refreshTokens sessions with_sessions with_refreshTokens].
    assert (Hmin : forall s, In s activeSessions ->
                             s_createdAt oldest <= s_createdAt s).
    { intros s Hs. apply Hhead. apply Hmem. exact Hs. }
    split; [exact Hold|]. split; [exact Hmin|].
    split.
    { intros Hsame s Hs.
      rewrite (Hsame oldest Hin).
      rewrite (Hsame s) by (apply filter_In in Hs; tauto).
      apply Hmin. exact Hs. }
    split; [exact Hsplit|]. split; [exact Hupd|].
    split.
    { apply filter_In in Hold. destruct Hold as [_ Hact].
      apply andb_true_iff in Hact. destruct Hact as [_ Hact].
      destruct (isActive oldest); [reflexivity|discriminate]. }
    split; [reflexivity|]. split; [reflexivity|]. split; [reflexivity|].
    split; [reflexivity|].
    split; [intros x; apply family_revoked_by_update|].
    split; [intros x; apply family_spared_by_update|].
    split; [intros x; apply family_revoked_after_update|reflexivity].
  - intros Hfew.
    assert (Hge : (Z.of_nat (List.length activeSessions) >=? maxDevices) =
      false)
      by (rewrite Z.geb_leb; apply Z.leb_gt; exact Hfew).
    rewrite Hge. reflexivity.
Qed.

(** *** C5 *)

Lemma config_for_sane endpoint_ config :
  config_for endpoint_ = Some config ->
  1 <= maxRequests config <= 100
  /\ 0 < windowMs config
  /\ windowMs config mod 1000 = 0.
Proof.
  unfold config_for, RATE_LIMIT_CONFIGS. cbn [config_lookup].
  repeat match goal with
         | |- context [if String.eqb ?k endpoint_ then _ else _] =>
             destruct (String.eqb k endpoint_)
         end;
    try (intros [= <-]; cbn [maxRequests windowMs];
         repeat split; try lia; reflexivity).
  destruct (existsb _ Object_prototype); [discriminate|].
  intros H. vm_compute in H. injection H as <-.
  cbn [maxRequests windowMs]. repeat split; try lia; reflexivity.
Qed.

Lemma sql_gt_window start t w :
  w mod 1000 = 0 ->
  sql_gt (timestamp start) (t - w) = (t <? timestamp start + w).
Proof.
  intros Hw. unfold sql_gt, timestamp.
  destruct (t <? 1000 * (start / 1000) + w) eqn:E;
    [apply Z.ltb_lt in E; apply Z.ltb_lt|apply Z.ltb_ge in E; apply Z.ltb_ge];
    Z.div_mod_to_equations; lia.
Qed.

Lemma sql_gt_earlier col since since' :
  since' <= since -> sql_gt col since = true -> sql_gt col since' = true.
Proof.
  unfold sql_gt. intros Hle H. apply Z.ltb_lt in H. apply Z.ltb_lt.
  Z.div_mod_to_equations. lia.
Qed.

Lemma in_window_later identifier_ endpoint_ since since' r :
  since' <= since ->
  in_window identifier_ endpoint_ since' r = false ->
  in_window identifier_ endpoint_ since r = false.
Proof.
  unfold in_window. intros Hle H.
  destruct (String.eqb (identifier r) identifier_); [|reflexivity].
  destruct (String.eqb (endpoint r) endpoint_); [|reflexivity].
  simpl in *. destruct (sql_gt (windowStart r) since) eqn:E; [|reflexivity].
  rewrite (sql_gt_earlier _ _ _ Hle E) in H. discriminate.
Qed.

Lemma find_all_false {A : Type} (p : A -> bool) (l : list A) :
  Forall (fun x => p x = false) l -> find p l = None.
Proof.
  induction 1 as [|a l Ha _ IH]; simpl; [reflexivity|].
  rewrite Ha. exact IH.
Qed.

Lemma counting_finds db identifier_ endpoint_ start window pre row t :
  window mod 1000 = 0 ->
  counting db identifier_ endpoint_ start window pre row ->
  inside_window start window t ->
  find (in_window identifier_ endpoint_ (t - window)) (rateLimits db)
  = Some row.
Proof.
  intros Hmod (Hrows & Hid & Hep & Hws & Hpre & _) [Hle Hlt].
  rewrite Hrows, find_app_missing.
  - simpl. unfold in_window at 1.
    rewrite Hid, Hep, Hws, !String.eqb_refl, (sql_gt_window _ _ _ Hmod).
    apply Z.ltb_lt in Hlt. rewrite Hlt. reflexivity.
  - apply find_all_false. eapply Forall_impl; [|exact Hpre].
    intros x Hx. eapply in_window_later; [|exact Hx]. lia.
Qed.

Lemma counting_update identifier_ endpoint_ start window pre row db count t :
  counting db identifier_ endpoint_ start window pre row ->
  update_where (fun r => String.eqb (rl_id r) (rl_id row))
    (set_rl_counted count t) (rateLimits db)
  = (pre ++ [set_rl_counted count t row])%list.
Proof.
  intros (Hrows & _ & _ & _ & _ & Hids).
  rewrite Hrows, update_where_app. simpl. rewrite String.eqb_refl.
  rewrite update_where_none; [reflexivity|].
  intros x Hx. rewrite Forall_forall in Hids. exact (Hids x Hx).
Qed.

Lemma check_counting db identifier_ endpoint_ config start pre row t uuid :
  config_for endpoint_ = Some config ->
  counting db identifier_ endpoint_ start (windowMs config) pre row ->
  inside_window start (windowMs config) t ->
  checkRateLimit db t uuid identifier_ endpoint_ =
  if requestCount row >=? maxRequests config then
    (db, {| allowed := false; remainingRequests := Some 0;
            resetTime :=
              Some (timestamp start + windowMs config) |})
  else
    (with_rateLimits db
       (pre ++ [set_rl_counted (requestCount row + 1) t row]),
     {| allowed := true;
        remainingRequests :=
          Some (maxRequests config - requestCount row - 1);
        resetTime :=
          Some (timestamp start + windowMs config) |}).
Proof.
  intros Hcfg Hc Hin. unfold checkRateLimit. rewrite Hcfg.
  destruct (config_for_sane _ _ Hcfg) as (_ & _ & Hmod).
  rewrite (counting_finds _ _ _ _ _ _ _ _ Hmod Hc Hin).
  rewrite (counting_update _ _ _ _ _ _ _ _ _ Hc).
  destruct Hc as (_ & _ & _ & -> & _). reflexivity.
Qed.

Lemma counting_calls identifier_ endpoint_ config start pre calls :
  config_for endpoint_ = Some config ->
  Forall (fun call =>
            inside_window start (windowMs config) (fst call))
         calls ->
  forall db row,
  counting db identifier_ endpoint_ start (windowMs config) pre row ->
  requestCount row <= maxRequests config ->
  exists row',
    counting (window_calls db identifier_ endpoint_ calls)
      identifier_ endpoint_ start (windowMs config) pre row'
    /\ rl_id row' = rl_id row
    /\ requestCount row'
       = Z.min (requestCount row + Z.of_nat (List.length calls))
           (maxRequests config).
Proof.
  unfold window_calls. intros Hcfg.
  induction 1 as [|call calls Hcall _ IH]; intros db row Hc Hle.
  - exists row. simpl. split; [exact Hc|split; [reflexivity|lia]].
  - cbn [fold_left List.length].
    rewrite (check_counting db _ _ config start pre row (fst call)
               (snd call) Hcfg Hc Hcall).
    destruct (requestCount row >=? _) eqn:Hfull.
    + rewrite Z.geb_leb in Hfull. apply Z.leb_le in Hfull. cbn [fst].
      destruct (IH db row Hc Hle) as (row' & Hc' & Hid' & Hn').
      exists row'. split; [exact Hc'|split; [exact Hid'|lia]].
    + rewrite Z.geb_leb in Hfull. apply Z.leb_gt in Hfull. cbn [fst].
      destruct Hc as (Hrows & Hid & Hep & Hws & Hpre & Hids).
      edestruct (IH (with_rateLimits db
                       (pre ++ [set_rl_counted (requestCount row + 1)
                                  (fst call) row]))
                    (set_rl_counted (requestCount row + 1) (fst call) row))
        as (row' & Hc' & Hid' & Hn').
      { unfold counting. simpl. auto 10. }
      { simpl. lia. }
      exists row'. split; [exact Hc'|split; [exact Hid'|]].
      rewrite Hn'. simpl requestCount. lia.
Qed.

(** C5. For an endpoint with a configured [maxRequests] and window, its
    own or the general one, and a pair with no record in the active
    window and a fresh id, the first call stores a record with count 1
    and is allowed.  After any further calls inside the window the table
    has gained that one record only, holding the number of calls made
    capped at [maxRequests]; the next call inside the window is allowed,
    with the remaining budget, while fewer than [maxRequests] calls were
    made, and otherwise denied with no request remaining, the window's
    reset time and no write.  The first call once the window has elapsed
    stores a fresh record with count 1. *)
Theorem rate_limit_fixed_window
  db identifier_ endpoint_ config start uuid1 calls t uuid :
  config_for endpoint_ = Some config ->
  find (in_window identifier_ endpoint_
          (start - windowMs config)) (rateLimits db) = None ->
  existsb (fun r => String.eqb (rl_id r) (generateId "rl" uuid1))
    (rateLimits db) = false ->
  Forall (fun call =>
            inside_window start (windowMs config) (fst call))
         calls ->
  let window := windowMs config in
  let limit := maxRequests config in
  let first := checkRateLimit db start uuid1 identifier_ endpoint_ in
  let db' := window_calls (fst first) identifier_ endpoint_ calls in
  let made := 1 + Z.of_nat (List.length calls) in
  first =
    (with_rateLimits db
       (rateLimits db ++
        [ {| rl_id := generateId "rl" uuid1; identifier := identifier_;
             endpoint := endpoint_; requestCount := 1;
             windowStart := timestamp start;
             lastRequest := timestamp start |} ])%list,
     {| allowed := true; remainingRequests := Some (limit - 1);
        resetTime := Some (start + window) |})
  /\ (exists row,
        rateLimits db' = (rateLimits db ++ [row])%list
        /\ rl_id row = generateId "rl" uuid1
        /\ identifier row = identifier_ /\ endpoint row = endpoint_
        /\ windowStart row = timestamp start
        /\ requestCount row = Z.min made limit)
  /\ (inside_window start window t ->
      (made < limit ->
       snd (checkRateLimit db' t uuid identifier_ endpoint_)
       = {| allowed := true; remainingRequests := Some (limit - made - 1);
            resetTime := Some (timestamp start + window) |})
      /\ (limit <= made ->
          checkRateLimit db' t uuid identifier_ endpoint_
          = (db', {| allowed := false; remainingRequests := Some 0;
                     resetTime := Some (timestamp start + window) |})))
  /\ (timestamp start + window <= t ->
      existsb (fun r => String.eqb (rl_id r) (generateId "rl" uuid))
        (rateLimits db') = false ->
      checkRateLimit db' t uuid identifier_ endpoint_
      = (with_rateLimits db'
           (rateLimits db' ++
            [ {| rl_id := generateId "rl" uuid; identifier := identifier_;
                 endpoint := endpoint_; requestCount := 1;
                 windowStart := timestamp t;
                 lastRequest := timestamp t |} ])%list,
         {| allowed := true; remainingRequests := Some (limit - 1);
            resetTime := Some (t + window) |})).
Proof.
  intros Hcfg Hnone Hfresh Hcalls window limit first db' made.
  destruct (config_for_sane _ _ Hcfg) as ((Hlimit & _) & Hwindow & Hmod).
  assert (Hfirst : first =
    (with_rateLimits db
       (rateLimits db ++
        [ {| rl_id := generateId "rl" uuid1; identifier := identifier_;
             endpoint := endpoint_; requestCount := 1;
             windowStart := timestamp start;
             lastRequest := timestamp start |} ])%list,
     {| allowed := true; remainingRequests := Some (limit - 1);
        resetTime := Some (start + window) |})).
  { subst first. unfold checkRateLimit. rewrite Hcfg, Hnone, Hfresh.
    reflexivity. }
  split; [exact Hfirst|].
  set (row1 := {| rl_id := generateId "rl" uuid1; identifier := identifier_;
                  endpoint := endpoint_; requestCount := 1;
                  windowStart := timestamp start;
                  lastRequest := timestamp start |}) in *.
  assert (Hc : counting (fst first) identifier_ endpoint_ start window
                 (rateLimits db) row1).
  { rewrite Hfirst. unfold counting. cbn [fst rateLimits with_rateLimits].
    repeat split.
    - apply Forall_forall. intros x Hx.
      exact (find_none _ _ Hnone x Hx).
    - apply Forall_forall. intros x Hx.
      apply find_none_existsb in Hfresh. exact (find_none _ _ Hfresh x Hx). }
  destruct (counting_calls identifier_ endpoint_ config start
              (rateLimits db) calls Hcfg Hcalls (fst first) row1 Hc Hlimit)
    as (row & Hc' & Hid & Hcount).
  fold db' in Hc'. unfold row1 in Hid, Hcount.
  cbn [rl_id requestCount] in Hid, Hcount.
  fold limit in Hcount. fold made in Hcount.
  pose proof Hc' as (Hrows & Hrid & Hrep & Hws & Hpre & Hids).
  split.
  { exists row. repeat split; assumption. }
  split.
  - intros Hin.
    rewrite (check_counting db' _ _ config start (rateLimits db) row t uuid
               Hcfg Hc' Hin).
    fold limit. fold window. rewrite Hcount. split; intros Hcmp.
    + assert (H : (Z.min made limit >=? limit) = false)
        by (rewrite Z.geb_leb; apply Z.leb_gt; lia).
      rewrite H. cbn [snd]. repeat f_equal. lia.
    + assert (H : (Z.min made limit >=? limit) = true)
        by (rewrite Z.geb_leb; apply Z.leb_le; lia).
      rewrite H. reflexivity.
  - intros Hlate Hfresh'. unfold checkRateLimit. rewrite Hcfg.
    fold window. fold limit.
    assert (Hgone : find (in_window identifier_ endpoint_ (t - window))
                      (rateLimits db') = None).
    { rewrite Hrows, find_app_missing.
      - simpl. unfold in_window.
        rewrite Hws. unfold window. rewrite (sql_gt_window _ _ _ Hmod).
        fold window. rewrite (ltb_false _ _ Hlate).
        rewrite !andb_false_r. reflexivity.
      - apply find_all_false. eapply Forall_impl; [|exact Hpre].
        intros x Hx. eapply in_window_later; [|exact Hx].
        fold window. unfold timestamp in Hlate.
        Z.div_mod_to_equations. lia. }
    rewrite Hgone, Hfresh'. reflexivity.
Qed.

Section Properties.

Variable sha256hex : string -> string.

(** *** Rotation, branch by branch *)

Lemma grace_reissue_taken db now rnd r secret rotated successorId successor :
  rotatedAt r = Some rotated ->
  newTokenId r = Some successorId ->
  successorId <> "" ->
  now - rotated < GRACE_PERIOD ->
  token_by_id successorId (refreshTokens db) = Some successor ->
  rt_revoked successor = false ->
  grace_reissue db now rnd r secret =
  Some {| accessToken :=
            jwt_sign (rt_userId successor) (rt_superuserId successor)
              (if truthy (rt_superuserId successor) then superuser else user)
              (next_jti rnd) None now;
          refreshToken := secret;
          expiresIn := 15 * 60 |}.
Proof.
  intros Hrot Hnew Hne Hlt Hsucc Hrev. unfold grace_reissue.
  rewrite Hrot, Hnew, (truthy_some _ Hne).
  apply Z.ltb_lt in Hlt. rewrite Hlt, Hsucc, Hrev. reflexivity.
Qed.

Lemma grace_reissue_late db now rnd r secret rotated :
  rotatedAt r = Some rotated ->
  GRACE_PERIOD <= now - rotated ->
  grace_reissue db now rnd r secret = None.
Proof.
  intros Hrot Hge. unfold grace_reissue. rewrite Hrot.
  destruct (newTokenId r); [|reflexivity].
  rewrite (ltb_false _ _ Hge). destruct (truthy _); reflexivity.
Qed.

Lemma grace_reissue_fresh db now rnd r secret :
  rotatedAt r = None -> grace_reissue db now rnd r secret = None.
Proof. intros Hrot. unfold grace_reissue. rewrite Hrot. reflexivity. Qed.

Lemma rotate_grace db now rnd secret device r reissued :
  token_by_hash (hashToken sha256hex secret) (refreshTokens db) = Some r ->
  rt_revoked r = false ->
  now <= rt_expiresAt r ->
  grace_reissue db now rnd r secret = Some reissued ->
  rotateRefreshToken sha256hex db now rnd secret device = (db, Tokens reissued).
Proof.
  intros Hfind Hrev Hexp Hgrace. unfold rotateRefreshToken.
  rewrite Hfind, Hrev, (gtb_false _ _ Hexp), Hgrace. reflexivity.
Qed.

Lemma rotate_mismatch db now rnd secret device r session :
  token_by_hash (hashToken sha256hex secret) (refreshTokens db) = Some r ->
  rt_revoked r = false ->
  now <= rt_expiresAt r ->
  grace_reissue db now rnd r secret = None ->
  session_by_family (rt_tokenFamily r) (sessions db) = Some session ->
  session_checks_pass now session ->
  rt_deviceFingerprint r <> fingerprint device ->
  rotateRefreshToken sha256hex db now rnd secret device =
  (with_refreshTokens db
     (update_where (in_family (rt_tokenFamily r)) (set_rt_revoked now)
        (refreshTokens db)),
   Error DeviceMismatch).
Proof.
  intros Hfind Hrev Hexp Hgrace Hsess (Hfreq & Hage & Hcount) Hfp.
  unfold rotateRefreshToken.
  rewrite Hfind, Hrev, (gtb_false _ _ Hexp), Hgrace, Hsess.
  rewrite (ltb_false _ _ Hfreq), (gtb_false _ _ Hage), (gtb_false _ _ Hcount).
  apply String.eqb_neq in Hfp. rewrite Hfp. reflexivity.
Qed.

Lemma rotate_success db now rnd secret device r session :
  token_by_hash (hashToken sha256hex secret) (refreshTokens db) = Some r ->
  rt_revoked r = false ->
  now <= rt_expiresAt r ->
  grace_reissue db now rnd r secret = None ->
  session_by_family (rt_tokenFamily r) (sessions db) = Some session ->
  session_checks_pass now session ->
  rt_deviceFingerprint r = fingerprint device ->
  token_by_id (generateId "rt" (next_rtUuid rnd)) (refreshTokens db) = None ->
  token_by_hash (hashToken sha256hex (next_secret rnd)) (refreshTokens db)
    = None ->
  rotateRefreshToken sha256hex db now rnd secret device =
  (with_sessions
     (with_refreshTokens db
        (update_where (fun x => String.eqb (rt_id x) (rt_id r))
           (set_rt_rotated now (generateId "rt" (next_rtUuid rnd)))
           (refreshTokens db ++ [successor_row sha256hex now rnd device r])))
     (update_where (fun s => String.eqb (s_id s) (s_id session))
        (set_s_refreshed now (refreshCount session + 1)) (sessions db)),
   Tokens {| accessToken :=
               jwt_sign (rt_userId r) (rt_superuserId r)
                 (if truthy (rt_superuserId r) then superuser else user)
                 (next_jti rnd) None now;
             refreshToken := next_secret rnd;
             expiresIn := 15 * 60 |}).
Proof.
  intros Hfind Hrev Hexp Hgrace Hsess (Hfreq & Hage & Hcount) Hfp Hid Hhash.
  unfold rotateRefreshToken.
  rewrite Hfind, Hrev, (gtb_false _ _ Hexp), Hgrace, Hsess.
  rewrite (ltb_false _ _ Hfreq), (gtb_false _ _ Hage), (gtb_false _ _ Hcount).
  rewrite Hfp, String.eqb_refl. simpl negb. cbv iota.
  rewrite (insert_refreshToken_fresh (successor_row sha256hex now rnd device r))
    by assumption.
  reflexivity.
Qed.

Lemma rotate_revoked db now rnd secret device r :
  token_by_hash (hashToken sha256hex secret) (refreshTokens db) = Some r ->
  rt_revoked r = true ->
  rotateRefreshToken sha256hex db now rnd secret device =
  (with_sessions
     (with_refreshTokens db
        (update_where (in_family (rt_tokenFamily r)) (set_rt_revoked now)
           (refreshTokens db)))
     (update_where (session_of (rt_tokenFamily r)) set_s_revoked
        (sessions db)),
   Error TokenRevoked).
Proof.
  intros Hfind Hrev. unfold rotateRefreshToken.
  rewrite Hfind, Hrev. reflexivity.
Qed.

Lemma grace_reissue_claims db now rnd r secret reissued :
  grace_reissue db now rnd r secret = Some reissued ->
  refreshToken reissued = secret
  /\ sessionId (accessToken reissued) = None
  /\ jti (accessToken reissued) = next_jti rnd
  /\ iat (accessToken reissued) = now / 1000
  /\ exp (accessToken reissued) = now / 1000 + 15 * 60.
Proof.
  unfold grace_reissue.
  destruct (rotatedAt r); [|discriminate].
  destruct (newTokenId r); [|discriminate].
  destruct (truthy _); [|discriminate].
  destruct (_ <? _); [|discriminate].
  destruct (token_by_id _ _) as [successor|]; [|discriminate].
  destruct (rt_revoked successor); [discriminate|].
  simpl. intros H. injection H as <-. simpl. auto.
Qed.

(** *** C1 *)

(** C1, as the code behaves. A secret whose record is rotated and past the
    ten-second grace window is not treated as theft: once the family's
    session passes the ordinary checks (sixty seconds since the last
    refresh, age, count) and the fingerprint matches, the call succeeds
    with a brand-new secret, revokes no record and no session, and
    overwrites the presented record's successor link with a second
    successor. *)
Theorem rotated_secret_past_grace_rotates_again
  db now rnd secret device r rotated session :
  token_by_hash (hashToken sha256hex secret) (refreshTokens db) = Some r ->
  rt_revoked r = false ->
  now <= rt_expiresAt r ->
  rotatedAt r = Some rotated ->
  GRACE_PERIOD <= now - rotated ->
  session_by_family (rt_tokenFamily r) (sessions db) = Some session ->
  session_checks_pass now session ->
  rt_deviceFingerprint r = fingerprint device ->
  token_by_id (generateId "rt" (next_rtUuid rnd)) (refreshTokens db) = None ->
  token_by_hash (hashToken sha256hex (next_secret rnd)) (refreshTokens db)
    = None ->
  let after := rotateRefreshToken sha256hex db now rnd secret device in
  (exists access,
      snd after = Tokens {| accessToken := access;
                            refreshToken := next_secret rnd;
                            expiresIn := 15 * 60 |})
  /\ map rt_revoked (refreshTokens (fst after))
     = (map rt_revoked (refreshTokens db) ++ [false])%list
  /\ map s_revoked (sessions (fst after)) = map s_revoked (sessions db)
  /\ map isActive (sessions (fst after)) = map isActive (sessions db)
  /\ token_by_hash (hashToken sha256hex secret) (refreshTokens (fst after))
     = Some (set_rt_rotated now (generateId "rt" (next_rtUuid rnd)) r)
  /\ In (successor_row sha256hex now rnd device r)
        (refreshTokens (fst after)).
Proof.
  intros Hfind Hrev Hexp Hrot Hlate Hsess Hchecks Hfp Hid Hhash after.
  subst after.
  rewrite (rotate_success db now rnd secret device r session); try assumption;
    [|exact (grace_reissue_late db now rnd r secret rotated Hrot Hlate)].
  cbn [fst snd refreshTokens sessions with_sessions with_refreshTokens].
  split; [eexists; reflexivity|].
  split.
  { rewrite map_update_where by reflexivity. rewrite map_app. reflexivity. }
  split; [apply map_update_where; reflexivity|].
  split; [apply map_update_where; reflexivity|].
  split.
  { unfold token_by_hash, update_where.
    rewrite find_map_same.
    - unfold token_by_hash in Hfind.
      rewrite (find_app_found _ _ _ _ Hfind). simpl.
      rewrite String.eqb_refl. reflexivity.
    - intros x. destruct (String.eqb (rt_id x) (rt_id r)); reflexivity. }
  apply in_update_where. exists (successor_row sha256hex now rnd device r).
  split; [apply in_or_app; right; left; reflexivity|].
  destruct (String.eqb_spec
              (rt_id (successor_row sha256hex now rnd device r)) (rt_id r))
    as [Heq|Hne]; [|reflexivity].
  exfalso. unfold token_by_id in Hid.
  assert (Hin : In r (refreshTokens db))
    by (apply find_some in Hfind; tauto).
  eapply find_none in Hid; [|exact Hin].
  simpl in Heq. rewrite <- Heq, String.eqb_refl in Hid. discriminate.
Qed.

(** *** C3 *)

(** C3, as the code behaves. When every earlier check passes and the
    fingerprints differ, the call answers [DeviceMismatch] and revokes
    every refresh token of the family, but it writes nothing to the
    sessions table: the family's session stays as it was. *)
Theorem device_mismatch_spares_session
  db now rnd secret device r session :
  token_by_hash (hashToken sha256hex secret) (refreshTokens db) = Some r ->
  rt_revoked r = false ->
  now <= rt_expiresAt r ->
  grace_reissue db now rnd r secret = None ->
  session_by_family (rt_tokenFamily r) (sessions db) = Some session ->
  session_checks_pass now session ->
  rt_deviceFingerprint r <> fingerprint device ->
  let after := rotateRefreshToken sha256hex db now rnd secret device in
  snd after = Error DeviceMismatch
  /\ (forall x, In x (refreshTokens (fst after)) ->
                rt_tokenFamily x = rt_tokenFamily r -> rt_revoked x = true)
  /\ sessions (fst after) = sessions db
  /\ session_by_family (rt_tokenFamily r) (sessions (fst after))
     = Some session.
Proof.
  intros Hfind Hrev Hexp Hgrace Hsess Hchecks Hfp after. subst after.
  rewrite (rotate_mismatch db now rnd secret device r session) by assumption.
  cbn [fst snd refreshTokens sessions with_refreshTokens].
  split; [reflexivity|].
  split; [intros x; apply family_revoked_after_update|].
  split; [reflexivity|exact Hsess].
Qed.

(** *** C9 *)

(** C9, as the code behaves. Whatever branch of [rotateRefreshToken]
    hands out a token pair, its access token carries the token id drawn
    for it, the issued-at claim and an expiry fifteen minutes later, but
    no session id: the payload signed on rotation has no [sessionId]
    field, which only [generateTokenPair] sets. *)
Theorem rotation_access_token_has_no_session_id
  db now rnd secret device db' issued :
  rotateRefreshToken sha256hex db now rnd secret device
    = (db', Tokens issued) ->
  sessionId (accessToken issued) = None
  /\ jti (accessToken issued) = next_jti rnd
  /\ iat (accessToken issued) = now / 1000
  /\ exp (accessToken issued) = iat (accessToken issued) + 15 * 60.
Proof.
  unfold rotateRefreshToken.
  destruct (token_by_hash _ _) as [r|]; [|discriminate].
  destruct (rt_revoked r); [discriminate|].
  destruct (now >? rt_expiresAt r); [discriminate|].
  destruct (grace_reissue db now rnd r secret) as [reissued|] eqn:Hgrace.
  - intros H. injection H as _ <-.
    destruct (grace_reissue_claims _ _ _ _ _ _ Hgrace)
      as (_ & Hsid & Hjti & Hiat & Hexp).
    rewrite Hiat. auto.
  - destruct (session_by_family _ _) as [session|]; [|discriminate].
    destruct (_ <? _); [discriminate|].
    destruct (_ >? _); [discriminate|].
    destruct (_ >? _); [discriminate|].
    destruct (negb _); [discriminate|].
    destruct (insert_refreshToken _ _); [|discriminate].
    intros H. injection H as _ <-. simpl. auto.
Qed.

(** *** C10 *)

(** C10. When the presented record passes the revocation and expiry
    checks, was rotated less than ten seconds ago, and its successor is
    in the store and not revoked, the call hands back the presented
    secret and leaves the whole store as it was: no row is inserted, the
    presented record, its successor and the session (with its
    [refreshCount] and [lastActivity]) are untouched. *)
Theorem grace_branch_writes_nothing
  db now rnd secret device r rotated successorId successor :
  token_by_hash (hashToken sha256hex secret) (refreshTokens db) = Some r ->
  rt_revoked r = false ->
  now <= rt_expiresAt r ->
  rotatedAt r = Some rotated ->
  newTokenId r = Some successorId ->
  successorId <> "" ->
  now - rotated < GRACE_PERIOD ->
  token_by_id successorId (refreshTokens db) = Some successor ->
  rt_revoked successor = false ->
  let after := rotateRefreshToken sha256hex db now rnd secret device in
  fst after = db
  /\ refreshTokens (fst after) = refreshTokens db
  /\ sessions (fst after) = sessions db
  /\ exists access,
       snd after = Tokens {| accessToken := access;
                             refreshToken := secret;
                             expiresIn := 15 * 60 |}.
Proof.
  intros Hfind Hrev Hexp Hrot Hnew Hne Hlt Hsucc Hsrev after. subst after.
  rewrite (rotate_grace db now rnd secret device r _ Hfind Hrev Hexp
             (grace_reissue_taken db now rnd r secret rotated successorId
                successor Hrot Hnew Hne Hlt Hsucc Hsrev)).
  simpl. repeat split; eexists; reflexivity.
Qed.

(** *** C6 *)

Lemma NoDup_map_injective {A B : Type} (f : A -> B) (l : list A) (x y : A) :
  NoDup (map f l) -> In x l -> In y l -> f x = f y -> x = y.
Proof.
  induction l as [|a l IH]; simpl; [tauto|].
  intros Hnd Hx Hy Hf. inversion Hnd as [|? ? Hnotin Hnd']; subst.
  destruct Hx as [->|Hx], Hy as [->|Hy]; auto.
  - exfalso. apply Hnotin. rewrite Hf. apply in_map. exact Hy.
  - exfalso. apply Hnotin. rewrite <- Hf. apply in_map. exact Hx.
Qed.

Lemma all_revoked_unique hash rows r :
  NoDup (map tokenHash rows) ->
  token_by_hash hash rows = Some r ->
  rt_revoked r = true ->
  all_revoked hash rows.
Proof.
  intros Hnd Hfind Hrev x Hx Hhash.
  apply find_some in Hfind. destruct Hfind as [Hr Heq].
  apply String.eqb_eq in Heq.
  rewrite (NoDup_map_injective tokenHash rows x r Hnd Hx Hr); congruence.
Qed.

Lemma all_revoked_update hash sel set rows :
  (forall x, tokenHash (set x) = tokenHash x) ->
  (forall x, rt_revoked x = true -> rt_revoked (set x) = true) ->
  all_revoked hash rows ->
  all_revoked hash (update_where sel set rows).
Proof.
  intros Hh Hr Hall y Hy Hhash. apply in_update_where in Hy.
  destruct Hy as [x [Hx ->]].
  destruct (sel x).
  - apply Hr. apply (Hall x Hx). rewrite <- Hh. exact Hhash.
  - apply (Hall x Hx Hhash).
Qed.

Lemma all_revoked_revoke hash sel now rows :
  all_revoked hash rows ->
  all_revoked hash (update_where sel (set_rt_revoked now) rows).
Proof. apply all_revoked_update; reflexivity. Qed.

Lemma all_revoked_rotate hash sel now id rows :
  all_revoked hash rows ->
  all_revoked hash (update_where sel (set_rt_rotated now id) rows).
Proof. apply all_revoked_update; [reflexivity|trivial]. Qed.

Lemma all_revoked_insert hash row rows rows' :
  tokenHash row <> hash ->
  insert_refreshToken row rows = Some rows' ->
  all_revoked hash rows ->
  all_revoked hash rows'.
Proof.
  intros Hne Hins Hall x Hx Hhash.
  apply insert_refreshToken_inv in Hins. destruct Hins as [-> _].
  apply in_app_or in Hx. destruct Hx as [Hx|[<-|[]]].
  - exact (Hall x Hx Hhash).
  - contradiction.
Qed.

Lemma all_revoked_filter hash keep rows :
  all_revoked hash rows -> all_revoked hash (filter keep rows).
Proof.
  intros Hall x Hx. apply filter_In in Hx. apply Hall. tauto.
Qed.

Create HintDb store.

#[local] Hint Resolve all_revoked_revoke all_revoked_rotate
  all_revoked_filter : store.

Lemma step_keeps_revoked hash db op :
  draws_other_than sha256hex hash op ->
  all_revoked hash (refreshTokens db) ->
  all_revoked hash (refreshTokens (step sha256hex db op)).
Proof.
  intros Hfresh Hall.
  destruct op as [now rnd u su device family|now rnd secret device
                 |now u su|now u su maxDevices|expired]; simpl in *.
  - unfold generateTokenPair.
    destruct (insert_refreshToken _ _) as [rows|] eqn:Hins; [|exact Hall].
    assert (Hrows : all_revoked hash rows)
      by (eapply all_revoked_insert; [|exact Hins|exact Hall]; exact Hfresh).
    destruct (upsert_session _ _ _); exact Hrows.
  - unfold rotateRefreshToken.
    destruct (token_by_hash _ _) as [r|]; [|exact Hall].
    destruct (rt_revoked r); [simpl; auto with store|].
    destruct (now >? rt_expiresAt r); [exact Hall|].
    destruct (grace_reissue _ _ _ _ _); [exact Hall|].
    destruct (session_by_family _ _) as [session|]; [|exact Hall].
    destruct (_ <? _); [exact Hall|].
    destruct (_ >? _); [exact Hall|].
    destruct (_ >? _); [exact Hall|].
    destruct (negb _); [simpl; auto with store|].
    destruct (insert_refreshToken _ _) as [rows|] eqn:Hins; [|exact Hall].
    simpl. apply all_revoked_rotate.
    eapply all_revoked_insert; [|exact Hins|exact Hall]. exact Hfresh.
  - unfold revokeAllTokens.
    destruct u as [u|], su as [su|];
      repeat (destruct (truthy _)); simpl; auto with store.
  - unfold enforceDeviceLimit.
    destruct (js_or u su); [|exact Hall].
    destruct (negb _); [exact Hall|].
    destruct (_ >=? _); [|exact Hall].
    destruct (orderBy_createdAt _); [exact Hall|].
    simpl. auto with store.
  - unfold cleanupExpiredTokens. simpl. auto with store.
Qed.

Lemma run_keeps_revoked hash ops db :
  Forall (draws_other_than sha256hex hash) ops ->
  all_revoked hash (refreshTokens db) ->
  all_revoked hash (refreshTokens (run sha256hex db ops)).
Proof.
  intros Hops. revert db. unfold run.
  induction Hops as [|op ops Hop _ IH]; intros db Hall; simpl; [exact Hall|].
  apply IH. apply step_keeps_revoked; assumption.
Qed.

Lemma rotate_all_revoked db now rnd secret device :
  all_revoked (hashToken sha256hex secret) (refreshTokens db) ->
  snd (rotateRefreshToken sha256hex db now rnd secret device)
    = Error TokenRevoked
  \/ snd (rotateRefreshToken sha256hex db now rnd secret device)
    = Error InvalidToken.
Proof.
  intros Hall. unfold rotateRefreshToken.
  destruct (token_by_hash _ _) as [r|] eqn:Hfind; [|right; reflexivity].
  apply find_some in Hfind. destruct Hfind as [Hin Heq].
  apply String.eqb_eq in Heq. rewrite (Hall r Hin Heq). left. reflexivity.
Qed.

(** C6. Presenting a secret whose record is revoked answers
    [TokenRevoked] and marks the family: every refresh token of the
    family stays stored, under its id and digest, and is revoked; every
    session of the family stays stored and is revoked and inactive; the
    rows of other families are as they were and no row is added or
    deleted.  And it stays so:
    after any sequence of issues, rotations, revocations, device-limit
    evictions and expiry sweeps that draw other secrets, presenting the
    secret yields no token pair; the answer is [TokenRevoked], or
    [InvalidToken] once a sweep has deleted the record. *)
Theorem revoked_secret_never_rotates
  db now rnd secret device r :
  NoDup (map tokenHash (refreshTokens db)) ->
  token_by_hash (hashToken sha256hex secret) (refreshTokens db) = Some r ->
  rt_revoked r = true ->
  let after := rotateRefreshToken sha256hex db now rnd secret device in
  snd after = Error TokenRevoked
  /\ (forall x, In x (refreshTokens db) ->
                rt_tokenFamily x = rt_tokenFamily r ->
                exists x', In x' (refreshTokens (fst after))
                           /\ rt_id x' = rt_id x
                           /\ tokenHash x' = tokenHash x
                           /\ rt_revoked x' = true)
  /\ (forall s, In s (sessions db) ->
                s_tokenFamily s = rt_tokenFamily r ->
                exists s', In s' (sessions (fst after))
                           /\ s_id s' = s_id s
                           /\ s_revoked s' = true /\ isActive s' = false)
  /\ (forall x, In x (refreshTokens db) ->
                rt_tokenFamily x <> rt_tokenFamily r ->
                In x (refreshTokens (fst after)))
  /\ (forall s, In s (sessions db) ->
                s_tokenFamily s <> rt_tokenFamily r ->
                In s (sessions (fst after)))
  /\ List.length (refreshTokens (fst after))
     = List.length (refreshTokens db)
  /\ List.length (sessions (fst after)) = List.length (sessions db)
  /\ (forall x, In x (refreshTokens (fst after)) ->
                rt_tokenFamily x = rt_tokenFamily r -> rt_revoked x = true)
  /\ (forall s, In s (sessions (fst after)) ->
                s_tokenFamily s = rt_tokenFamily r ->
                s_revoked s = true /\ isActive s = false)
  /\ (forall ops now' rnd' device',
        Forall (draws_other_than sha256hex (hashToken sha256hex secret)) ops ->
        let later :=
          rotateRefreshToken sha256hex (run sha256hex db ops)
            now' rnd' secret device' in
        (forall issued, snd later <> Tokens issued)
        /\ (snd later = Error TokenRevoked \/ snd later = Error InvalidToken)).
Proof.
  intros Hnd Hfind Hrev after. subst after.
  rewrite (rotate_revoked db now rnd secret device r Hfind Hrev).
  cbn [fst snd refreshTokens sessions with_sessions with_refreshTokens].
  split; [reflexivity|].
  split; [intros x; apply family_revoked_by_update|].
  split; [intros s; apply sessions_revoked_by_update|].
  split; [intros x; apply family_spared_by_update|].
  split; [intros s; apply sessions_spared_by_update|].
  split; [apply update_where_length|].
  split; [apply update_where_length|].
  split; [intros x; apply family_revoked_after_update|].
  split; [intros s; apply sessions_revoked_after_update|].
  intros ops now' rnd' device' Hops.
  assert (Hall : all_revoked (hashToken sha256hex secret)
                   (refreshTokens (run sha256hex db ops))).
  { apply run_keeps_revoked; [exact Hops|].
    exact (all_revoked_unique _ _ r Hnd Hfind Hrev). }
  destruct (rotate_all_revoked _ now' rnd' secret device' Hall) as [H|H];
    rewrite H; (split; [discriminate|auto]).
Qed.

(** *** C7 *)

(** C7. Unless the SMS call resolves before the ten-second timer, [sendOTP]
    reports failure and writes nothing: the OTP table, and the whole
    store, are as before the call. *)
Theorem otp_stored_only_after_delivery
  db now randomBytes uuid sms phone countryCode :
  (forall after, sms = Resolves after -> SMS_TIMEOUT <= after) ->
  let outcome :=
    sendOTP sha256hex db now randomBytes uuid sms phone countryCode in
  success (snd outcome) = false
  /\ otps (fst outcome) = otps db
  /\ fst outcome = db.
Proof.
  intros Hsms outcome. subst outcome.
  assert (Hsent : sms_sent sms = false).
  { destruct sms as [after| |]; simpl; try reflexivity.
    apply ltb_false. apply Hsms. reflexivity. }
  unfold sendOTP.
  destruct (normalizePhoneNumber phone countryCode); [|simpl; auto].
  destruct (find _ (otps db)); [simpl; auto|].
  rewrite Hsent. simpl. auto.
Qed.

Lemma sendOTP_stores_after_delivery
  db now randomBytes uuid after phone countryCode normalizedPhone :
  normalizePhoneNumber phone countryCode = Some normalizedPhone ->
  find (fun o => String.eqb (phoneNumber o) normalizedPhone
                 && sql_gt (otp_createdAt o) (now - 60000)
                 && Bool.eqb (used o) false) (otps db) = None ->
  after < SMS_TIMEOUT ->
  existsb (fun o => String.eqb (otp_id o) (generateId "otp" uuid)) (otps db)
    = false ->
  let outcome :=
    sendOTP sha256hex db now randomBytes uuid (Resolves after)
      phone countryCode in
  success (snd outcome) = true
  /\ exists row,
       otps (fst outcome) = (otps db ++ [row])%list
       /\ otpHash row = hashOTP sha256hex (generateOTP 6 randomBytes)
       /\ phoneNumber row = normalizedPhone.
Proof.
  intros Hnorm Hcool Hafter Hfresh outcome. subst outcome.
  unfold sendOTP. rewrite Hnorm, Hcool. simpl sms_sent.
  apply Z.ltb_lt in Hafter. rewrite Hafter, Hfresh. simpl.
  split; [reflexivity|]. eexists. split; [reflexivity|]. simpl. auto.
Qed.

(** *** C4 *)

Lemma verifyOTP_wrong_code db now phone otp fp countryCode normalizedPhone :
  normalizePhoneNumber phone countryCode = Some normalizedPhone ->
  find (otp_matches normalizedPhone (hashOTP sha256hex otp)) (otps db)
    = None ->
  verifyOTP sha256hex db now false phone otp fp countryCode
    = (db, refused InvalidOrUsed).
Proof.
  intros Hnorm Hfind. unfold verifyOTP. rewrite Hnorm, Hfind. reflexivity.
Qed.

Lemma attempts_wrong_codes db phone fp countryCode normalizedPhone tries :
  normalizePhoneNumber phone countryCode = Some normalizedPhone ->
  Forall (fun try =>
            find (otp_matches normalizedPhone (hashOTP sha256hex (snd try)))
                 (otps db) = None) tries ->
  attempts sha256hex db phone fp countryCode tries = db.
Proof.
  intros Hnorm Hwrong. unfold attempts.
  induction Hwrong as [|try tries Htry _ IH]; simpl; [reflexivity|].
  rewrite (verifyOTP_wrong_code db (fst try) phone (snd try) fp countryCode
             normalizedPhone Hnorm Htry).
  exact IH.
Qed.

(** C4, as the code behaves. A verification with a wrong code answers
    [InvalidOrUsed] from inside the transaction and never reaches the
    [catch] block that increments [attemptCount]: after any number of
    wrong codes the store is unchanged, the record's [attemptCount] is
    what it was, and the right code presented next is accepted. *)
Theorem wrong_codes_leave_attempt_count
  db now phone code fp countryCode normalizedPhone record tries :
  normalizePhoneNumber phone countryCode = Some normalizedPhone ->
  find (otp_matches normalizedPhone (hashOTP sha256hex code)) (otps db)
    = Some record ->
  now <= otp_expiresAt record ->
  attemptCount record < 5 ->
  Forall (fun try =>
            find (otp_matches normalizedPhone (hashOTP sha256hex (snd try)))
                 (otps db) = None) tries ->
  let db' := attempts sha256hex db phone fp countryCode tries in
  Forall (fun try =>
            snd (verifyOTP sha256hex db (fst try) false phone (snd try)
                   fp countryCode) = refused InvalidOrUsed) tries
  /\ otps db' = otps db
  /\ find (otp_matches normalizedPhone (hashOTP sha256hex code)) (otps db')
     = Some record
  /\ snd (verifyOTP sha256hex db' now false phone code fp countryCode)
     = {| verified := true; verdict := OtpVerified;
          verifiedPhone := Some normalizedPhone |}.
Proof.
  intros Hnorm Hfind Hexp Hcount Hwrong db'. subst db'.
  rewrite (attempts_wrong_codes db phone fp countryCode normalizedPhone
             tries Hnorm Hwrong).
  split.
  { eapply Forall_impl; [|exact Hwrong]. intros try Htry. simpl in Htry.
    rewrite (verifyOTP_wrong_code db (fst try) phone (snd try) fp
               countryCode normalizedPhone Hnorm Htry).
    reflexivity. }
  split; [reflexivity|]. split; [exact Hfind|].
  unfold verifyOTP. rewrite Hnorm, Hfind, (gtb_false _ _ Hexp).
  assert (Hlt : (attemptCount record >=? 5) = false)
    by (rewrite Z.geb_leb; apply Z.leb_gt; exact Hcount).
  rewrite Hlt. reflexivity.
Qed.

(** *** C2 *)

Lemma benign_revoke (sel : RefreshToken -> bool) now :
  benign (fun r => if sel r then set_rt_revoked now r else r).
Proof.
  intros x. destruct (sel x); simpl; repeat split; auto.
  unfold active. simpl. discriminate.
Qed.

Lemma benign_compose g h : benign g -> benign h -> benign (fun x => h (g x)).
Proof.
  intros Hg Hh x.
  destruct (Hg x) as (g1 & g2 & g3 & g4 & g5).
  destruct (Hh (g x)) as (h1 & h2 & h3 & h4 & h5).
  repeat split; try congruence. auto.
Qed.

Lemma active_count_map g family rows :
  (forall x, rt_tokenFamily (g x) = rt_tokenFamily x) ->
  (forall x, active (g x) = true -> active x = true) ->
  (List.length
     (filter (fun r => in_family family r && active r) (map g rows))
   <= List.length
        (filter (fun r => in_family family r && active r) rows))%nat.
Proof.
  intros Hfam Hact. induction rows as [|a rows IH]; simpl; [lia|].
  assert (Hf : in_family family (g a) = in_family family a)
    by (unfold in_family; rewrite Hfam; reflexivity).
  rewrite Hf. destruct (in_family family a); simpl; [|exact IH].
  destruct (active (g a)) eqn:E.
  - rewrite (Hact a E). simpl. lia.
  - destruct (active a); simpl; lia.
Qed.

Lemma active_count_filter keep family rows :
  (List.length
     (filter (fun r => in_family family r && active r) (filter keep rows))
   <= List.length
        (filter (fun r => in_family family r && active r) rows))%nat.
Proof.
  induction rows as [|a rows IH]; simpl; [lia|].
  destruct (keep a); simpl;
    destruct (in_family family a && active a); simpl; lia.
Qed.

Lemma sole_active {A : Type} (p : A -> bool) (rows : list A) (a x : A) :
  (List.length (filter p rows) <= 1)%nat ->
  In a rows -> p a = true -> In x rows -> p x = true -> x = a.
Proof.
  intros Hlen Ha Hpa Hx Hpx.
  assert (Ha' : In a (filter p rows)) by (apply filter_In; auto).
  assert (Hx' : In x (filter p rows)) by (apply filter_In; auto).
  destruct (filter p rows) as [|y [|z rest]]; simpl in *; try lia; try tauto.
  destruct Ha' as [<-|[]], Hx' as [<-|[]]. reflexivity.
Qed.

Lemma links_forward_map g rows :
  (forall x, rt_id (g x) = rt_id x) ->
  (forall x, newTokenId (g x) = newTokenId x) ->
  links_forward rows -> links_forward (map g rows).
Proof.
  intros Hid Hlink. induction rows as [|a rows IH]; simpl; [trivial|].
  intros (Hself & Hrest & Hfwd). rewrite Hid, Hlink.
  split; [exact Hself|]. split; [|exact (IH Hfwd)].
  intros y Hy. apply in_map_iff in Hy. destruct Hy as (x & <- & Hx).
  rewrite Hlink. exact (Hrest x Hx).
Qed.

Lemma links_forward_filter keep rows :
  links_forward rows -> links_forward (filter keep rows).
Proof.
  induction rows as [|a rows IH]; simpl; [trivial|].
  intros (Hself & Hrest & Hfwd).
  destruct (keep a); simpl; [|exact (IH Hfwd)].
  split; [exact Hself|]. split; [|exact (IH Hfwd)].
  intros x Hx. apply filter_In in Hx. apply Hrest. tauto.
Qed.

Lemma links_forward_append rows row :
  newTokenId row = None ->
  links_forward rows -> links_forward (rows ++ [row]).
Proof.
  intros Hnone. induction rows as [|a rows IH]; simpl.
  - intros _. rewrite Hnone. repeat split; [discriminate|tauto].
  - intros (Hself & Hrest & Hfwd).
    split; [exact Hself|]. split; [|exact (IH Hfwd)].
    intros x Hx. apply in_app_or in Hx. destruct Hx as [Hx|[<-|[]]].
    + exact (Hrest x Hx).
    + rewrite Hnone. discriminate.
Qed.

Lemma links_forward_relink (sel : RefreshToken -> bool) now fresh rows :
  (forall x, In x rows -> rt_id x <> fresh) ->
  links_forward rows ->
  links_forward (update_where sel (set_rt_rotated now fresh) rows).
Proof.
  unfold update_where. induction rows as [|a rows IH]; simpl; [trivial|].
  intros Hfresh (Hself & Hrest & Hfwd).
  assert (Ha : rt_id a <> fresh) by (apply Hfresh; left; reflexivity).
  assert (Hid : rt_id (if sel a then set_rt_rotated now fresh a else a)
                = rt_id a) by (destruct (sel a); reflexivity).
  rewrite Hid.
  split.
  { destruct (sel a); simpl; [congruence|exact Hself]. }
  split; [|apply IH; auto].
  intros y Hy. apply in_map_iff in Hy. destruct Hy as (x & <- & Hx).
  destruct (sel x); simpl; [congruence|exact (Hrest x Hx)].
Qed.

Lemma unique_ids_append rows row :
  unique_ids rows ->
  (forall x, In x rows -> rt_id x <> rt_id row) ->
  unique_ids (rows ++ [row]).
Proof.
  unfold unique_ids. intros Hnd Hfresh. rewrite map_app. simpl.
  apply NoDup_app; [exact Hnd|repeat constructor; simpl; tauto|].
  intros id Hid [<-|[]]. apply in_map_iff in Hid.
  destruct Hid as (x & Heq & Hx). exact (Hfresh x Hx Heq).
Qed.

Lemma unique_ids_filter keep rows :
  unique_ids rows -> unique_ids (filter keep rows).
Proof.
  unfold unique_ids. induction rows as [|a rows IH]; simpl; [trivial|].
  intros Hnd. inversion Hnd as [|? ? Hnotin Hnd']; subst.
  destruct (keep a); simpl; [|exact (IH Hnd')].
  constructor; [|exact (IH Hnd')].
  intros Hin. apply Hnotin. apply in_map_iff in Hin.
  destruct Hin as (x & Heq & Hx). apply filter_In in Hx.
  rewrite <- Heq. apply in_map. tauto.
Qed.

Lemma links_kept_map g rows :
  unique_ids rows ->
  (forall x, rt_id (g x) = rt_id x) ->
  (forall x successor, In x rows -> newTokenId x = Some successor ->
                       newTokenId (g x) = Some successor) ->
  links_kept rows (map g rows).
Proof.
  intros Hnd Hid Hlink r successor r' Hr Hs Hr' Hsame.
  apply in_map_iff in Hr'. destruct Hr' as (x & <- & Hx).
  rewrite Hid in Hsame.
  rewrite (NoDup_map_injective rt_id rows x r Hnd Hx Hr Hsame).
  exact (Hlink r successor Hr Hs).
Qed.

Lemma links_kept_append before after row :
  (forall x, In x before -> rt_id x <> rt_id row) ->
  links_kept before after -> links_kept before (after ++ [row]).
Proof.
  intros Hfresh Hkept r successor r' Hr Hs Hr' Hsame.
  apply in_app_or in Hr'. destruct Hr' as [Hr'|[<-|[]]].
  - exact (Hkept r successor r' Hr Hs Hr' Hsame).
  - exfalso. apply (Hfresh r Hr). congruence.
Qed.

Lemma links_kept_filter keep rows :
  unique_ids rows -> links_kept rows (filter keep rows).
Proof.
  intros Hnd r successor r' Hr Hs Hr' Hsame.
  apply filter_In in Hr'. destruct Hr' as [Hr' _].
  rewrite (NoDup_map_injective rt_id rows r' r Hnd Hr' Hr Hsame).
  exact Hs.
Qed.

Lemma links_kept_same rows : unique_ids rows -> links_kept rows rows.
Proof.
  intros Hnd r successor r' Hr Hs Hr' Hsame.
  rewrite (NoDup_map_injective rt_id rows r' r Hnd Hr' Hr Hsame).
  exact Hs.
Qed.

Lemma filter_none {A : Type} (p : A -> bool) (l : list A) :
  (forall x, In x l -> p x = false) -> filter p l = [].
Proof.
  induction l as [|a l IH]; simpl; [reflexivity|].
  intros H. rewrite (H a) by (left; reflexivity). apply IH.
  intros x Hx. apply H. right. exact Hx.
Qed.

Lemma active_unrotated r : active r = true -> rotatedAt r = None.
Proof.
  unfold active. destruct (rotatedAt r); [|reflexivity].
  rewrite andb_false_r. discriminate.
Qed.

Lemma invariant_benign g rows :
  benign g -> store_invariant rows ->
  store_invariant (map g rows) /\ links_kept rows (map g rows).
Proof.
  intros Hg [Hids Hact Hfwd Hlinked].
  assert (Hid : forall x, rt_id (g x) = rt_id x) by (intros x; apply Hg).
  split; [split|].
  - unfold unique_ids. rewrite map_map.
    rewrite (map_ext _ rt_id Hid). exact Hids.
  - intros family. eapply Nat.le_trans; [|exact (Hact family)].
    apply active_count_map; intros x; apply Hg.
  - apply links_forward_map; [exact Hid|intros x; apply Hg|exact Hfwd].
  - intros y Hy Hrot. apply in_map_iff in Hy. destruct Hy as (x & <- & Hx).
    destruct (Hg x) as (_ & _ & Hl & Hr & _). rewrite Hl. rewrite Hr in Hrot.
    exact (Hlinked x Hx Hrot).
  - apply links_kept_map; [exact Hids|exact Hid|].
    intros x successor _ Hs. destruct (Hg x) as (_ & _ & Hl & _).
    rewrite Hl. exact Hs.
Qed.

Lemma invariant_revoke (sel : RefreshToken -> bool) now rows :
  store_invariant rows ->
  store_invariant (update_where sel (set_rt_revoked now) rows)
  /\ links_kept rows (update_where sel (set_rt_revoked now) rows).
Proof. apply invariant_benign. apply benign_revoke. Qed.

Lemma invariant_filter keep rows :
  store_invariant rows ->
  store_invariant (filter keep rows) /\ links_kept rows (filter keep rows).
Proof.
  intros [Hids Hact Hfwd Hlinked]. split; [split|].
  - apply unique_ids_filter. exact Hids.
  - intros family. eapply Nat.le_trans; [|exact (Hact family)].
    apply active_count_filter.
  - apply links_forward_filter. exact Hfwd.
  - intros r Hr. apply filter_In in Hr. apply Hlinked. tauto.
  - apply links_kept_filter. exact Hids.
Qed.

Lemma invariant_insert row rows rows' :
  store_invariant rows ->
  insert_refreshToken row rows = Some rows' ->
  rotatedAt row = None -> newTokenId row = None ->
  (forall r, In r rows -> rt_tokenFamily r = rt_tokenFamily row ->
             active r = false) ->
  store_invariant rows' /\ links_kept rows rows'.
Proof.
  intros [Hids Hact Hfwd Hlinked] Hins Hrot Hnew Hfam.
  apply insert_refreshToken_inv in Hins. destruct Hins as [-> Hfresh].
  assert (Hfresh' : forall x, In x rows -> rt_id x <> rt_id row)
    by (intros x Hx; apply (Hfresh x Hx)).
  split; [split|].
  - apply unique_ids_append; assumption.
  - intros family. rewrite filter_app, length_app.
    destruct (in_family family row) eqn:E.
    + rewrite (filter_none _ rows).
      * simpl. destruct (_ && _); simpl; lia.
      * intros x Hx. destruct (in_family family x) eqn:Ex; [|reflexivity].
        simpl. apply Hfam; [exact Hx|].
        unfold in_family in *. apply String.eqb_eq in E, Ex. congruence.
    + simpl. rewrite E. simpl. specialize (Hact family). lia.
  - apply links_forward_append; assumption.
  - intros r Hr Hr0. apply in_app_or in Hr. destruct Hr as [Hr|[<-|[]]].
    + exact (Hlinked r Hr Hr0).
    + exact Hnew.
  - apply links_kept_append; [exact Hfresh'|].
    apply links_kept_same. exact Hids.
Qed.

Lemma invariant_rotate rows r row rows' now :
  store_invariant rows ->
  In r rows -> active r = true ->
  rt_tokenFamily row = rt_tokenFamily r ->
  rotatedAt row = None -> newTokenId row = None ->
  insert_refreshToken row rows = Some rows' ->
  store_invariant
    (update_where (fun x => String.eqb (rt_id x) (rt_id r))
       (set_rt_rotated now (rt_id row)) rows')
  /\ links_kept rows
       (update_where (fun x => String.eqb (rt_id x) (rt_id r))
          (set_rt_rotated now (rt_id row)) rows').
Proof.
  intros [Hids Hact Hfwd Hlinked] Hr Hactive Hfam Hrot Hnew Hins.
  apply insert_refreshToken_inv in Hins. destruct Hins as [-> Hfresh].
  assert (Hfresh' : forall x, In x rows -> rt_id x <> rt_id row)
    by (intros x Hx; apply (Hfresh x Hx)).
  set (sel := fun x => String.eqb (rt_id x) (rt_id r)).
  set (set := set_rt_rotated now (rt_id row)).
  assert (Hrow : sel row = false).
  { unfold sel. apply String.eqb_neq. intros Heq.
    exact (Hfresh' r Hr (eq_sym Heq)). }
  rewrite update_where_app. simpl. rewrite Hrow.
  assert (Hold : forall y, In y (update_where sel set rows) ->
                 exists x, In x rows /\ y = (if sel x then set x else x))
    by (intros y; apply in_update_where).
  assert (Hfreshu : forall y, In y (update_where sel set rows) ->
                              rt_id y <> rt_id row).
  { intros y Hy. destruct (Hold y Hy) as (x & Hx & ->).
    destruct (sel x); simpl; exact (Hfresh' x Hx). }
  split; [split|].
  - apply unique_ids_append; [|exact Hfreshu].
    unfold unique_ids. rewrite map_update_where by reflexivity. exact Hids.
  - intros family. rewrite filter_app, length_app.
    destruct (in_family family row) eqn:E.
    + rewrite (filter_none _ (update_where sel set rows)).
      * simpl. destruct (_ && _); simpl; lia.
      * intros y Hy. destruct (Hold y Hy) as (x & Hx & ->).
        destruct (sel x) eqn:Ex.
        { unfold active, set. simpl. rewrite !andb_false_r. reflexivity. }
        destruct (in_family family x && active x) eqn:Ep; [|reflexivity].
        exfalso.
        assert (Hpr : in_family family r && active r = true).
        { rewrite Hactive, andb_true_r. unfold in_family in *.
          rewrite <- Hfam. exact E. }
        rewrite (sole_active _ rows r x (Hact family) Hr Hpr Hx Ep) in Ex.
        unfold sel in Ex. rewrite String.eqb_refl in Ex. discriminate.
    + simpl. rewrite E. simpl.
      assert (Hle := active_count_map
                       (fun x => if sel x then set x else x) family rows).
      unfold update_where. specialize (Hact family).
      enough ((List.length
                 (filter (fun r0 => in_family family r0 && active r0)
                    (map (fun x => if sel x then set x else x) rows))
               <= List.length
                    (filter (fun r0 => in_family family r0 && active r0)
                       rows))%nat) by lia.
      apply Hle; intros x; destruct (sel x); auto.
      unfold active, set. simpl. rewrite andb_false_r. discriminate.
  - apply links_forward_append; [exact Hnew|].
    apply links_forward_relink; assumption.
  - intros y Hy Hy0. apply in_app_or in Hy. destruct Hy as [Hy|[<-|[]]].
    + destruct (Hold y Hy) as (x & Hx & ->).
      destruct (sel x); [discriminate|exact (Hlinked x Hx Hy0)].
    + exact Hnew.
  - apply links_kept_append; [exact Hfresh'|].
    apply links_kept_map; [exact Hids| |].
    + intros x. destruct (sel x); reflexivity.
    + intros x successor Hx Hs. destruct (sel x) eqn:Ex; [|exact Hs].
      exfalso. unfold sel in Ex. apply String.eqb_eq in Ex.
      rewrite (NoDup_map_injective rt_id rows x r Hids Hx Hr Ex) in Hs.
      rewrite (Hlinked r Hr (active_unrotated r Hactive)) in Hs.
      discriminate.
Qed.

Lemma chain_source rows r r' : chain rows r r' -> In r rows.
Proof. intros H. destruct H as [? ? (H & _)|? ? ? (H & _) _]; exact H. Qed.

Lemma chain_last_link rows r r' :
  chain rows r r' ->
  exists x, In x rows /\ newTokenId x = Some (rt_id r').
Proof.
  induction 1 as [r r' (Hr & _ & Hl)|r r' r'' _ _ IH].
  - exists r. auto.
  - exact IH.
Qed.

Lemma chain_tail h rest r r' :
  (forall x, In x (h :: rest) -> newTokenId x <> Some (rt_id h)) ->
  chain (h :: rest) r r' -> In r rest -> chain rest r r'.
Proof.
  intros Hno Hchain. induction Hchain as [r r' (Hr & Hr' & Hl)
                                         |r r' r'' (Hr & Hr' & Hl) _ IH];
    intros Hin.
  - apply chain_link. destruct Hr' as [<-|Hr'].
    + exfalso. exact (Hno r Hr Hl).
    + repeat split; assumption.
  - assert (Hr'rest : In r' rest).
    { destruct Hr' as [<-|Hr']; [exfalso; exact (Hno r Hr Hl)|exact Hr']. }
    eapply chain_more; [|exact (IH Hr'rest)].
    repeat split; assumption.
Qed.

Lemma links_forward_acyclic rows : links_forward rows -> acyclic rows.
Proof.
  induction rows as [|h rest IH]; simpl.
  - intros _ r Hc. exact (chain_source _ _ _ Hc).
  - intros (Hself & Hrest & Hfwd) r Hc.
    assert (Hno : forall x, In x (h :: rest) ->
                            newTokenId x <> Some (rt_id h)).
    { intros x [<-|Hx]; [exact Hself|exact (Hrest x Hx)]. }
    destruct (chain_source _ _ _ Hc) as [<-|Hin].
    + destruct (chain_last_link _ _ _ Hc) as (x & Hx & Hl).
      exact (Hno x Hx Hl).
    + exact (IH Hfwd r (chain_tail h rest r r Hno Hc Hin)).
Qed.

Lemma invariant_same rows :
  store_invariant rows -> store_invariant rows /\ links_kept rows rows.
Proof.
  intros H. split; [exact H|]. apply links_kept_same. apply H.
Qed.

Lemma invariant_step db op :
  store_invariant (refreshTokens db) ->
  keeps_lineage sha256hex db op ->
  store_invariant (refreshTokens (step sha256hex db op))
  /\ links_kept (refreshTokens db) (refreshTokens (step sha256hex db op)).
Proof.
  intros Hinv Hop.
  destruct op as [now rnd u su device family|now rnd secret device
                 |now u su|now u su maxDevices|expired]; simpl in *.
  - unfold generateTokenPair.
    destruct (insert_refreshToken _ _) as [rows|] eqn:Hins;
      [|apply invariant_same; exact Hinv].
    assert (Hrows : store_invariant rows
                    /\ links_kept (refreshTokens db) rows).
    { eapply invariant_insert; [exact Hinv|exact Hins| | |]; try reflexivity.
      exact Hop. }
    destruct (upsert_session _ _ _); exact Hrows.
  - unfold rotateRefreshToken.
    destruct (token_by_hash _ _) as [r|] eqn:Hfind;
      [|apply invariant_same; exact Hinv].
    destruct (rt_revoked r) eqn:Hrev;
      [simpl; apply invariant_revoke; exact Hinv|].
    destruct (now >? rt_expiresAt r) eqn:Hexp;
      [apply invariant_same; exact Hinv|].
    destruct (grace_reissue _ _ _ _ _) eqn:Hgrace;
      [apply invariant_same; exact Hinv|].
    destruct (session_by_family _ _) as [session|] eqn:Hsession;
      [|apply invariant_same; exact Hinv].
    destruct (_ <? _) eqn:Hsoon; [apply invariant_same; exact Hinv|].
    destruct (now - sessionStarted session >? _) eqn:Hold;
      [apply invariant_same; exact Hinv|].
    destruct (refreshCount session >? _) eqn:Hmany;
      [apply invariant_same; exact Hinv|].
    destruct (negb _) eqn:Hdevice;
      [simpl; apply invariant_revoke; exact Hinv|].
    destruct (insert_refreshToken _ _) as [rows|] eqn:Hins;
      [|apply invariant_same; exact Hinv].
    simpl.
    assert (Hactive : active r = true).
    { unfold active. rewrite Hrev. simpl.
      destruct (rotatedAt r) eqn:Hrot; [|reflexivity].
      exfalso. apply Hop. exists r. eexists. rewrite Hrot.
      split; [exact Hfind|]. split; [discriminate|].
      split; [exact Hgrace|].
      unfold rotateRefreshToken.
      rewrite Hfind, Hrev, Hexp, Hgrace, Hsession, Hsoon, Hold, Hmany,
        Hdevice, Hins.
      reflexivity. }
    apply (invariant_rotate (refreshTokens db) r
             (successor_row sha256hex now rnd device r) rows now);
      try reflexivity; try assumption.
    apply find_some in Hfind. tauto.
  - unfold revokeAllTokens.
    assert (Hone : forall sel : RefreshToken -> bool,
               store_invariant
                 (update_where sel (set_rt_revoked now) (refreshTokens db))
               /\ links_kept (refreshTokens db)
                    (update_where sel (set_rt_revoked now) (refreshTokens db)))
      by (intros sel; apply invariant_revoke; exact Hinv).
    assert (Htwo : forall sel sel' : RefreshToken -> bool,
               store_invariant
                 (update_where sel' (set_rt_revoked now)
                    (update_where sel (set_rt_revoked now) (refreshTokens db)))
               /\ links_kept (refreshTokens db)
                    (update_where sel' (set_rt_revoked now)
                       (update_where sel (set_rt_revoked now)
                          (refreshTokens db)))).
    { intros sel sel'. unfold update_where. rewrite map_map.
      apply (invariant_benign
               (fun x => (fun r => if sel' r then set_rt_revoked now r else r)
                           ((fun r => if sel r then set_rt_revoked now r
                                      else r) x)));
        [|exact Hinv].
      apply (benign_compose
               (fun r => if sel r then set_rt_revoked now r else r)
               (fun r => if sel' r then set_rt_revoked now r else r));
        apply benign_revoke. }
    destruct u as [u|], su as [su|];
      try destruct (truthy (Some u)); try destruct (truthy (Some su));
      simpl; auto using invariant_same.
  - unfold enforceDeviceLimit.
    destruct (js_or u su); [|apply invariant_same; exact Hinv].
    destruct (negb _); [apply invariant_same; exact Hinv|].
    destruct (_ >=? _); [|apply invariant_same; exact Hinv].
    destruct (orderBy_createdAt _); [apply invariant_same; exact Hinv|].
    simpl. apply invariant_revoke. exact Hinv.
  - unfold cleanupExpiredTokens. simpl. apply invariant_filter. exact Hinv.
Qed.

(** C2, as amended. An issue into a family that has no active record,
    every rotation call but the one that goes on to rotate an already-
    rotated record (so every call that ends in an error, in a family
    revocation or in the grace branch, and every rotation of an unrotated
    record), and every revocation, device-limit eviction and expiry sweep
    keep the store well formed: ids stay unique, each family has at most
    one active record, successor links point to records inserted later (so
    they form no cycle), and a link once set is never changed for as long
    as its record is stored. *)
Theorem lineage_invariant_preserved db op :
  store_invariant (refreshTokens db) ->
  keeps_lineage sha256hex db op ->
  let rows' := refreshTokens (step sha256hex db op) in
  store_invariant rows'
  /\ one_active_per_family rows'
  /\ acyclic rows'
  /\ links_kept (refreshTokens db) rows'.
Proof.
  intros Hinv Hop rows'. subst rows'.
  destruct (invariant_step db op Hinv Hop) as [Hinv' Hkept].
  split; [exact Hinv'|]. split; [apply Hinv'|].
  split; [apply links_forward_acyclic; apply Hinv'|exact Hkept].
Qed.

End Properties.

(** ** Runs on sample data *)

Example login_run :
  generateTokenPair toy_digest empty_db t0 login_entropy (Some "u1") None
    phone_device None
  = (db_orphan, Thrown).
Proof. reflexivity. Qed.

Example rotation_run :
  rotateRefreshToken toy_digest db_login (t0 + 61000) second_entropy
    "secretA" phone_device
  = (db_rotated, Tokens second_pair).
Proof. reflexivity. Qed.

Example mismatch_run :
  rotateRefreshToken toy_digest db_login (t0 + 61000) second_entropy
    "secretA" laptop_device
  = ({| refreshTokens := [set_rt_revoked (t0 + 61000) recordA];
        sessions := [sessionA]; otps := []; rateLimits := [] |},
     Error DeviceMismatch).
Proof. reflexivity. Qed.

Example normalize_run :
  normalizePhoneNumber "(555) 123-4567" "1" = Some "+15551234567".
Proof. reflexivity. Qed.

(** C1 on the sample store: the rotated secret A, presented 61 seconds
    after its rotation, is rotated a second time. *)
Lemma rotated_secret_past_grace_run :
  let sha256hex := toy_digest in
  let db := db_rotated in
  let now := t0 + 122000 in
  let rnd := third_entropy in
  let secret := "secretA" in
  let device := phone_device in
  let r := recordA_rotated in
  let rotated := t0 + 61000 in
  let session := sessionA_refreshed in
  ((token_by_hash (hashToken sha256hex secret) (refreshTokens db) = Some r)
   /\ (rt_revoked r = false)
   /\ (now <= rt_expiresAt r)
   /\ (rotatedAt r = Some rotated)
   /\ (GRACE_PERIOD <= now - rotated)
   /\ (session_by_family (rt_tokenFamily r) (sessions db) = Some session)
   /\ (session_checks_pass now session)
   /\ (rt_deviceFingerprint r = fingerprint device)
   /\ (token_by_id (generateId "rt" (next_rtUuid rnd)) (refreshTokens db) = None)
   /\ (token_by_hash (hashToken sha256hex (next_secret rnd)) (refreshTokens db)
        = None))
  /\ (let after := rotateRefreshToken sha256hex db now rnd secret device in
      (exists access,
          snd after = Tokens {| accessToken := access;
                                refreshToken := next_secret rnd;
                                expiresIn := 15 * 60 |})
      /\ map rt_revoked (refreshTokens (fst after))
         = (map rt_revoked (refreshTokens db) ++ [false])%list
      /\ map s_revoked (sessions (fst after)) = map s_revoked (sessions db)
      /\ map isActive (sessions (fst after)) = map isActive (sessions db)
      /\ token_by_hash (hashToken sha256hex secret) (refreshTokens (fst after))
         = Some (set_rt_rotated now (generateId "rt" (next_rtUuid rnd)) r)
      /\ In (successor_row sha256hex now rnd device r)
            (refreshTokens (fst after))).
Proof.
  intros sha256hex db now rnd secret device r rotated session.
  assert (H1 : token_by_hash (hashToken sha256hex secret) (refreshTokens db)
    = Some r)
    by (reflexivity).
  assert (H2 : rt_revoked r = false)
    by (reflexivity).
  assert (H3 : now <= rt_expiresAt r)
    by (vm_compute; discriminate).
  assert (H4 : rotatedAt r = Some rotated)
    by (reflexivity).
  assert (H5 : GRACE_PERIOD <= now - rotated)
    by (vm_compute; discriminate).
  assert (H6 : session_by_family (rt_tokenFamily r) (sessions db) = Some
    session)
    by (reflexivity).
  assert (H7 : session_checks_pass now session)
    by (repeat split; vm_compute; discriminate).
  assert (H8 : rt_deviceFingerprint r = fingerprint device)
    by (reflexivity).
  assert (H9 : token_by_id (generateId "rt" (next_rtUuid rnd))
    (refreshTokens db) = None)
    by (reflexivity).
  assert (H10 : token_by_hash (hashToken sha256hex (next_secret rnd))
    (refreshTokens db)
        = None)
    by (reflexivity).
  split; [exact (conj H1 (conj H2 (conj H3 (conj H4 (conj H5 (conj H6 (conj
    H7 (conj H8 (conj H9 H10)))))))))|].
  exact (rotated_secret_past_grace_rotates_again sha256hex db now rnd secret
    device r rotated session H1 H2 H3 H4 H5 H6 H7 H8 H9 H10).
Defined.

(** C3 on the sample store: secret A presented from another device. *)
Lemma device_mismatch_run :
  let sha256hex := toy_digest in
  let db := db_login in
  let now := t0 + 61000 in
  let rnd := second_entropy in
  let secret := "secretA" in
  let device := laptop_device in
  let r := recordA in
  let session := sessionA in
  ((token_by_hash (hashToken sha256hex secret) (refreshTokens db) = Some r)
   /\ (rt_revoked r = false)
   /\ (now <= rt_expiresAt r)
   /\ (grace_reissue db now rnd r secret = None)
   /\ (session_by_family (rt_tokenFamily r) (sessions db) = Some session)
   /\ (session_checks_pass now session)
   /\ (rt_deviceFingerprint r <> fingerprint device))
  /\ (let after := rotateRefreshToken sha256hex db now rnd secret device in
      snd after = Error DeviceMismatch
      /\ (forall x, In x (refreshTokens (fst after)) ->
                    rt_tokenFamily x = rt_tokenFamily r -> rt_revoked x = true)
      /\ sessions (fst after) = sessions db
      /\ session_by_family (rt_tokenFamily r) (sessions (fst after))
         = Some session).
Proof.
  intros sha256hex db now rnd secret device r session.
  assert (H1 : token_by_hash (hashToken sha256hex secret) (refreshTokens db)
    = Some r)
    by (reflexivity).
  assert (H2 : rt_revoked r = false)
    by (reflexivity).
  assert (H3 : now <= rt_expiresAt r)
    by (vm_compute; discriminate).
  assert (H4 : grace_reissue db now rnd r secret = None)
    by (reflexivity).
  assert (H5 : session_by_family (rt_tokenFamily r) (sessions db) = Some
    session)
    by (reflexivity).
  assert (H6 : session_checks_pass now session)
    by (repeat split; vm_compute; discriminate).
  assert (H7 : rt_deviceFingerprint r <> fingerprint device)
    by (discriminate).
  split; [exact (conj H1 (conj H2 (conj H3 (conj H4 (conj H5 (conj H6
    H7))))))|].
  exact (device_mismatch_spares_session sha256hex db now rnd secret device r
    session H1 H2 H3 H4 H5 H6 H7).
Defined.

(** C9 on the sample store: the access token of the first rotation. *)
Lemma rotation_access_token_run :
  let sha256hex := toy_digest in
  let db := db_login in
  let now := t0 + 61000 in
  let rnd := second_entropy in
  let secret := "secretA" in
  let device := phone_device in
  let db' := db_rotated in
  let issued := second_pair in
  ((rotateRefreshToken sha256hex db now rnd secret device
        = (db', Tokens issued)))
  /\ (sessionId (accessToken issued) = None
      /\ jti (accessToken issued) = next_jti rnd
      /\ iat (accessToken issued) = now / 1000
      /\ exp (accessToken issued) = iat (accessToken issued) + 15 * 60).
Proof.
  intros sha256hex db now rnd secret device db' issued.
  assert (H1 : rotateRefreshToken sha256hex db now rnd secret device
        = (db', Tokens issued))
    by (reflexivity).
  split; [exact H1|].
  exact (rotation_access_token_has_no_session_id sha256hex db now rnd secret
    device db' issued H1).
Defined.

(** C10 on the sample store: the rotated secret A presented five seconds
    after its rotation. *)
Lemma grace_branch_run :
  let sha256hex := toy_digest in
  let db := db_rotated in
  let now := t0 + 66000 in
  let rnd := third_entropy in
  let secret := "secretA" in
  let device := phone_device in
  let r := recordA_rotated in
  let rotated := t0 + 61000 in
  let successorId := "rt_b" in
  let successor := recordB in
  ((token_by_hash (hashToken sha256hex secret) (refreshTokens db) = Some r)
   /\ (rt_revoked r = false)
   /\ (now <= rt_expiresAt r)
   /\ (rotatedAt r = Some rotated)
   /\ (newTokenId r = Some successorId)
   /\ (successorId <> "")
   /\ (now - rotated < GRACE_PERIOD)
   /\ (token_by_id successorId (refreshTokens db) = Some successor)
   /\ (rt_revoked successor = false))
  /\ (let after := rotateRefreshToken sha256hex db now rnd secret device in
      fst after = db
      /\ refreshTokens (fst after) = refreshTokens db
      /\ sessions (fst after) = sessions db
      /\ exists access,
           snd after = Tokens {| accessToken := access;
                                 refreshToken := secret;
                                 expiresIn := 15 * 60 |}).
Proof.
  intros sha256hex db now rnd secret device r rotated successorId successor.
  assert (H1 : token_by_hash (hashToken sha256hex secret) (refreshTokens db)
    = Some r)
    by (reflexivity).
  assert (H2 : rt_revoked r = false)
    by (reflexivity).
  assert (H3 : now <= rt_expiresAt r)
    by (vm_compute; discriminate).
  assert (H4 : rotatedAt r = Some rotated)
    by (reflexivity).
  assert (H5 : newTokenId r = Some successorId)
    by (reflexivity).
  assert (H6 : successorId <> "")
    by (discriminate).
  assert (H7 : now - rotated < GRACE_PERIOD)
    by (reflexivity).
  assert (H8 : token_by_id successorId (refreshTokens db) = Some successor)
    by (reflexivity).
  assert (H9 : rt_revoked successor = false)
    by (reflexivity).
  split; [exact (conj H1 (conj H2 (conj H3 (conj H4 (conj H5 (conj H6 (conj
    H7 (conj H8 H9))))))))|].
  exact (grace_branch_writes_nothing sha256hex db now rnd secret device r
    rotated successorId successor H1 H2 H3 H4 H5 H6 H7 H8 H9).
Defined.

(** C7 on a sample call: the SMS call resolves after twelve seconds. *)
Lemma late_delivery_run :
  let sha256hex := toy_digest in
  let db := empty_db in
  let now := t0 in
  let randomBytes := [1; 2; 3; 4; 5; 6]%nat in
  let uuid := "1" in
  let sms := Resolves 12000 in
  let phone := "(555) 123-4567" in
  let countryCode := "1" in
  (((forall after, sms = Resolves after -> SMS_TIMEOUT <= after)))
  /\ (let outcome :=
        sendOTP sha256hex db now randomBytes uuid sms phone countryCode in
      success (snd outcome) = false
      /\ otps (fst outcome) = otps db
      /\ fst outcome = db).
Proof.
  intros sha256hex db now randomBytes uuid sms phone countryCode.
  assert (H1 : (forall after, sms = Resolves after -> SMS_TIMEOUT <= after))
    by (intros after Hsms; injection Hsms as <-; vm_compute; discriminate).
  split; [exact H1|].
  exact (otp_stored_only_after_delivery sha256hex db now randomBytes uuid
    sms phone countryCode H1).
Defined.

(** C4 on the sample store: five wrong codes, then the right one. *)
Lemma sixth_code_run :
  let sha256hex := toy_digest in
  let db := db_otp in
  let now := t0 + 6000 in
  let phone := "(555) 123-4567" in
  let code := "123456" in
  let fp := "fp-phone" in
  let countryCode := "1" in
  let normalizedPhone := "+15551234567" in
  let record := otp_sent in
  let tries := five_wrong_codes in
  ((normalizePhoneNumber phone countryCode = Some normalizedPhone)
   /\ (find (otp_matches normalizedPhone (hashOTP sha256hex code)) (otps db)
        = Some record)
   /\ (now <= otp_expiresAt record)
   /\ (attemptCount record < 5)
   /\ (Forall (fun try =>
                find (otp_matches normalizedPhone (hashOTP sha256hex (snd try)))
                     (otps db) = None) tries))
  /\ (let db' := attempts sha256hex db phone fp countryCode tries in
      Forall (fun try =>
                snd (verifyOTP sha256hex db (fst try) false phone (snd try)
                       fp countryCode) = refused InvalidOrUsed) tries
      /\ otps db' = otps db
      /\ find (otp_matches normalizedPhone (hashOTP sha256hex code)) (otps db')
         = Some record
      /\ snd (verifyOTP sha256hex db' now false phone code fp countryCode)
         = {| verified := true; verdict := OtpVerified;
              verifiedPhone := Some normalizedPhone |}).
Proof.
  intros sha256hex db now phone code fp countryCode normalizedPhone record tries.
  assert (H1 : normalizePhoneNumber phone countryCode = Some normalizedPhone)
    by (reflexivity).
  assert (H2 : find (otp_matches normalizedPhone (hashOTP sha256hex code))
    (otps db)
        = Some record)
    by (reflexivity).
  assert (H3 : now <= otp_expiresAt record)
    by (vm_compute; discriminate).
  assert (H4 : attemptCount record < 5)
    by (reflexivity).
  assert (H5 : Forall (fun try =>
                find (otp_matches normalizedPhone (hashOTP sha256hex (snd try)))
                     (otps db) = None) tries)
    by (repeat constructor).
  split; [exact (conj H1 (conj H2 (conj H3 (conj H4 H5))))|].
  exact (wrong_codes_leave_attempt_count sha256hex db now phone code fp
    countryCode normalizedPhone record tries H1 H2 H3 H4 H5).
Defined.

(** C5 on a sample window: five calls for [auth:verify-otp], then a
    sixth. *)
Lemma sixth_call_run :
  let db := empty_db in
  let identifier_ := "203.0.113.9" in
  let endpoint_ := "auth:verify-otp" in
  let config := {| windowMs := 60 * 1000; maxRequests := 5 |} in
  let start := t0 in
  let uuid1 := "r1" in
  let calls := four_more_calls in
  let t := t0 + 5000 in
  let uuid := "r6" in
  ((config_for endpoint_ = Some config)
   /\ (find (in_window identifier_ endpoint_
              (start - windowMs config)) (rateLimits db) = None)
   /\ (existsb (fun r => String.eqb (rl_id r) (generateId "rl" uuid1))
        (rateLimits db) = false)
   /\ (Forall (fun call =>
                inside_window start (windowMs config) (fst call))
             calls))
  /\ (let window := windowMs config in
      let limit := maxRequests config in
      let first := checkRateLimit db start uuid1 identifier_ endpoint_ in
      let db' := window_calls (fst first) identifier_ endpoint_ calls in
      let made := 1 + Z.of_nat (List.length calls) in
      first =
        (with_rateLimits db
           (rateLimits db ++
            [ {| rl_id := generateId "rl" uuid1; identifier := identifier_;
                 endpoint := endpoint_; requestCount := 1;
                 windowStart := timestamp start;
                 lastRequest := timestamp start |} ])%list,
         {| allowed := true; remainingRequests := Some (limit - 1);
            resetTime := Some (start + window) |})
      /\ (exists row,
            rateLimits db' = (rateLimits db ++ [row])%list
            /\ rl_id row = generateId "rl" uuid1
            /\ identifier row = identifier_ /\ endpoint row = endpoint_
            /\ windowStart row = timestamp start
            /\ requestCount row = Z.min made limit)
      /\ (inside_window start window t ->
          (made < limit ->
           snd (checkRateLimit db' t uuid identifier_ endpoint_)
           = {| allowed := true; remainingRequests := Some (limit - made - 1);
                resetTime := Some (timestamp start + window) |})
          /\ (limit <= made ->
              checkRateLimit db' t uuid identifier_ endpoint_
              = (db', {| allowed := false; remainingRequests := Some 0;
                         resetTime := Some (timestamp start + window) |})))
      /\ (timestamp start + window <= t ->
          existsb (fun r => String.eqb (rl_id r) (generateId "rl" uuid))
            (rateLimits db') = false ->
          checkRateLimit db' t uuid identifier_ endpoint_
          = (with_rateLimits db'
               (rateLimits db' ++
                [ {| rl_id := generateId "rl" uuid; identifier := identifier_;
                     endpoint := endpoint_; requestCount := 1;
                     windowStart := timestamp t;
                     lastRequest := timestamp t |} ])%list,
             {| allowed := true; remainingRequests := Some (limit - 1);
                resetTime := Some (t + window) |}))).
Proof.
  intros db identifier_ endpoint_ config start uuid1 calls t uuid.
  assert (H1 : config_for endpoint_ = Some config)
    by (reflexivity).
  assert (H2 : find (in_window identifier_ endpoint_
              (start - windowMs config)) (rateLimits db) = None)
    by (reflexivity).
  assert (H3 : existsb (fun r => String.eqb (rl_id r) (generateId "rl" uuid1))
        (rateLimits db) = false)
    by (reflexivity).
  assert (H4 : Forall (fun call =>
                inside_window start (windowMs config) (fst call))
             calls)
    by (repeat (apply Forall_cons; [split; [vm_compute;
      discriminate|reflexivity]|]); apply Forall_nil).
  split; [exact (conj H1 (conj H2 (conj H3 H4)))|].
  exact (rate_limit_fixed_window db identifier_ endpoint_ config start uuid1
    calls t uuid H1 H2 H3 H4).
Defined.

(** C6 on the sample store: secret A, rotated and since marked revoked,
    while its successor and the session of the family are still live. *)
Lemma revoked_secret_run :
  let sha256hex := toy_digest in
  let db := db_stolen in
  let now := t0 + 200000 in
  let rnd := third_entropy in
  let secret := "secretA" in
  let device := phone_device in
  let r := set_rt_revoked (t0 + 90000) recordA_rotated in
  ((NoDup (map tokenHash (refreshTokens db)))
   /\ (token_by_hash (hashToken sha256hex secret) (refreshTokens db) = Some r)
   /\ (rt_revoked r = true))
  /\ (let after := rotateRefreshToken sha256hex db now rnd secret device in
      snd after = Error TokenRevoked
      /\ (forall x, In x (refreshTokens db) ->
                    rt_tokenFamily x = rt_tokenFamily r ->
                    exists x', In x' (refreshTokens (fst after))
                               /\ rt_id x' = rt_id x
                               /\ tokenHash x' = tokenHash x
                               /\ rt_revoked x' = true)
      /\ (forall s, In s (sessions db) ->
                    s_tokenFamily s = rt_tokenFamily r ->
                    exists s', In s' (sessions (fst after))
                               /\ s_id s' = s_id s
                               /\ s_revoked s' = true /\ isActive s' = false)
      /\ (forall x, In x (refreshTokens db) ->
                    rt_tokenFamily x <> rt_tokenFamily r ->
                    In x (refreshTokens (fst after)))
      /\ (forall s, In s (sessions db) ->
                    s_tokenFamily s <> rt_tokenFamily r ->
                    In s (sessions (fst after)))
      /\ List.length (refreshTokens (fst after))
         = List.length (refreshTokens db)
      /\ List.length (sessions (fst after)) = List.length (sessions db)
      /\ (forall x, In x (refreshTokens (fst after)) ->
                    rt_tokenFamily x = rt_tokenFamily r -> rt_revoked x = true)
      /\ (forall s, In s (sessions (fst after)) ->
                    s_tokenFamily s = rt_tokenFamily r ->
                    s_revoked s = true /\ isActive s = false)
      /\ (forall ops now' rnd' device',
            Forall (draws_other_than sha256hex (hashToken sha256hex secret)) ops ->
            let later :=
              rotateRefreshToken sha256hex (run sha256hex db ops)
                now' rnd' secret device' in
            (forall issued, snd later <> Tokens issued)
            /\ (snd later = Error TokenRevoked \/ snd later = Error InvalidToken))).
Proof.
  intros sha256hex db now rnd secret device r.
  assert (H1 : NoDup (map tokenHash (refreshTokens db)))
    by (vm_compute; repeat (apply NoDup_cons; [intros H; repeat (destruct H as
      [H|H]; [discriminate H|]); exact H|]); apply NoDup_nil).
  assert (H2 : token_by_hash (hashToken sha256hex secret) (refreshTokens db) =
    Some r)
    by (reflexivity).
  assert (H3 : rt_revoked r = true)
    by (reflexivity).
  split; [exact (conj H1 (conj H2 H3))|].
  exact (revoked_secret_never_rotates sha256hex db now rnd secret device r H1
    H2 H3).
Defined.

(** C8 on the sample store: five active sessions and a limit of five. *)
Lemma sixth_login_run :
  let db := db_five in
  let now := t0 + 300000 in
  let userId := Some "u1" in
  let superuserId := None in
  let maxDevices := 5 in
  let account := "u1" in
  ((js_or userId superuserId = Some account)
   /\ (account <> "")
   /\ (NoDup (map s_id (sessions db)))
   /\ (0 < maxDevices))
  /\ (let accountType := if truthy userId then user else superuser in
      let activeSessions :=
        filter (active_session_of accountType account) (sessions db) in
      let after := enforceDeviceLimit db now userId superuserId maxDevices in
      (maxDevices <= Z.of_nat (List.length activeSessions) ->
       exists oldest pre post,
         In oldest activeSessions
         /\ (forall s, In s activeSessions ->
                       s_createdAt oldest <= s_createdAt s)
         /\ ((forall s, In s (sessions db) -> sessionStarted s = s_createdAt s) ->
             forall s, In s activeSessions ->
                       sessionStarted oldest <= sessionStarted s)
         /\ sessions db = (pre ++ oldest :: post)%list
         /\ sessions (fst after) = (pre ++ set_s_revoked oldest :: post)%list
         /\ isActive oldest = true
         /\ s_id (set_s_revoked oldest) = s_id oldest
         /\ s_revoked (set_s_revoked oldest) = true
         /\ isActive (set_s_revoked oldest) = false
         /\ refreshTokens (fst after)
            = update_where (in_family (s_tokenFamily oldest))
                (set_rt_revoked now) (refreshTokens db)
         /\ (forall x, In x (refreshTokens db) ->
                       rt_tokenFamily x = s_tokenFamily oldest ->
                       exists x', In x' (refreshTokens (fst after))
                                  /\ rt_id x' = rt_id x
                                  /\ tokenHash x' = tokenHash x
                                  /\ rt_revoked x' = true)
         /\ (forall x, In x (refreshTokens db) ->
                       rt_tokenFamily x <> s_tokenFamily oldest ->
                       In x (refreshTokens (fst after)))
         /\ (forall x, In x (refreshTokens (fst after)) ->
                       rt_tokenFamily x = s_tokenFamily oldest ->
                       rt_revoked x = true)
         /\ snd after = Returned tt)
      /\ (Z.of_nat (List.length activeSessions) < maxDevices ->
          after = (db, Returned tt))).
Proof.
  intros db now userId superuserId maxDevices account.
  assert (H1 : js_or userId superuserId = Some account)
    by (reflexivity).
  assert (H2 : account <> "")
    by (discriminate).
  assert (H3 : NoDup (map s_id (sessions db)))
    by (vm_compute; repeat (apply NoDup_cons; [intros H; repeat (destruct H as
      [H|H]; [discriminate H|]); exact H|]); apply NoDup_nil).
  assert (H4 : 0 < maxDevices)
    by (reflexivity).
  split; [exact (conj H1 (conj H2 (conj H3 H4)))|].
  exact (device_limit_evicts_oldest db now userId superuserId maxDevices
    account H1 H2 H3 H4).
Defined.

(** C2, as amended, on the sample store: the first rotation of secret A. *)
Lemma first_rotation_keeps_lineage :
  let sha256hex := toy_digest in
  let db := db_login in
  let op := Rotate (t0 + 61000) second_entropy "secretA" phone_device in
  ((store_invariant (refreshTokens db))
   /\ (keeps_lineage sha256hex db op))
  /\ (let rows' := refreshTokens (step sha256hex db op) in
      store_invariant rows'
      /\ one_active_per_family rows'
      /\ acyclic rows'
      /\ links_kept (refreshTokens db) rows').
Proof.
  intros sha256hex db op.
  assert (H1 : store_invariant (refreshTokens db))
    by (split; [apply NoDup_cons; [intros []|apply NoDup_nil] | intros family;
      unfold db, db_login; cbn [refreshTokens filter]; destruct (in_family
      family recordA && active recordA); simpl; lia | simpl; repeat split; try
      discriminate; intros x [] | intros x [<-|[]] _; reflexivity]).
  assert (H2 : keeps_lineage sha256hex db op)
    by (intros (x & issued & Hfind & Hrot & _); vm_compute in Hfind; injection
      Hfind as <-; apply Hrot; reflexivity).
  split; [exact (conj H1 H2)|].
  exact (lineage_invariant_preserved sha256hex db op H1 H2).
Defined.

(** Counterexample to C2 as stated: issuing a pair into a family that
    still has an active record leaves that family with two active
    records. *)
Lemma issue_into_live_family_adds_active_record :
  store_invariant (refreshTokens db_login)
  /\ ~ one_active_per_family
         (refreshTokens
            (step toy_digest db_login
               (Issue (t0 + 1000) relogin_entropy (Some "u1") None
                  phone_device (Some "fam1")))).
Proof.
  split.
  - split.
    + apply NoDup_cons; [intros []|apply NoDup_nil].
    + intros family. unfold db_login. cbn [refreshTokens filter].
      destruct (in_family family recordA && active recordA); simpl; lia.
    + simpl. repeat split; try discriminate. intros x [].
    + intros x [<-|[]] _. reflexivity.
  - intros H. specialize (H "fam1"). vm_compute in H. lia.
Qed.

Example sixth_call_denied :
  checkRateLimit
    (window_calls
       (fst (checkRateLimit empty_db t0 "r1" "203.0.113.9" "auth:verify-otp"))
       "203.0.113.9" "auth:verify-otp" four_more_calls)
    (t0 + 5000) "r6" "203.0.113.9" "auth:verify-otp"
  = (window_calls
       (fst (checkRateLimit empty_db t0 "r1" "203.0.113.9" "auth:verify-otp"))
       "203.0.113.9" "auth:verify-otp" four_more_calls,
     {| allowed := false; remainingRequests := Some 0;
        resetTime := Some (t0 + 60000) |}).
Proof. reflexivity. Qed.

Example sixth_login_evicts_a :
  map (fun s => (s_id s, isActive s))
    (sessions (fst (enforceDeviceLimit db_five (t0 + 300000)
                      (Some "u1") None 5)))
  = [ ("session_c", true); ("session_a", false); ("session_e", true);
      ("session_b", true); ("session_d", true) ].
Proof. reflexivity. Qed.

Example regrant_after_grace :
  snd (rotateRefreshToken toy_digest db_rotated (t0 + 122000) third_entropy
         "secretA" phone_device)
  = Tokens {| accessToken :=
                {| userId := Some "u1"; superuserId := None; type := user;
                   jti := "j3"; sessionId := None;
                   iat := 1700000122; exp := 1700001022 |};
              refreshToken := "secretC"; expiresIn := 900 |}.
Proof. reflexivity. Qed.

Example sixth_code_accepted :
  snd (verifyOTP toy_digest
         (attempts toy_digest db_otp "(555) 123-4567" "fp-phone" "1"
            five_wrong_codes)
         (t0 + 6000) false "(555) 123-4567" "123456" "fp-phone" "1")
  = {| verified := true; verdict := OtpVerified;
       verifiedPhone := Some "+15551234567" |}.
Proof. reflexivity. Qed.

(** ** Further properties *)

(** *** lib/security *)

Lemma strip_digits_only s : all_digits s = true -> strip_non_digits s = s.
Proof.
  induction s as [|c s IH]; simpl; [reflexivity|].
  intros H. apply andb_true_iff in H. destruct H as [Hc Hs].
  rewrite Hc, (IH Hs). reflexivity.
Qed.

Lemma strip_all_digits s : all_digits (strip_non_digits s) = true.
Proof.
  induction s as [|c s IH]; simpl; [reflexivity|].
  destruct (is_digit c) eqn:E; simpl; [rewrite E, IH; reflexivity|exact IH].
Qed.

Lemma substring_whole m s :
  (String.length s <= m)%nat -> substring 0 m s = s.
Proof.
  revert m. induction s as [|c s IH]; intros m H; destruct m; simpl in *;
    try reflexivity; try lia.
  rewrite IH by lia. reflexivity.
Qed.

Lemma substring_length m s :
  String.length (substring 0 m s) = Nat.min m (String.length s).
Proof.
  revert m. induction s as [|c s IH]; intros m; destruct m; simpl;
    try reflexivity.
  rewrite IH. reflexivity.
Qed.

Lemma substring_all_digits m s :
  all_digits s = true -> all_digits (substring 0 m s) = true.
Proof.
  revert m. induction s as [|c s IH]; intros m H; destruct m; simpl in *;
    try reflexivity.
  apply andb_true_iff in H. destruct H as [Hc Hs].
  rewrite Hc, (IH m Hs). reflexivity.
Qed.

Lemma prefix_append s t : prefix s (s ++ t) = true.
Proof.
  induction s as [|c s IH]; simpl; [destruct t; reflexivity|].
  destruct (ascii_dec c c) as [_|Hne]; [exact IH|contradiction].
Qed.

Lemma e164_shape s :
  e164 s = true ->
  all_digits s = true
  /\ (2 <= String.length s <= 15)%nat
  /\ exists c rest, s = String c rest /\ c <> "0"%char.
Proof.
  destruct s as [|c rest]; [cbn; discriminate|].
  unfold e164. intros H.
  apply andb_true_iff in H. destruct H as [H Hlen].
  apply andb_true_iff in H. destruct H as [H Hrest].
  apply andb_true_iff in H. destruct H as [Hc Hnz].
  apply andb_true_iff in Hlen. destruct Hlen as [Hl1 Hl2].
  apply negb_true_iff in Hnz. apply Ascii.eqb_neq in Hnz.
  apply Nat.leb_le in Hl1, Hl2.
  split; [cbn [all_digits]; rewrite Hc, Hrest; reflexivity|].
  split; [cbn [String.length]; lia|]. exists c, rest. auto.
Qed.

(** X1. A normalised number is a fixed point: normalising the result
    again, under the same country code, returns it unchanged. *)
Theorem normalizePhoneNumber_idempotent input countryCode normalized :
  normalizePhoneNumber input countryCode = Some normalized ->
  normalizePhoneNumber normalized countryCode = Some normalized.
Proof.
  unfold normalizePhoneNumber at 1.
  set (d1 := strip_non_digits input).
  set (d2 := if (10 <? String.length d1)%nat then substring 0 15 d1 else d1).
  set (d3 := if negb (prefix countryCode d2) && (String.length d2 =? 10)%nat
             then (countryCode ++ d2)%string else d2).
  destruct (e164 d3) eqn:He; [|discriminate].
  intros H. injection H as <-.
  destruct (e164_shape d3 He) as (Hdigits & Hlen & _).
  assert (Hkeep : negb (prefix countryCode d3)
                  && (String.length d3 =? 10)%nat = false).
  { subst d3.
    destruct (negb (prefix countryCode d2) && (String.length d2 =? 10)%nat)
      eqn:E; [|exact E].
    rewrite prefix_append. reflexivity. }
  unfold normalizePhoneNumber. simpl strip_non_digits.
  rewrite (strip_digits_only d3 Hdigits).
  rewrite (substring_whole 15 d3) by lia.
  assert (Hsame : (if (10 <? String.length d3)%nat then d3 else d3) = d3)
    by (destruct (10 <? String.length d3)%nat; reflexivity).
  rewrite Hsame, Hkeep, He. reflexivity.
Qed.

(** X2. Formatting characters are ignored and an over-long number is cut,
    not refused: when the input holds more than ten digits and the first
    is not 0, the result is [+] followed by its first fifteen digits,
    whatever the country code. *)
Theorem normalizePhoneNumber_truncates input countryCode c rest :
  strip_non_digits input = String c rest ->
  c <> "0"%char ->
  (10 <= String.length rest)%nat ->
  normalizePhoneNumber input countryCode
  = Some ("+" ++ substring 0 15 (strip_non_digits input))%string.
Proof.
  intros Hd Hc Hlen. unfold normalizePhoneNumber.
  pose proof (strip_all_digits input) as Hall.
  rewrite Hd in *.
  assert (H10 : (10 <? String.length (String c rest))%nat = true)
    by (apply Nat.ltb_lt; simpl; lia).
  rewrite H10.
  set (d := substring 0 15 (String c rest)).
  assert (Hdlen : String.length d
                  = Nat.min 15 (String.length (String c rest)))
    by (apply substring_length).
  assert (Hnot10 : (String.length d =? 10)%nat = false)
    by (apply Nat.eqb_neq; cbn [String.length] in Hdlen; lia).
  rewrite Hnot10, andb_false_r.
  assert (He : e164 d = true).
  { subst d.
    change (substring 0 15 (String c rest))
      with (String c (substring 0 14 rest)).
    cbn [all_digits] in Hall.
    apply andb_true_iff in Hall. destruct Hall as [Hc' Hrest].
    unfold e164. rewrite Hc', (substring_all_digits 14 rest Hrest).
    apply Ascii.eqb_neq in Hc. rewrite Hc, substring_length.
    cbn [negb andb].
    apply andb_true_iff. split; apply Nat.leb_le; lia. }
  rewrite He. reflexivity.
Qed.

Lemma decimal_digit_is_digit n : is_digit (decimal_digit n) = true.
Proof.
  unfold is_digit, decimal_digit.
  assert (Hlt : (n mod 10 < 10)%nat) by (apply Nat.mod_upper_bound; lia).
  rewrite nat_ascii_embedding by lia.
  apply andb_true_iff. split; apply Nat.leb_le; lia.
Qed.

(** X3. When the random source returns at least as many bytes as asked
    for, the generated code has exactly the requested length and is made
    of decimal digits only. *)
Theorem generateOTP_digits length_ randomBytes :
  (length_ <= List.length randomBytes)%nat ->
  String.length (generateOTP length_ randomBytes) = length_
  /\ all_digits (generateOTP length_ randomBytes) = true.
Proof.
  revert randomBytes.
  induction length_ as [|k IH]; intros [|b bs] H;
    cbn [generateOTP String.length all_digits List.length] in *;
    try (split; reflexivity); try lia.
  destruct (IH bs) as [Hl Hd]; [lia|].
  rewrite Hl, decimal_digit_is_digit, Hd. split; reflexivity.
Qed.

(** X4. With a positive maximum age, a timestamp is refused exactly when
    it lies further in the past than both the age and the thirty-second
    skew; a timestamp in the future is never refused.  Without a maximum
    age every timestamp is accepted. *)
Theorem isTimestampValid_window nowMs timestamp_ maxAge :
  0 < maxAge ->
  (isTimestampValid nowMs timestamp_ (Some maxAge) = true
   <-> nowMs / 1000 - timestamp_ <= Z.max maxAge CLOCK_SKEW_SECONDS)
  /\ isTimestampValid nowMs timestamp_ None = true.
Proof.
  intros Hpos. unfold isTimestampValid, CLOCK_SKEW_SECONDS.
  set (now := nowMs / 1000).
  assert (Hnz : (maxAge =? 0) = false) by (apply Z.eqb_neq; lia).
  rewrite Hnz. simpl negb. cbv iota.
  split; [|destruct (_ >? _); reflexivity].
  destruct (Z.abs (now - timestamp_) >? 30) eqn:Hd.
  - rewrite Z.gtb_ltb in Hd. apply Z.ltb_lt in Hd.
    destruct (timestamp_ <? now - maxAge) eqn:Ha; simpl.
    + apply Z.ltb_lt in Ha. split; [discriminate|lia].
    + apply Z.ltb_ge in Ha. split; [lia|reflexivity].
  - rewrite Z.gtb_ltb in Hd. apply Z.ltb_ge in Hd.
    split; [lia|reflexivity].
Qed.

(** *** enforceDeviceLimit *)

Lemma filter_revoked_one account accountType pre oldest post :
  active_session_of accountType account oldest = true ->
  List.length
    (filter (active_session_of accountType account)
       (pre ++ oldest :: post))
  = S (List.length
         (filter (active_session_of accountType account)
            (pre ++ set_s_revoked oldest :: post))).
Proof.
  intros Hact. rewrite !filter_app, !length_app. simpl.
  rewrite Hact.
  assert (Hgone : active_session_of accountType account
                    (set_s_revoked oldest) = false).
  { unfold active_session_of. simpl. apply andb_false_r. }
  rewrite Hgone. simpl. lia.
Qed.

(** X5. One call evicts one session at most: when the account's active
    sessions number [maxDevices] or more, their number drops by exactly
    one, however far above the limit it was; below the limit it does not
    change. *)
Theorem device_limit_evicts_one
  db now userId superuserId maxDevices account :
  js_or userId superuserId = Some account ->
  account <> "" ->
  NoDup (map s_id (sessions db)) ->
  0 < maxDevices ->
  let before :=
    List.length (active_sessions db userId superuserId account) in
  let after :=
    List.length
      (active_sessions
         (fst (enforceDeviceLimit db now userId superuserId maxDevices))
         userId superuserId account) in
  (maxDevices <= Z.of_nat before -> before = S after)
  /\ (Z.of_nat before < maxDevices -> after = before).
Proof.
  intros Hacc Hne Hnd Hpos before after. subst before after.
  unfold active_sessions, enforceDeviceLimit. rewrite Hacc.
  rewrite (truthy_some _ Hne). simpl negb. cbv iota.
  set (accountType := if truthy userId then user else superuser).
  set (actives := filter (active_session_of accountType account)
                    (sessions db)).
  rewrite orderBy_createdAt_length.
  split.
  - intros Hfull.
    assert (Hge : (Z.of_nat (List.length actives) >=? maxDevices) = true)
      by (rewrite Z.geb_leb; apply Z.leb_le; exact Hfull).
    rewrite Hge.
    pose proof (orderBy_createdAt_In actives) as Hmem.
    pose proof (orderBy_createdAt_length actives) as Hlen.
    destruct (orderBy_createdAt actives) as [|oldest rest].
    { simpl in Hlen. rewrite <- Hlen in Hfull. simpl in Hfull. lia. }
    assert (Hold : In oldest actives) by (apply Hmem; left; reflexivity).
    apply filter_In in Hold. destruct Hold as [Hin Hact].
    destruct (update_where_one s_id set_s_revoked (sessions db) oldest Hnd Hin)
      as (pre & post & Hsplit & Hupd).
    cbn [fst sessions with_sessions with_refreshTokens].
    rewrite Hupd. subst actives. rewrite Hsplit.
    apply filter_revoked_one. exact Hact.
  - intros Hfew.
    assert (Hge : (Z.of_nat (List.length actives) >=? maxDevices) = false)
      by (rewrite Z.geb_leb; apply Z.leb_gt; exact Hfew).
    rewrite Hge. reflexivity.
Qed.

(** *** The token blacklist *)

(** X6. Blacklisting and looking up round-trip: when [blacklistToken]
    returns, the token id is reported blacklisted, whatever its expiry,
    and the answer for every other token id is unchanged; it returns only
    for a token id that was not listed yet (on a listed one it throws). *)
Theorem blacklist_round_trip rows now uuid jti_ expiresAt rows' :
  blacklistToken rows now uuid jti_ expiresAt = Returned rows' ->
  isTokenBlacklisted rows' jti_ = true
  /\ isTokenBlacklisted rows jti_ = false
  /\ (forall other, other <> jti_ ->
        isTokenBlacklisted rows' other = isTokenBlacklisted rows other).
Proof.
  unfold blacklistToken, isTokenBlacklisted. intros Hret.
  destruct (existsb _ rows) eqn:He; [discriminate|].
  injection Hret as <-.
  assert (Hnone : find (fun b => String.eqb (tokenJti b) jti_) rows = None).
  { apply find_none_existsb. rewrite <- not_true_iff_false in He.
    apply not_true_iff_false. intros Hex. apply He.
    apply existsb_exists in Hex. destruct Hex as (b & Hin & Hb).
    apply existsb_exists. exists b. split; [exact Hin|].
    rewrite Hb. apply orb_true_r. }
  rewrite Hnone. split; [|split; [reflexivity|]].
  - rewrite (find_app_missing _ _ _ Hnone). simpl.
    rewrite String.eqb_refl. reflexivity.
  - intros other Hother.
    destruct (find (fun b => String.eqb (tokenJti b) other) rows)
      as [b|] eqn:Hfind.
    + rewrite (find_app_found _ _ _ _ Hfind). reflexivity.
    + rewrite (find_app_missing _ _ _ Hfind). simpl.
      apply String.eqb_neq in Hother. rewrite String.eqb_sym in Hother.
      rewrite Hother. reflexivity.
Qed.

(** *** checkRateLimit *)

Lemma existsb_map_same {A : Type} (p : A -> bool) (f : A -> A) (l : list A) :
  (forall x, p (f x) = p x) -> existsb p (map f l) = existsb p l.
Proof.
  intros Hp. induction l as [|a l IH]; simpl; [reflexivity|].
  rewrite Hp, IH. reflexivity.
Qed.

Lemma generateId_injective prefix_ a b :
  generateId prefix_ a = generateId prefix_ b -> a = b.
Proof.
  unfold generateId. induction prefix_ as [|c p IH]; simpl.
  - intros H. injection H. trivial.
  - intros H. injection H as H. exact (IH H).
Qed.

Lemma in_window_other identifier_ endpoint_ identifier' endpoint' since r :
  (identifier', endpoint') <> (identifier_, endpoint_) ->
  identifier r = identifier_ -> endpoint r = endpoint_ ->
  in_window identifier' endpoint' since r = false.
Proof.
  intros Hne Hi He. unfold in_window. rewrite Hi, He.
  destruct (String.eqb_spec identifier_ identifier') as [->|_];
    [|reflexivity].
  destruct (String.eqb_spec endpoint_ endpoint') as [->|_];
    [|reflexivity].
  contradiction Hne. reflexivity.
Qed.

Lemma find_update_other {A : Type} (key : A -> string) (p : A -> bool)
  (set : A -> A) (l : list A) (x : A) :
  NoDup (map key l) -> In x l -> p x = false ->
  (forall y, p (set y) = p y) ->
  find p (update_where (fun y => String.eqb (key y) (key x)) set l)
  = find p l.
Proof.
  intros Hnd Hin Hpx Hset.
  unfold update_where. rewrite find_map_same.
  - destruct (find p l) as [y|] eqn:Hfind; [|reflexivity].
    apply find_some in Hfind. destruct Hfind as [Hy Hpy]. simpl.
    destruct (String.eqb_spec (key y) (key x)) as [Heq|_]; [|reflexivity].
    rewrite (NoDup_map_injective key l y x Hnd Hy Hin Heq) in Hpy.
    congruence.
  - intros y. destruct (String.eqb (key y) (key x)); auto.
Qed.

(** X7. The pairs are counted apart: with record ids unique, as the
    primary key makes them, a call for one (identifier, endpoint) pair
    does not change the answer that a call for another pair, drawing
    another id, gets. *)
Theorem rate_limit_pairs_independent
  db now uuid identifier_ endpoint_ now' uuid' identifier' endpoint' :
  NoDup (map rl_id (rateLimits db)) ->
  (identifier', endpoint') <> (identifier_, endpoint_) ->
  uuid' <> uuid ->
  snd (checkRateLimit
         (fst (checkRateLimit db now uuid identifier_ endpoint_))
         now' uuid' identifier' endpoint')
  = snd (checkRateLimit db now' uuid' identifier' endpoint').
Proof.
  intros Hnd Hpair Huuid.
  destruct (config_for endpoint') as [config'|] eqn:Hcfg';
    [|unfold checkRateLimit at 1 3; rewrite Hcfg'; reflexivity].
  set (since' := now' - windowMs config').
  assert (Hsame :
    find (in_window identifier' endpoint' since')
      (rateLimits (fst (checkRateLimit db now uuid identifier_ endpoint_)))
    = find (in_window identifier' endpoint' since') (rateLimits db)
    /\ existsb (fun r => String.eqb (rl_id r) (generateId "rl" uuid'))
         (rateLimits (fst (checkRateLimit db now uuid identifier_ endpoint_)))
       = existsb (fun r => String.eqb (rl_id r) (generateId "rl" uuid'))
           (rateLimits db)).
  { unfold checkRateLimit at 1 2.
    destruct (config_for endpoint_) as [config|]; [|split; reflexivity].
    destruct (find _ (rateLimits db)) as [existing|] eqn:Hfind.
    - apply find_some in Hfind. destruct Hfind as [Hin Hw].
      unfold in_window in Hw.
      apply andb_true_iff in Hw. destruct Hw as [Hw _].
      apply andb_true_iff in Hw. destruct Hw as [Hi He].
      apply String.eqb_eq in Hi, He.
      destruct (requestCount existing >=? _); [split; reflexivity|].
      cbn [fst rateLimits with_rateLimits]. split.
      + apply (find_update_other rl_id); try assumption.
        * exact (in_window_other _ _ _ _ _ _ Hpair Hi He).
        * intros y. reflexivity.
      + unfold update_where. apply existsb_map_same.
        intros y. destruct (String.eqb (rl_id y) (rl_id existing));
          reflexivity.
    - destruct (existsb _ (rateLimits db)); [split; reflexivity|].
      cbn [fst rateLimits with_rateLimits]. split.
      + destruct (find (in_window identifier' endpoint' since')
                    (rateLimits db)) as [y|] eqn:Hf.
        * exact (find_app_found _ _ _ _ Hf).
        * rewrite (find_app_missing _ _ _ Hf). simpl.
          rewrite (in_window_other identifier_ endpoint_); auto.
      + rewrite existsb_app. cbn [existsb rl_id].
        assert (Hid : String.eqb (generateId "rl" uuid)
                        (generateId "rl" uuid') = false).
        { apply String.eqb_neq. intros Heq. apply Huuid. symmetry.
          exact (generateId_injective _ _ _ Heq). }
        rewrite Hid. rewrite !orb_false_r. reflexivity. }
  destruct Hsame as [Hfind Hex].
  unfold checkRateLimit at 1 3. rewrite Hcfg'. fold since'.
  rewrite Hfind, Hex.
  destruct (find _ (rateLimits db)) as [existing|].
  - destruct (requestCount existing >=? _); reflexivity.
  - destruct (existsb _ (rateLimits db)); reflexivity.
Qed.

(** X8. No endpoint name that resolves to a configuration, its own or
    the general one, lets more than a hundred calls through in one
    window: after the call that opens a window and ninety-nine or more
    further calls inside it, every call inside the window is denied. *)
Theorem every_endpoint_capped
  db identifier_ endpoint_ config start uuid1 calls t uuid :
  config_for endpoint_ = Some config ->
  find (in_window identifier_ endpoint_ (start - windowMs config))
    (rateLimits db) = None ->
  existsb (fun r => String.eqb (rl_id r) (generateId "rl" uuid1))
    (rateLimits db) = false ->
  Forall (fun call => inside_window start (windowMs config) (fst call))
         calls ->
  (99 <= List.length calls)%nat ->
  inside_window start (windowMs config) t ->
  allowed
    (snd (checkRateLimit
            (window_calls
               (fst (checkRateLimit db start uuid1 identifier_ endpoint_))
               identifier_ endpoint_ calls)
            t uuid identifier_ endpoint_))
  = false.
Proof.
  intros Hcfg Hnone Hfresh Hcalls Hmany Hin.
  destruct (config_for_sane _ _ Hcfg) as ((Hlimit & Hcap) & _ & _).
  set (row1 := {| rl_id := generateId "rl" uuid1; identifier := identifier_;
                  endpoint := endpoint_; requestCount := 1;
                  windowStart := timestamp start;
                  lastRequest := timestamp start |}).
  assert (Hc : counting
                 (fst (checkRateLimit db start uuid1 identifier_ endpoint_))
                 identifier_ endpoint_ start (windowMs config)
                 (rateLimits db) row1).
  { unfold checkRateLimit. rewrite Hcfg, Hnone, Hfresh.
    unfold counting. cbn [fst rateLimits with_rateLimits].
    repeat split.
    - apply Forall_forall. intros x Hx. exact (find_none _ _ Hnone x Hx).
    - apply Forall_forall. intros x Hx.
      apply find_none_existsb in Hfresh. exact (find_none _ _ Hfresh x Hx). }
  destruct (counting_calls identifier_ endpoint_ config start
              (rateLimits db) calls Hcfg Hcalls _ row1 Hc Hlimit)
    as (row & Hc' & _ & Hcount).
  rewrite (check_counting _ _ _ config start (rateLimits db) row t uuid
             Hcfg Hc' Hin).
  unfold row1 in Hcount. cbn [requestCount] in Hcount.
  assert (Hfull : (requestCount row >=? maxRequests config) = true)
    by (rewrite Z.geb_leb; apply Z.leb_le; lia).
  rewrite Hfull. reflexivity.
Qed.


(** *** Audit log and lockout *)

Lemma failed_count_app identifier_ since rows row :
  List.length (filter (failed_login identifier_ since) (rows ++ [row]))
  = (List.length (filter (failed_login identifier_ since) rows)
     + (if failed_login identifier_ since row then 1 else 0))%nat.
Proof.
  rewrite filter_app, length_app. simpl.
  destruct (failed_login identifier_ since row); reflexivity.
Qed.

(** X9. A failed login is counted once, for its phone number only: after
    [auditAuthEvent] records a failed [login] for a phone number, with a
    fresh row id, [getFailedLoginAttempts] for that number is one higher
    for as long as the row lies in the window asked for, and it is
    unchanged for every other identifier. *)
Theorem failed_login_counted rows now uuid event identifier_ now' window :
  ev_success event = false ->
  ev_phoneNumber event = Some identifier_ ->
  existsb (fun a => String.eqb (al_id a) (generateId "audit" uuid)) rows
    = false ->
  sql_gt (timestamp now) (now' - window) = true ->
  getFailedLoginAttempts (auditAuthEvent rows now uuid Login event)
    now' identifier_ window
  = 1 + getFailedLoginAttempts rows now' identifier_ window
  /\ (forall other, other <> identifier_ ->
        getFailedLoginAttempts (auditAuthEvent rows now uuid Login event)
          now' other window
        = getFailedLoginAttempts rows now' other window).
Proof.
  intros Hfail Hphone Hfresh Hin.
  unfold getFailedLoginAttempts, auditAuthEvent, createAuditLog.
  rewrite Hfresh. split.
  - rewrite failed_count_app. unfold failed_login at 2.
    cbn [al_action al_resourceId al_success al_createdAt d_action
         d_resourceId d_success action_name].
    rewrite Hphone, Hfail, Hin. cbn [sql_eq]. rewrite !String.eqb_refl.
    cbn [andb Bool.eqb]. lia.
  - intros other Hother. rewrite failed_count_app. unfold failed_login at 2.
    cbn [al_action al_resourceId al_success al_createdAt d_action
         d_resourceId d_success action_name].
    rewrite Hphone. cbn [sql_eq].
    apply String.eqb_neq in Hother. rewrite String.eqb_sym in Hother.
    rewrite Hother, andb_false_r. cbn [andb]. lia.
Qed.

(** X10. Nothing but a failed login is counted, and nothing resets the
    count: an event that succeeded, or that is not a [login], leaves
    [getFailedLoginAttempts] and [shouldLockAccount] as they were for
    every identifier. *)
Theorem only_failed_logins_count
  rows now uuid action event identifier_ now' window maxAttempts :
  ev_success event = true \/ action <> Login ->
  getFailedLoginAttempts (auditAuthEvent rows now uuid action event)
    now' identifier_ window
  = getFailedLoginAttempts rows now' identifier_ window
  /\ shouldLockAccount (auditAuthEvent rows now uuid action event)
       now' identifier_ maxAttempts
     = shouldLockAccount rows now' identifier_ maxAttempts.
Proof.
  intros Hnot.
  assert (Hcount : forall w,
    getFailedLoginAttempts (auditAuthEvent rows now uuid action event)
      now' identifier_ w
    = getFailedLoginAttempts rows now' identifier_ w).
  { intros w. unfold getFailedLoginAttempts, auditAuthEvent, createAuditLog.
    destruct (existsb _ rows); [reflexivity|].
    rewrite failed_count_app. unfold failed_login at 2.
    cbn [al_action al_resourceId al_success al_createdAt d_action
         d_resourceId d_success].
    destruct Hnot as [Hok|Hact].
    - rewrite Hok. cbn [Bool.eqb]. rewrite andb_false_r. cbn [andb]. lia.
    - destruct action; try contradiction; cbn; lia. }
  split; [apply Hcount|].
  unfold shouldLockAccount. rewrite Hcount. reflexivity.
Qed.

Section Further.

Variable sha256hex : string -> string.

(** *** generateTokenPair and rotateRefreshToken *)

(** X11. Only the two theft signals write on failure: when
    [rotateRefreshToken] answers any error other than [TokenRevoked] and
    [DeviceMismatch], the store is exactly as it was. *)
Theorem rotation_errors_write_nothing db now rnd secret device db' e :
  rotateRefreshToken sha256hex db now rnd secret device = (db', Error e) ->
  e <> TokenRevoked ->
  e <> DeviceMismatch ->
  db' = db.
Proof.
  unfold rotateRefreshToken. intros H Hrev Hmis.
  destruct (token_by_hash _ _) as [r|]; [|congruence].
  destruct (rt_revoked r); [congruence|].
  destruct (now >? rt_expiresAt r); [congruence|].
  destruct (grace_reissue db now rnd r secret); [discriminate|].
  destruct (session_by_family _ _) as [session|]; [|congruence].
  destruct (_ <? _); [congruence|].
  destruct (_ >? _); [congruence|].
  destruct (_ >? _); [congruence|].
  destruct (negb _); [congruence|].
  destruct (insert_refreshToken _ _); [discriminate|congruence].
Qed.

Lemma generateTokenPair_throws db now rnd u su device family :
  generateTokenPair sha256hex db now rnd u su device family
  = match insert_refreshToken
            (login_row sha256hex now rnd u su device family)
            (refreshTokens db) with
    | Some tokens => (with_refreshTokens db tokens, Thrown)
    | None => (db, Thrown)
    end.
Proof.
  unfold generateTokenPair, login_row. cbv zeta.
  destruct (insert_refreshToken _ _); reflexivity.
Qed.

Lemma timestamp_plus_days now :
  timestamp (now + REFRESH_TOKEN_EXPIRY_DAYS * 24 * 60 * 60 * 1000)
  = timestamp now + 2592000000.
Proof.
  unfold timestamp, REFRESH_TOKEN_EXPIRY_DAYS.
  Z.div_mod_to_equations. lia.
Qed.

(** What a call that rotated a record, and so handed out a new secret,
    went through and wrote. *)
Lemma rotate_new_secret_inv db now rnd secret device db1 issued :
  rotateRefreshToken sha256hex db now rnd secret device
    = (db1, Tokens issued) ->
  refreshToken issued <> secret ->
  exists r session,
    token_by_hash (hashToken sha256hex secret) (refreshTokens db) = Some r
    /\ session_by_family (rt_tokenFamily r) (sessions db) = Some session
    /\ (forall x, In x (refreshTokens db) ->
          rt_id x <> generateId "rt" (next_rtUuid rnd)
          /\ tokenHash x <> hashToken sha256hex (next_secret rnd))
    /\ db1
       = with_sessions
           (with_refreshTokens db
              (update_where (fun x => String.eqb (rt_id x) (rt_id r))
                 (set_rt_rotated now (generateId "rt" (next_rtUuid rnd)))
                 (refreshTokens db
                  ++ [successor_row sha256hex now rnd device r])))
           (update_where (fun s => String.eqb (s_id s) (s_id session))
              (set_s_refreshed now (refreshCount session + 1)) (sessions db))
    /\ refreshToken issued = next_secret rnd.
Proof.
  unfold rotateRefreshToken. intros H Hnew.
  destruct (token_by_hash _ _) as [r|] eqn:Hfind; [|discriminate].
  destruct (rt_revoked r); [discriminate|].
  destruct (now >? rt_expiresAt r); [discriminate|].
  destruct (grace_reissue db now rnd r secret) as [reissued|] eqn:Hgrace.
  { injection H as _ <-. exfalso. apply Hnew.
    eapply grace_reissue_claims in Hgrace. apply Hgrace. }
  destruct (session_by_family _ _) as [session|] eqn:Hsession;
    [|discriminate].
  destruct (_ <? _); [discriminate|].
  destruct (now - sessionStarted session >? _); [discriminate|].
  destruct (refreshCount session >? _); [discriminate|].
  destruct (negb _); [discriminate|].
  destruct (insert_refreshToken _ _) as [rows|] eqn:Hins; [|discriminate].
  injection H as <- <-.
  apply insert_refreshToken_inv in Hins. destruct Hins as [-> Hfresh].
  exists r, session.
  split; [reflexivity|]. split; [exact Hsession|].
  split; [exact Hfresh|]. split; reflexivity.
Qed.

(** After such a call the new secret finds the successor row, and the
    family finds its session, refreshed. *)
Lemma rotated_store_lookups db now rnd device r session :
  In r (refreshTokens db) ->
  session_by_family (rt_tokenFamily r) (sessions db) = Some session ->
  (forall x, In x (refreshTokens db) ->
     rt_id x <> generateId "rt" (next_rtUuid rnd)
     /\ tokenHash x <> hashToken sha256hex (next_secret rnd)) ->
  token_by_hash (hashToken sha256hex (next_secret rnd))
    (update_where (fun x => String.eqb (rt_id x) (rt_id r))
       (set_rt_rotated now (generateId "rt" (next_rtUuid rnd)))
       (refreshTokens db ++ [successor_row sha256hex now rnd device r]))
  = Some (successor_row sha256hex now rnd device r)
  /\ session_by_family (rt_tokenFamily r)
       (update_where (fun s => String.eqb (s_id s) (s_id session))
          (set_s_refreshed now (refreshCount session + 1)) (sessions db))
     = Some (set_s_refreshed now (refreshCount session + 1) session).
Proof.
  intros Hr Hsession Hfresh. split.
  - unfold token_by_hash, update_where.
    rewrite find_map_same
      by (intros x; destruct (String.eqb (rt_id x) (rt_id r)); reflexivity).
    assert (Hold : find (fun x => String.eqb (tokenHash x)
                                    (hashToken sha256hex (next_secret rnd)))
                     (refreshTokens db) = None).
    { apply find_all_false. apply Forall_forall. intros x Hx.
      apply String.eqb_neq. apply (Hfresh x Hx). }
    rewrite (find_app_missing _ _ _ Hold). cbn [find].
    change (tokenHash (successor_row sha256hex now rnd device r))
      with (hashToken sha256hex (next_secret rnd)).
    rewrite String.eqb_refl. cbn [option_map].
    change (rt_id (successor_row sha256hex now rnd device r))
      with (generateId "rt" (next_rtUuid rnd)).
    assert (Hne : String.eqb (generateId "rt" (next_rtUuid rnd)) (rt_id r)
                  = false).
    { apply String.eqb_neq. intros Heq.
      destruct (Hfresh r Hr) as [Hid _]. apply Hid. symmetry. exact Heq. }
    rewrite Hne. reflexivity.
  - unfold session_by_family, update_where in *.
    rewrite find_map_same
      by (intros x; destruct (String.eqb (s_id x) (s_id session));
          reflexivity).
    rewrite Hsession. cbn [option_map]. rewrite String.eqb_refl.
    reflexivity.
Qed.

(** X12. A secret handed out by a rotation cannot be rotated during the
    next minute: after a call that handed out a new secret at [now],
    presenting that secret less than sixty seconds after the stored
    rotation time answers [RotatedTooFrequently], from any device, and
    writes nothing. *)
Theorem rotated_secret_waits_a_minute
  db now rnd secret device db1 issued now2 rnd2 device2 :
  rotateRefreshToken sha256hex db now rnd secret device
    = (db1, Tokens issued) ->
  refreshToken issued <> secret ->
  now2 - timestamp now < MIN_REFRESH_INTERVAL ->
  rotateRefreshToken sha256hex db1 now2 rnd2 (refreshToken issued) device2
  = (db1, Error RotatedTooFrequently).
Proof.
  intros Hrotate Hnew Hsoon.
  destruct (rotate_new_secret_inv _ _ _ _ _ _ _ Hrotate Hnew)
    as (r & session & Hfind & Hsession & Hfresh & -> & ->).
  assert (Hr : In r (refreshTokens db))
    by (apply find_some in Hfind; tauto).
  destruct (rotated_store_lookups db now rnd device r session
              Hr Hsession Hfresh) as [Hrow Hs].
  unfold rotateRefreshToken.
  cbn [refreshTokens sessions with_sessions with_refreshTokens].
  rewrite Hrow.
  cbn [rt_revoked successor_row rt_expiresAt rt_tokenFamily].
  rewrite timestamp_plus_days.
  assert (Hexp : (now2 >? timestamp now + 2592000000) = false)
    by (apply gtb_false; unfold MIN_REFRESH_INTERVAL in Hsoon; lia).
  rewrite Hexp.
  rewrite grace_reissue_fresh by reflexivity.
  rewrite Hs. cbn [lastActivity set_s_refreshed].
  apply Z.ltb_lt in Hsoon. rewrite Hsoon. reflexivity.
Qed.



(** X24. Rotations chain.  After a call that handed out a new secret,
    presenting that secret from a device of the same fingerprint, at
    least a minute later and within the limits on the record's and the
    session's age and on the refresh count, with a fresh id and secret
    drawn, hands out the newly drawn secret; the session then counts
    two refreshes more than before the first call, the first successor
    is marked rotated and linked to the second, and the second is
    stored unrevoked and unrotated in the same family. *)
Theorem rotation_chain
  db now rnd secret device r session db1 issued now2 rnd2 device2 :
  token_by_hash (hashToken sha256hex secret) (refreshTokens db) = Some r ->
  session_by_family (rt_tokenFamily r) (sessions db) = Some session ->
  rotateRefreshToken sha256hex db now rnd secret device
    = (db1, Tokens issued) ->
  refreshToken issued <> secret ->
  fingerprint device2 = fingerprint device ->
  MIN_REFRESH_INTERVAL <= now2 - timestamp now ->
  now2 - timestamp now <= 2592000000 ->
  now2 - sessionStarted session <= 2592000000 ->
  refreshCount session < MAX_REFRESH_COUNT ->
  token_by_id (generateId "rt" (next_rtUuid rnd2)) (refreshTokens db1)
    = None ->
  token_by_hash (hashToken sha256hex (next_secret rnd2)) (refreshTokens db1)
    = None ->
  let after :=
    rotateRefreshToken sha256hex db1 now2 rnd2 (refreshToken issued)
      device2 in
  (exists access,
      snd after = Tokens {| accessToken := access;
                            refreshToken := next_secret rnd2;
                            expiresIn := 15 * 60 |})
  /\ (exists s2,
        session_by_family (rt_tokenFamily r) (sessions (fst after))
          = Some s2
        /\ s_id s2 = s_id session
        /\ refreshCount s2 = refreshCount session + 2
        /\ lastActivity s2 = timestamp now2)
  /\ (exists first,
        token_by_hash (hashToken sha256hex (next_secret rnd))
          (refreshTokens (fst after)) = Some first
        /\ rotatedAt first = Some (timestamp now2)
        /\ newTokenId first = Some (generateId "rt" (next_rtUuid rnd2))
        /\ rt_revoked first = false)
  /\ (exists second,
        token_by_hash (hashToken sha256hex (next_secret rnd2))
          (refreshTokens (fst after)) = Some second
        /\ rt_id second = generateId "rt" (next_rtUuid rnd2)
        /\ rt_tokenFamily second = rt_tokenFamily r
        /\ rt_userId second = rt_userId r
        /\ rt_superuserId second = rt_superuserId r
        /\ rotatedAt second = None
        /\ rt_revoked second = false).
Proof.
  intros Hfind Hsession Hrotate Hnew Hdevice Hlate Hyoung Hage Hcount
    Hid2 Hhash2 after. subst after.
  destruct (rotate_new_secret_inv _ _ _ _ _ _ _ Hrotate Hnew)
    as (r0 & session0 & Hfind0 & Hsession0 & Hfresh & Hdb1 & Hsecret).
  rewrite Hfind in Hfind0. injection Hfind0 as <-.
  rewrite Hsession in Hsession0. injection Hsession0 as <-.
  rewrite Hsecret.
  assert (Hr : In r (refreshTokens db))
    by (apply find_some in Hfind; tauto).
  destruct (rotated_store_lookups db now rnd device r session
              Hr Hsession Hfresh) as [Hrow Hs].
  set (row := successor_row sha256hex now rnd device r) in *.
  set (s1 := set_s_refreshed now (refreshCount session + 1) session) in *.
  assert (Hrow1 : token_by_hash (hashToken sha256hex (next_secret rnd))
                    (refreshTokens db1) = Some row)
    by (rewrite Hdb1; exact Hrow).
  assert (Hs1 : session_by_family (rt_tokenFamily row) (sessions db1)
                = Some s1)
    by (rewrite Hdb1; exact Hs).
  rewrite (rotate_success sha256hex db1 now2 rnd2 (next_secret rnd)
             device2 row s1 Hrow1); try assumption; try reflexivity.
  - cbn [fst snd refreshTokens sessions with_sessions with_refreshTokens].
    split; [eexists; reflexivity|].
    split.
    { exists (set_s_refreshed now2 (refreshCount s1 + 1) s1).
      split; [|repeat split; subst s1; cbn [refreshCount set_s_refreshed];
               lia].
      unfold session_by_family, update_where in *.
      rewrite find_map_same
        by (intros x; destruct (String.eqb (s_id x) (s_id s1));
            reflexivity).
      change (rt_tokenFamily row) with (rt_tokenFamily r) in Hs1.
      rewrite Hs1. cbn [option_map]. rewrite String.eqb_refl.
      reflexivity. }
    split.
    { exists (set_rt_rotated now2 (generateId "rt" (next_rtUuid rnd2)) row).
      split; [|repeat split].
      unfold token_by_hash, update_where in *.
      rewrite find_map_same
        by (intros x; destruct (String.eqb (rt_id x) (rt_id row));
            reflexivity).
      rewrite (find_app_found _ _ _ _ Hrow1). cbn [option_map].
      rewrite String.eqb_refl. reflexivity. }
    exists (successor_row sha256hex now2 rnd2 device2 row).
    split; [|repeat split].
    unfold token_by_hash, update_where in *.
    rewrite find_map_same
      by (intros x; destruct (String.eqb (rt_id x) (rt_id row));
          reflexivity).
    rewrite (find_app_missing _ _ _ Hhash2). cbn [find].
    change (tokenHash (successor_row sha256hex now2 rnd2 device2 row))
      with (hashToken sha256hex (next_secret rnd2)).
    rewrite String.eqb_refl. cbn [option_map].
    assert (Hne : String.eqb
                    (rt_id (successor_row sha256hex now2 rnd2 device2 row))
                    (rt_id row) = false).
    { apply String.eqb_neq. intros Heq.
      apply find_some in Hrow1. destruct Hrow1 as [Hin _].
      unfold token_by_id in Hid2.
      pose proof (find_none _ _ Hid2 row Hin) as Hrow2. cbn beta in Hrow2.
      change (rt_id (successor_row sha256hex now2 rnd2 device2 row))
        with (generateId "rt" (next_rtUuid rnd2)) in Heq.
      rewrite <- Heq, String.eqb_refl in Hrow2. discriminate. }
    rewrite Hne. reflexivity.
  - subst row. cbn [rt_expiresAt successor_row].
    rewrite timestamp_plus_days. lia.
  - unfold session_checks_pass, MAX_REFRESH_COUNT, REFRESH_TOKEN_EXPIRY_DAYS
      in *.
    subst s1. cbn [lastActivity sessionStarted refreshCount set_s_refreshed].
    lia.
  - subst row. cbn [rt_deviceFingerprint successor_row]. symmetry.
    exact Hdevice.
Qed.


(** *** Sessions over time *)

Lemma session_grows_refl s : session_grows s s.
Proof. unfold session_grows. repeat split; auto; lia. Qed.

Lemma session_grows_trans s1 s2 s3 :
  session_grows s1 s2 -> session_grows s2 s3 -> session_grows s1 s3.
Proof.
  unfold session_grows.
  intros (a1 & a2 & a3 & a4 & a5 & a6) (b1 & b2 & b3 & b4 & b5 & b6).
  repeat split; try congruence; auto; lia.
Qed.

Lemma grows_same rows s s' :
  NoDup (map s_id rows) -> In s rows -> In s' rows -> s_id s' = s_id s ->
  session_grows s s'.
Proof.
  intros Hnd Hs Hs' Hid.
  rewrite (NoDup_map_injective s_id rows s' s Hnd Hs' Hs Hid).
  apply session_grows_refl.
Qed.

Lemma grows_update (sel : Session -> bool) set rows s s' :
  NoDup (map s_id rows) ->
  (forall x, s_id (set x) = s_id x) ->
  (forall x, In x rows -> sel x = true -> session_grows x (set x)) ->
  In s rows -> In s' (update_where sel set rows) -> s_id s' = s_id s ->
  session_grows s s'.
Proof.
  intros Hnd Hid Hset Hs Hs' Hsame.
  apply in_update_where in Hs'. destruct Hs' as (x & Hx & ->).
  assert (Hxid : s_id x = s_id s)
    by (destruct (sel x); [rewrite Hid in Hsame|]; exact Hsame).
  rewrite (NoDup_map_injective s_id rows x s Hnd Hx Hs Hxid) in *.
  destruct (sel s) eqn:E; [apply Hset; assumption|apply session_grows_refl].
Qed.

Lemma grows_revoked s : session_grows s (set_s_revoked s).
Proof. unfold session_grows. simpl. repeat split; auto; lia. Qed.

Lemma grows_touched now s : session_grows s (set_s_lastActivity now s).
Proof. unfold session_grows. simpl. repeat split; auto; lia. Qed.

Lemma unique_session_ids_update (sel : Session -> bool) set rows :
  (forall x, s_id (set x) = s_id x) ->
  NoDup (map s_id rows) -> NoDup (map s_id (update_where sel set rows)).
Proof.
  intros Hid Hnd. rewrite map_update_where; assumption.
Qed.

(** X16. A session row only grows.  Across every issue, rotation,
    revocation, eviction and token sweep, a session, told by its id,
    keeps its family, its start time and its creation time; its refresh
    count never decreases; and once revoked or inactive it stays so. *)
Theorem session_history_kept db op s s' :
  NoDup (map s_id (sessions db)) ->
  In s (sessions db) ->
  In s' (sessions (step sha256hex db op)) ->
  s_id s' = s_id s ->
  session_grows s s'.
Proof.
  intros Hnd Hs Hs' Hid.
  destruct op as [now rnd u su device family|now rnd secret device
                 |now u su|now u su maxDevices|expired];
    cbn [step] in Hs'.
  - rewrite generateTokenPair_throws in Hs'.
    destruct (insert_refreshToken _ _); eapply grows_same; eassumption.
  - unfold rotateRefreshToken in Hs'.
    destruct (token_by_hash _ _) as [r|]; [|eapply grows_same; eassumption].
    destruct (rt_revoked r).
    { cbn [fst sessions with_sessions with_refreshTokens] in Hs'.
      eapply (grows_update _ _ (sessions db)); try eassumption;
        [reflexivity|intros; apply grows_revoked]. }
    destruct (now >? rt_expiresAt r); [eapply grows_same; eassumption|].
    destruct (grace_reissue _ _ _ _ _); [eapply grows_same; eassumption|].
    destruct (session_by_family _ _) as [session|] eqn:Hsess;
      [|eapply grows_same; eassumption].
    destruct (_ <? _); [eapply grows_same; eassumption|].
    destruct (_ >? _); [eapply grows_same; eassumption|].
    destruct (_ >? _); [eapply grows_same; eassumption|].
    destruct (negb _); [eapply grows_same; eassumption|].
    destruct (insert_refreshToken _ _); [|eapply grows_same; eassumption].
    cbn [fst sessions with_sessions with_refreshTokens] in Hs'.
    eapply (grows_update _ _ (sessions db)); try eassumption;
      [reflexivity|].
    intros x Hx Hsel. apply String.eqb_eq in Hsel.
    apply find_some in Hsess. destruct Hsess as [Hin _].
    rewrite (NoDup_map_injective s_id (sessions db) x session Hnd Hx Hin Hsel).
    unfold session_grows. simpl. repeat split; auto; lia.
  - assert (Hone : forall (sel : Session -> bool) t t',
               In t (sessions db) ->
               In t' (update_where sel set_s_revoked (sessions db)) ->
               s_id t' = s_id t -> session_grows t t').
    { intros sel t t' Ht Ht' Hsame.
      eapply (grows_update _ _ (sessions db)); try eassumption;
        [reflexivity|intros; apply grows_revoked]. }
    unfold revokeAllTokens in Hs'.
    destruct u as [u|], su as [su|];
      try destruct (truthy (Some u)); try destruct (truthy (Some su));
      cbn [sessions with_sessions with_refreshTokens] in Hs';
      try (eapply grows_same; eassumption);
      try (eapply Hone; eassumption).
    set (mid := if sql_eq (s_userId s) u then set_s_revoked s else s).
    assert (Hmid : In mid (update_where (fun x => sql_eq (s_userId x) u)
                             set_s_revoked (sessions db)))
      by (apply in_update_where; exists s; auto).
    assert (Hmid_id : s_id mid = s_id s)
      by (unfold mid; destruct (sql_eq (s_userId s) u); reflexivity).
    apply (session_grows_trans s mid s').
    + unfold mid.
      destruct (sql_eq (s_userId s) u);
        [apply grows_revoked|apply session_grows_refl].
    + eapply (grows_update _ _
                (update_where (fun x => sql_eq (s_userId x) u)
                   set_s_revoked (sessions db)));
        try eassumption;
        [apply unique_session_ids_update; [reflexivity|exact Hnd]
        |reflexivity|intros; apply grows_revoked|congruence].
  - unfold enforceDeviceLimit in Hs'.
    destruct (js_or u su); [|eapply grows_same; eassumption].
    destruct (negb _); [eapply grows_same; eassumption|].
    destruct (_ >=? _); [|eapply grows_same; eassumption].
    destruct (orderBy_createdAt _); [eapply grows_same; eassumption|].
    cbn [fst sessions with_sessions with_refreshTokens] in Hs'.
    eapply (grows_update _ _ (sessions db)); try eassumption;
      [reflexivity|intros; apply grows_revoked].
  - eapply grows_same; eassumption.
Qed.

Lemma rotation_token_expiry db now rnd secret device db1 issued :
  rotateRefreshToken sha256hex db now rnd secret device
    = (db1, Tokens issued) ->
  exp (accessToken issued) = now / 1000 + 15 * 60.
Proof.
  unfold rotateRefreshToken. intros H.
  destruct (token_by_hash _ _) as [r|]; [|discriminate].
  destruct (rt_revoked r); [discriminate|].
  destruct (now >? rt_expiresAt r); [discriminate|].
  destruct (grace_reissue db now rnd r secret) as [reissued|] eqn:Hgrace.
  { injection H as _ <-. eapply grace_reissue_claims in Hgrace.
    apply Hgrace. }
  destruct (session_by_family _ _) as [session|]; [|discriminate].
  destruct (_ <? _); [discriminate|].
  destruct (now - sessionStarted session >? _); [discriminate|].
  destruct (refreshCount session >? _); [discriminate|].
  destruct (negb _); [discriminate|].
  destruct (insert_refreshToken _ _); [|discriminate].
  injection H as _ <-. reflexivity.
Qed.

(** X17. An access token lives fifteen minutes and thirty seconds: the
    token that any branch of [rotateRefreshToken] hands out at [now] is
    accepted by [verifyAccessToken] exactly while the clock, in whole
    seconds, is less than 930 seconds past the issue second. *)
Theorem access_token_lifetime db now rnd secret device db1 issued later :
  rotateRefreshToken sha256hex db now rnd secret device
    = (db1, Tokens issued) ->
  (verifyAccessToken (accessToken issued) later = Some (accessToken issued)
   <-> later / 1000 < now / 1000 + 930)
  /\ (verifyAccessToken (accessToken issued) later = None
      <-> now / 1000 + 930 <= later / 1000).
Proof.
  intros Hrotate.
  pose proof (rotation_token_expiry _ _ _ _ _ _ _ Hrotate) as Hexp.
  unfold verifyAccessToken, CLOCK_SKEW_SECONDS. rewrite Hexp.
  destruct (later / 1000 >=? now / 1000 + 15 * 60 + 30) eqn:E;
    rewrite Z.geb_leb in E;
    [apply Z.leb_le in E|apply Z.leb_gt in E];
    (split; split; intros H; try discriminate; try reflexivity; try lia).
Qed.

(** *** sendOTP and verifyOTP *)

Lemma recent_otp_later normalizedPhone now now2 o :
  now <= now2 ->
  recent_otp normalizedPhone now o = false ->
  recent_otp normalizedPhone now2 o = false.
Proof.
  unfold recent_otp. intros Hle H.
  destruct (String.eqb (phoneNumber o) normalizedPhone); [|reflexivity].
  destruct (Bool.eqb (used o) false); [|apply andb_false_r].
  simpl in *. rewrite andb_true_r in *.
  destruct (sql_gt (otp_createdAt o) (now2 - 60000)) eqn:E; [|reflexivity].
  rewrite (sql_gt_earlier _ (now2 - 60000) (now - 60000)) in H;
    [discriminate|lia|exact E].
Qed.

Lemma sendOTP_delivered db now randomBytes uuid after phone countryCode
  normalizedPhone :
  normalizePhoneNumber phone countryCode = Some normalizedPhone ->
  find (recent_otp normalizedPhone now) (otps db) = None ->
  after < SMS_TIMEOUT ->
  existsb (fun o => String.eqb (otp_id o) (generateId "otp" uuid)) (otps db)
    = false ->
  sendOTP sha256hex db now randomBytes uuid (Resolves after)
    phone countryCode
  = (with_otps db
       (otps db ++
        [ {| otp_id := generateId "otp" uuid;
             phoneNumber := normalizedPhone;
             otpHash := hashOTP sha256hex (generateOTP 6 randomBytes);
             otp_expiresAt := timestamp (now + 10 * 60 * 1000);
             used := false; usedAt := None; usedByFingerprint := None;
             attemptCount := 0; otp_createdAt := timestamp now |} ])%list,
     {| success := true; waitTime := None; message := OtpSent;
        otpId := Some (generateId "otp" uuid) |}).
Proof.
  intros Hnorm Hcool Hafter Hfresh. unfold sendOTP. rewrite Hnorm.
  unfold recent_otp in Hcool. rewrite Hcool. simpl sms_sent.
  apply Z.ltb_lt in Hafter. rewrite Hafter, Hfresh. reflexivity.
Qed.

(** X18. A delivered code verifies once and only once.  After a send that
    succeeded, for a phone with no other unused record under the same
    digest, verifying the generated code before it expires succeeds; the
    same code presented again, from any device at any time, answers
    [InvalidOrUsed]. *)
Theorem delivered_code_verifies_once
  db now randomBytes uuid after phone countryCode normalizedPhone
  now2 fp now3 fp' :
  normalizePhoneNumber phone countryCode = Some normalizedPhone ->
  find (recent_otp normalizedPhone now) (otps db) = None ->
  after < SMS_TIMEOUT ->
  existsb (fun o => String.eqb (otp_id o) (generateId "otp" uuid)) (otps db)
    = false ->
  find (otp_matches normalizedPhone
          (hashOTP sha256hex (generateOTP 6 randomBytes))) (otps db) = None ->
  now2 <= timestamp (now + 10 * 60 * 1000) ->
  let sent :=
    sendOTP sha256hex db now randomBytes uuid (Resolves after)
      phone countryCode in
  let code := generateOTP 6 randomBytes in
  let first := verifyOTP sha256hex (fst sent) now2 false phone code fp
                 countryCode in
  success (snd sent) = true
  /\ snd first = {| verified := true; verdict := OtpVerified;
                    verifiedPhone := Some normalizedPhone |}
  /\ snd (verifyOTP sha256hex (fst first) now3 false phone code fp'
            countryCode)
     = refused InvalidOrUsed.
Proof.
  intros Hnorm Hcool Hafter Hfresh Hother Hlive sent code first.
  subst first sent code.
  rewrite (sendOTP_delivered db now randomBytes uuid after phone countryCode
             normalizedPhone Hnorm Hcool Hafter Hfresh).
  cbn [fst snd success].
  set (row := {| otp_id := generateId "otp" uuid;
                 phoneNumber := normalizedPhone;
                 otpHash := hashOTP sha256hex (generateOTP 6 randomBytes);
                 otp_expiresAt := timestamp (now + 10 * 60 * 1000);
                 used := false; usedAt := None; usedByFingerprint := None;
                 attemptCount := 0; otp_createdAt := timestamp now |}).
  assert (Hfind : find (otp_matches normalizedPhone
                          (hashOTP sha256hex (generateOTP 6 randomBytes)))
                    (otps db ++ [row]) = Some row).
  { rewrite (find_app_missing _ _ _ Hother). simpl.
    unfold otp_matches. simpl. rewrite !String.eqb_refl. reflexivity. }
  assert (Hfirst :
    verifyOTP sha256hex (with_otps db (otps db ++ [row])) now2 false phone
      (generateOTP 6 randomBytes) fp countryCode
    = (with_otps (with_otps db (otps db ++ [row]))
         (otps db ++ [set_otp_used now2 fp row]),
       {| verified := true; verdict := OtpVerified;
          verifiedPhone := Some normalizedPhone |})).
  { unfold verifyOTP. rewrite Hnorm. cbn [otps with_otps]. rewrite Hfind.
    cbn [otp_expiresAt attemptCount row].
    rewrite (gtb_false _ _ Hlive). simpl (0 >=? 5). cbv iota.
    rewrite update_where_app. simpl update_where at 2.
    cbn [otp_id row]. rewrite String.eqb_refl.
    rewrite update_where_none; [reflexivity|].
    intros x Hx. apply find_none_existsb in Hfresh.
    exact (find_none _ _ Hfresh x Hx). }
  rewrite Hfirst. cbn [fst snd].
  split; [reflexivity|]. split; [reflexivity|].
  unfold verifyOTP. rewrite Hnorm. cbn [otps with_otps].
  rewrite (find_app_missing _ _ _ Hother). simpl.
  unfold otp_matches. simpl. rewrite !andb_false_r. reflexivity.
Qed.

(** X19. A second send inside the cooldown is refused with the time left:
    after a send that succeeded, a further send for the same phone while
    the clock is less than sixty whole seconds past the first is refused,
    whatever the SMS channel would do, stores nothing, and reports a wait
    between 1 and 60 seconds. *)
Theorem resend_waits
  db now randomBytes uuid after phone countryCode normalizedPhone
  now2 randomBytes2 uuid2 sms2 :
  normalizePhoneNumber phone countryCode = Some normalizedPhone ->
  find (recent_otp normalizedPhone now) (otps db) = None ->
  after < SMS_TIMEOUT ->
  existsb (fun o => String.eqb (otp_id o) (generateId "otp" uuid)) (otps db)
    = false ->
  now <= now2 ->
  now2 / 1000 < now / 1000 + 60 ->
  let sent :=
    sendOTP sha256hex db now randomBytes uuid (Resolves after)
      phone countryCode in
  let wait := 60 - (now2 - timestamp now) / 1000 in
  sendOTP sha256hex (fst sent) now2 randomBytes2 uuid2 sms2 phone countryCode
  = (fst sent,
     {| success := false; waitTime := Some wait; message := OtpCooldown;
        otpId := None |})
  /\ 1 <= wait <= 60.
Proof.
  intros Hnorm Hcool Hafter Hfresh Hle Hsoon sent wait. subst sent wait.
  rewrite (sendOTP_delivered db now randomBytes uuid after phone countryCode
             normalizedPhone Hnorm Hcool Hafter Hfresh).
  cbn [fst].
  split; [|unfold timestamp; Z.div_mod_to_equations; lia].
  unfold sendOTP. rewrite Hnorm. cbn [otps with_otps].
  fold (recent_otp normalizedPhone now2).
  assert (Hold : find (recent_otp normalizedPhone now2) (otps db) = None).
  { apply find_all_false. apply Forall_forall. intros x Hx.
    apply (recent_otp_later normalizedPhone now now2 x Hle).
    exact (find_none _ _ Hcool x Hx). }
  rewrite (find_app_missing _ _ _ Hold). simpl find.
  unfold recent_otp at 1. cbn [phoneNumber otp_createdAt used].
  rewrite String.eqb_refl.
  assert (Hin : sql_gt (timestamp now) (now2 - 60000) = true).
  { unfold sql_gt, timestamp. apply Z.ltb_lt.
    Z.div_mod_to_equations. lia. }
  rewrite Hin. reflexivity.
Qed.

(** X20. [attemptCount] moves only on a store fault: a verification call
    that meets no fault, whatever it answers, leaves every record's
    [attemptCount] as it was; a call that meets a fault marks no record
    used and never succeeds. *)
Theorem attempt_count_moves_only_on_faults db now phone otp fp countryCode :
  map attemptCount
    (otps (fst (verifyOTP sha256hex db now false phone otp fp countryCode)))
  = map attemptCount (otps db)
  /\ map used
       (otps (fst (verifyOTP sha256hex db now true phone otp fp countryCode)))
     = map used (otps db)
  /\ verified
       (snd (verifyOTP sha256hex db now true phone otp fp countryCode))
     = false.
Proof.
  unfold verifyOTP.
  destruct (normalizePhoneNumber phone countryCode) as [normalizedPhone|];
    [|repeat split].
  split; [|split; [|reflexivity]].
  - destruct (find _ (otps db)) as [record|]; [|reflexivity].
    destruct (now >? otp_expiresAt record); [reflexivity|].
    destruct (attemptCount record >=? 5); [reflexivity|].
    cbn [fst otps with_otps]. apply map_update_where. reflexivity.
  - cbn [fst otps with_otps]. apply map_update_where. reflexivity.
Qed.

Lemma faulted_record phone fp countryCode normalizedPhone hash tries :
  normalizePhoneNumber phone countryCode = Some normalizedPhone ->
  forall db record,
  find (otp_matches normalizedPhone hash) (otps db) = Some record ->
  exists record',
    find (otp_matches normalizedPhone hash)
      (otps (faulted sha256hex db phone fp countryCode tries))
    = Some record'
    /\ attemptCount record'
       = attemptCount record + Z.of_nat (List.length tries)
    /\ otp_expiresAt record' = otp_expiresAt record.
Proof.
  intros Hnorm. unfold faulted.
  induction tries as [|try tries IH]; intros db record Hfind.
  - exists record. simpl. repeat split; [exact Hfind|lia].
  - cbn [fold_left List.length].
    set (db1 := fst (verifyOTP sha256hex db (fst try) true phone (snd try)
                       fp countryCode)).
    assert (H1 : find (otp_matches normalizedPhone hash) (otps db1)
                 = Some (set_otp_attempted record)).
    { subst db1. unfold verifyOTP. rewrite Hnorm.
      cbn [fst otps with_otps]. unfold update_where.
      rewrite find_map_same.
      - rewrite Hfind. simpl.
        destruct (find_some _ _ Hfind) as [_ Hm]. unfold otp_matches in Hm.
        apply andb_true_iff in Hm. destruct Hm as [Hm Hu].
        apply andb_true_iff in Hm. destruct Hm as [Hp _].
        rewrite Hp, Hu. reflexivity.
      - intros x. destruct (_ && _); reflexivity. }
    destruct (IH db1 (set_otp_attempted record) H1)
      as (record' & Hf & Hc & He).
    exists record'. split; [exact Hf|]. simpl in Hc, He. split; [lia|exact He].
Qed.

(** X21. Store faults are what locks a code: once the faults met by
    verification calls for the phone have brought the record's
    [attemptCount] to five, the right code, still unexpired, answers
    [TooManyAttempts]. *)
Theorem faults_lock_the_code
  db phone countryCode normalizedPhone code record fp tries now :
  normalizePhoneNumber phone countryCode = Some normalizedPhone ->
  find (otp_matches normalizedPhone (hashOTP sha256hex code)) (otps db)
    = Some record ->
  5 <= attemptCount record + Z.of_nat (List.length tries) ->
  now <= otp_expiresAt record ->
  snd (verifyOTP sha256hex (faulted sha256hex db phone fp countryCode tries)
         now false phone code fp countryCode)
  = refused TooManyAttempts.
Proof.
  intros Hnorm Hfind Hfive Hlive.
  destruct (faulted_record phone fp countryCode normalizedPhone
              (hashOTP sha256hex code) tries Hnorm db record Hfind)
    as (record' & Hf & Hc & He).
  unfold verifyOTP at 1. rewrite Hnorm, Hf, He, (gtb_false _ _ Hlive).
  assert (Hge : (attemptCount record' >=? 5) = true)
    by (rewrite Z.geb_leb; apply Z.leb_le; lia).
  rewrite Hge. reflexivity.
Qed.

(** *** cleanupOrphanedSessions *)

(** X22. The orphan sweep deletes sessions and leaves their tokens: when
    every session of a family belongs to the user and has been idle for
    more than seven days, [cleanupOrphanedSessions] removes them and
    touches no refresh token; a still-valid, unrotated secret of that
    family then answers [SessionNotFound] and stays unrevoked. *)
Theorem orphaned_family_cannot_rotate
  db now u secret r now2 rnd device :
  u <> "" ->
  token_by_hash (hashToken sha256hex secret) (refreshTokens db) = Some r ->
  rt_revoked r = false ->
  now2 <= rt_expiresAt r ->
  rotatedAt r = None ->
  (forall s, In s (sessions db) -> s_tokenFamily s = rt_tokenFamily r ->
             s_userId s = Some u
             /\ sql_lt (lastActivity s) (now - 7 * 24 * 60 * 60 * 1000)
                = true) ->
  let db' := cleanupOrphanedSessions db now (Some u) None in
  refreshTokens db' = refreshTokens db
  /\ session_by_family (rt_tokenFamily r) (sessions db') = None
  /\ rotateRefreshToken sha256hex db' now2 rnd secret device
     = (db', Error SessionNotFound).
Proof.
  intros Hne Hfind Hrev Hlive Hrot Hidle db'. subst db'.
  unfold cleanupOrphanedSessions. rewrite (truthy_some _ Hne).
  set (db' := with_sessions db _).
  assert (Hgone : session_by_family (rt_tokenFamily r) (sessions db') = None).
  { subst db'. cbn [sessions with_sessions]. unfold session_by_family.
    apply find_all_false. apply Forall_forall. intros s Hs.
    apply filter_In in Hs. destruct Hs as [Hs Hkeep].
    destruct (session_of (rt_tokenFamily r) s) eqn:E; [|reflexivity].
    unfold session_of in E. apply String.eqb_eq in E.
    destruct (Hidle s Hs E) as [Hu Hold].
    rewrite Hu, Hold in Hkeep. simpl in Hkeep.
    rewrite String.eqb_refl in Hkeep. discriminate. }
  split; [reflexivity|]. split; [exact Hgone|].
  unfold rotateRefreshToken.
  change (refreshTokens db') with (refreshTokens db).
  rewrite Hfind, Hrev, (gtb_false _ _ Hlive).
  rewrite grace_reissue_fresh by exact Hrot.
  rewrite Hgone. reflexivity.
Qed.

End Further.

(** ** Further runs on sample data *)

(** A ten-digit number written with punctuation, normalised twice. *)
Lemma normalized_twice_run :
  let input := "(555) 123-4567" in
  let countryCode := "1" in
  let normalized := "+15551234567" in
  ((normalizePhoneNumber input countryCode = Some normalized))
  /\ (normalizePhoneNumber normalized countryCode = Some normalized).
Proof.
  intros input countryCode normalized.
  assert (H1 : normalizePhoneNumber input countryCode = Some normalized)
    by (reflexivity).
  split; [exact H1|].
  exact (normalizePhoneNumber_idempotent input countryCode normalized H1).
Defined.

(** A number of eighteen digits is cut to its first fifteen. *)
Lemma long_number_run :
  let input := long_number in
  let countryCode := "1" in
  let c := "4"%char in
  let rest := "42079460958123456" in
  ((strip_non_digits input = String c rest)
   /\ (c <> "0"%char)
   /\ ((10 <= String.length rest)%nat))
  /\ (normalizePhoneNumber input countryCode
      = Some ("+" ++ substring 0 15 (strip_non_digits input))%string).
Proof.
  intros input countryCode c rest.
  assert (H1 : strip_non_digits input = String c rest)
    by (reflexivity).
  assert (H2 : c <> "0"%char)
    by (discriminate).
  assert (H3 : (10 <= String.length rest)%nat)
    by (simpl; lia).
  split; [exact (conj H1 (conj H2 H3))|].
  exact (normalizePhoneNumber_truncates input countryCode c rest H1 H2 H3).
Defined.

(** Six random bytes give a code of six decimal digits. *)
Lemma six_digit_code_run :
  let length_ := 6%nat in
  let randomBytes := [255; 10; 3; 47; 128; 9]%nat in
  (((length_ <= List.length randomBytes)%nat))
  /\ (String.length (generateOTP length_ randomBytes) = length_
      /\ all_digits (generateOTP length_ randomBytes) = true).
Proof.
  intros length_ randomBytes.
  assert (H1 : (length_ <= List.length randomBytes)%nat)
    by (simpl; lia).
  split; [exact H1|].
  exact (generateOTP_digits length_ randomBytes H1).
Defined.

(** A timestamp a thousand seconds old, against a maximal age of five minutes. *)
Lemma stale_timestamp_run :
  let nowMs := t0 in
  let timestamp_ := 1699999000 in
  let maxAge := 300 in
  ((0 < maxAge))
  /\ ((isTimestampValid nowMs timestamp_ (Some maxAge) = true
       <-> nowMs / 1000 - timestamp_ <= Z.max maxAge CLOCK_SKEW_SECONDS)
      /\ isTimestampValid nowMs timestamp_ None = true).
Proof.
  intros nowMs timestamp_ maxAge.
  assert (H1 : 0 < maxAge)
    by (reflexivity).
  split; [exact H1|].
  exact (isTimestampValid_window nowMs timestamp_ maxAge H1).
Defined.

(** Five sessions against a limit of three: one call revokes one of them. *)
Lemma one_eviction_run :
  let db := db_five in
  let now := t0 + 300000 in
  let userId := Some "u1" in
  let superuserId := None in
  let maxDevices := 3 in
  let account := "u1" in
  ((js_or userId superuserId = Some account)
   /\ (account <> "")
   /\ (NoDup (map s_id (sessions db)))
   /\ (0 < maxDevices))
  /\ (let before :=
        List.length (active_sessions db userId superuserId account) in
      let after :=
        List.length
          (active_sessions
             (fst (enforceDeviceLimit db now userId superuserId maxDevices))
             userId superuserId account) in
      (maxDevices <= Z.of_nat before -> before = S after)
      /\ (Z.of_nat before < maxDevices -> after = before)).
Proof.
  intros db now userId superuserId maxDevices account.
  assert (H1 : js_or userId superuserId = Some account)
    by (reflexivity).
  assert (H2 : account <> "")
    by (discriminate).
  assert (H3 : NoDup (map s_id (sessions db)))
    by (vm_compute; repeat (apply NoDup_cons; [intros H; repeat (destruct H as
      [H|H]; [discriminate H|]); exact H|]); apply NoDup_nil).
  assert (H4 : 0 < maxDevices)
    by (reflexivity).
  split; [exact (conj H1 (conj H2 (conj H3 H4)))|].
  exact (device_limit_evicts_one db now userId superuserId maxDevices account
    H1 H2 H3 H4).
Defined.

(** A token id put on the empty blacklist is found there. *)
Lemma blacklist_run :
  let rows := [] in
  let now := t0 in
  let uuid := "1" in
  let jti_ := "j1" in
  let expiresAt := t0 + 900000 in
  let rows' := one_blacklisted in
  ((blacklistToken rows now uuid jti_ expiresAt = Returned rows'))
  /\ (isTokenBlacklisted rows' jti_ = true
      /\ isTokenBlacklisted rows jti_ = false
      /\ (forall other, other <> jti_ ->
            isTokenBlacklisted rows' other = isTokenBlacklisted rows other)).
Proof.
  intros rows now uuid jti_ expiresAt rows'.
  assert (H1 : blacklistToken rows now uuid jti_ expiresAt = Returned rows')
    by (reflexivity).
  split; [exact H1|].
  exact (blacklist_round_trip rows now uuid jti_ expiresAt rows' H1).
Defined.

(** A call for one address and endpoint leaves the answer for another
    pair alone. *)
Lemma other_pair_run :
  let db := db_counted in
  let now := t0 + 1000 in
  let uuid := "r2" in
  let identifier_ := "203.0.113.9" in
  let endpoint_ := "auth:verify-otp" in
  let now' := t0 + 2000 in
  let uuid' := "r3" in
  let identifier' := "198.51.100.7" in
  let endpoint' := "auth:login" in
  ((NoDup (map rl_id (rateLimits db)))
   /\ ((identifier', endpoint') <> (identifier_, endpoint_))
   /\ (uuid' <> uuid))
  /\ (snd (checkRateLimit
             (fst (checkRateLimit db now uuid identifier_ endpoint_))
             now' uuid' identifier' endpoint')
      = snd (checkRateLimit db now' uuid' identifier' endpoint')).
Proof.
  intros db now uuid identifier_ endpoint_ now' uuid' identifier' endpoint'.
  assert (H1 : NoDup (map rl_id (rateLimits db)))
    by (apply NoDup_cons; [intros []|apply NoDup_nil]).
  assert (H2 : (identifier', endpoint') <> (identifier_, endpoint_))
    by (discriminate).
  assert (H3 : uuid' <> uuid)
    by (discriminate).
  split; [exact (conj H1 (conj H2 H3))|].
  exact (rate_limit_pairs_independent db now uuid identifier_ endpoint_ now'
    uuid' identifier' endpoint' H1 H2 H3).
Defined.

(** A second failed login within the window is counted. *)
Lemma failed_login_run :
  let rows := one_failure in
  let now := t0 + 30000 in
  let uuid := "2" in
  let event := failed_event in
  let identifier_ := "+15551234567" in
  let now' := t0 + 60000 in
  let window := LOGIN_WINDOW in
  ((ev_success event = false)
   /\ (ev_phoneNumber event = Some identifier_)
   /\ (existsb (fun a => String.eqb (al_id a) (generateId "audit" uuid)) rows
        = false)
   /\ (sql_gt (timestamp now) (now' - window) = true))
  /\ (getFailedLoginAttempts (auditAuthEvent rows now uuid Login event)
        now' identifier_ window
      = 1 + getFailedLoginAttempts rows now' identifier_ window
      /\ (forall other, other <> identifier_ ->
            getFailedLoginAttempts (auditAuthEvent rows now uuid Login event)
              now' other window
            = getFailedLoginAttempts rows now' other window)).
Proof.
  intros rows now uuid event identifier_ now' window.
  assert (H1 : ev_success event = false)
    by (reflexivity).
  assert (H2 : ev_phoneNumber event = Some identifier_)
    by (reflexivity).
  assert (H3 : existsb (fun a => String.eqb (al_id a) (generateId "audit"
    uuid)) rows
        = false)
    by (reflexivity).
  assert (H4 : sql_gt (timestamp now) (now' - window) = true)
    by (reflexivity).
  split; [exact (conj H1 (conj H2 (conj H3 H4)))|].
  exact (failed_login_counted rows now uuid event identifier_ now' window H1
    H2 H3 H4).
Defined.

(** A successful login changes neither the count nor the lock. *)
Lemma passed_login_run :
  let rows := one_failure in
  let now := t0 + 30000 in
  let uuid := "2" in
  let action := Login in
  let event := passed_event in
  let identifier_ := "+15551234567" in
  let now' := t0 + 60000 in
  let window := LOGIN_WINDOW in
  let maxAttempts := 5 in
  ((ev_success event = true \/ action <> Login))
  /\ (getFailedLoginAttempts (auditAuthEvent rows now uuid action event)
        now' identifier_ window
      = getFailedLoginAttempts rows now' identifier_ window
      /\ shouldLockAccount (auditAuthEvent rows now uuid action event)
           now' identifier_ maxAttempts
         = shouldLockAccount rows now' identifier_ maxAttempts).
Proof.
  intros rows now uuid action event identifier_ now' window maxAttempts.
  assert (H1 : ev_success event = true \/ action <> Login)
    by (left; reflexivity).
  split; [exact H1|].
  exact (only_failed_logins_count rows now uuid action event identifier_ now'
    window maxAttempts H1).
Defined.

(** A rotation a second after the record was issued is refused and
    writes nothing. *)
Lemma early_rotation_run :
  let sha256hex := toy_digest in
  let db := db_login in
  let now := t0 + 1000 in
  let rnd := second_entropy in
  let secret := "secretA" in
  let device := phone_device in
  let db' := db_login in
  let e := RotatedTooFrequently in
  ((rotateRefreshToken sha256hex db now rnd secret device = (db', Error e))
   /\ (e <> TokenRevoked)
   /\ (e <> DeviceMismatch))
  /\ (db' = db).
Proof.
  intros sha256hex db now rnd secret device db' e.
  assert (H1 : rotateRefreshToken sha256hex db now rnd secret device = (db',
    Error e))
    by (reflexivity).
  assert (H2 : e <> TokenRevoked)
    by (discriminate).
  assert (H3 : e <> DeviceMismatch)
    by (discriminate).
  split; [exact (conj H1 (conj H2 H3))|].
  exact (rotation_errors_write_nothing sha256hex db now rnd secret device db'
    e H1 H2 H3).
Defined.


(** The session of the family through one rotation. *)
Lemma session_after_rotation_run :
  let sha256hex := toy_digest in
  let db := db_login in
  let op := Rotate (t0 + 61000) second_entropy "secretA" phone_device in
  let s := sessionA in
  let s' := sessionA_refreshed in
  ((NoDup (map s_id (sessions db)))
   /\ (In s (sessions db))
   /\ (In s' (sessions (step sha256hex db op)))
   /\ (s_id s' = s_id s))
  /\ (session_grows s s').
Proof.
  intros sha256hex db op s s'.
  assert (H1 : NoDup (map s_id (sessions db)))
    by (apply NoDup_cons; [intros []|apply NoDup_nil]).
  assert (H2 : In s (sessions db))
    by (left; reflexivity).
  assert (H3 : In s' (sessions (step sha256hex db op)))
    by (left; reflexivity).
  assert (H4 : s_id s' = s_id s)
    by (reflexivity).
  split; [exact (conj H1 (conj H2 (conj H3 H4)))|].
  exact (session_history_kept sha256hex db op s s' H1 H2 H3 H4).
Defined.

(** A delivered code verifies once and is refused the second time. *)
Lemma code_used_once_run :
  let sha256hex := toy_digest in
  let db := empty_db in
  let now := t0 in
  let randomBytes := [1; 2; 3; 4; 5; 6]%nat in
  let uuid := "1" in
  let after := 200 in
  let phone := "(555) 123-4567" in
  let countryCode := "1" in
  let normalizedPhone := "+15551234567" in
  let now2 := t0 + 30000 in
  let fp := "fp-phone" in
  let now3 := t0 + 40000 in
  let fp' := "fp-laptop" in
  ((normalizePhoneNumber phone countryCode = Some normalizedPhone)
   /\ (find (recent_otp normalizedPhone now) (otps db) = None)
   /\ (after < SMS_TIMEOUT)
   /\ (existsb (fun o => String.eqb (otp_id o) (generateId "otp" uuid)) (otps db)
        = false)
   /\ (find (otp_matches normalizedPhone
              (hashOTP sha256hex (generateOTP 6 randomBytes))) (otps db) = None)
   /\ (now2 <= timestamp (now + 10 * 60 * 1000)))
  /\ (let sent :=
        sendOTP sha256hex db now randomBytes uuid (Resolves after)
          phone countryCode in
      let code := generateOTP 6 randomBytes in
      let first := verifyOTP sha256hex (fst sent) now2 false phone code fp
                     countryCode in
      success (snd sent) = true
      /\ snd first = {| verified := true; verdict := OtpVerified;
                        verifiedPhone := Some normalizedPhone |}
      /\ snd (verifyOTP sha256hex (fst first) now3 false phone code fp'
                countryCode)
         = refused InvalidOrUsed).
Proof.
  intros sha256hex db now randomBytes uuid after phone countryCode
    normalizedPhone now2 fp now3 fp'.
  assert (H1 : normalizePhoneNumber phone countryCode = Some normalizedPhone)
    by (reflexivity).
  assert (H2 : find (recent_otp normalizedPhone now) (otps db) = None)
    by (reflexivity).
  assert (H3 : after < SMS_TIMEOUT)
    by (reflexivity).
  assert (H4 : existsb (fun o => String.eqb (otp_id o) (generateId "otp"
    uuid)) (otps db)
        = false)
    by (reflexivity).
  assert (H5 : find (otp_matches normalizedPhone
              (hashOTP sha256hex (generateOTP 6 randomBytes))) (otps db) = None)
    by (reflexivity).
  assert (H6 : now2 <= timestamp (now + 10 * 60 * 1000))
    by (vm_compute; discriminate).
  split; [exact (conj H1 (conj H2 (conj H3 (conj H4 (conj H5 H6)))))|].
  exact (delivered_code_verifies_once sha256hex db now randomBytes uuid after
    phone countryCode normalizedPhone now2 fp now3 fp' H1 H2 H3 H4 H5 H6).
Defined.

(** A second request twenty seconds after a delivered code is refused. *)
Lemma resend_run :
  let sha256hex := toy_digest in
  let db := empty_db in
  let now := t0 in
  let randomBytes := [1; 2; 3; 4; 5; 6]%nat in
  let uuid := "1" in
  let after := 200 in
  let phone := "(555) 123-4567" in
  let countryCode := "1" in
  let normalizedPhone := "+15551234567" in
  let now2 := t0 + 20000 in
  let randomBytes2 := [6; 5; 4; 3; 2; 1]%nat in
  let uuid2 := "2" in
  let sms2 := Hangs in
  ((normalizePhoneNumber phone countryCode = Some normalizedPhone)
   /\ (find (recent_otp normalizedPhone now) (otps db) = None)
   /\ (after < SMS_TIMEOUT)
   /\ (existsb (fun o => String.eqb (otp_id o) (generateId "otp" uuid)) (otps db)
        = false)
   /\ (now <= now2)
   /\ (now2 / 1000 < now / 1000 + 60))
  /\ (let sent :=
        sendOTP sha256hex db now randomBytes uuid (Resolves after)
          phone countryCode in
      let wait := 60 - (now2 - timestamp now) / 1000 in
      sendOTP sha256hex (fst sent) now2 randomBytes2 uuid2 sms2 phone countryCode
      = (fst sent,
         {| success := false; waitTime := Some wait; message := OtpCooldown;
            otpId := None |})
      /\ 1 <= wait <= 60).
Proof.
  intros sha256hex db now randomBytes uuid after phone countryCode
    normalizedPhone now2 randomBytes2 uuid2 sms2.
  assert (H1 : normalizePhoneNumber phone countryCode = Some normalizedPhone)
    by (reflexivity).
  assert (H2 : find (recent_otp normalizedPhone now) (otps db) = None)
    by (reflexivity).
  assert (H3 : after < SMS_TIMEOUT)
    by (reflexivity).
  assert (H4 : existsb (fun o => String.eqb (otp_id o) (generateId "otp"
    uuid)) (otps db)
        = false)
    by (reflexivity).
  assert (H5 : now <= now2)
    by (vm_compute; discriminate).
  assert (H6 : now2 / 1000 < now / 1000 + 60)
    by (reflexivity).
  split; [exact (conj H1 (conj H2 (conj H3 (conj H4 (conj H5 H6)))))|].
  exact (resend_waits sha256hex db now randomBytes uuid after phone
    countryCode normalizedPhone now2 randomBytes2 uuid2 sms2 H1 H2 H3 H4 H5
    H6).
Defined.

(** Five faults of the store lock the right code out. *)
Lemma five_faults_run :
  let sha256hex := toy_digest in
  let db := db_otp in
  let phone := "(555) 123-4567" in
  let countryCode := "1" in
  let normalizedPhone := "+15551234567" in
  let code := "123456" in
  let record := otp_sent in
  let fp := "fp-phone" in
  let tries := five_wrong_codes in
  let now := t0 + 6000 in
  ((normalizePhoneNumber phone countryCode = Some normalizedPhone)
   /\ (find (otp_matches normalizedPhone (hashOTP sha256hex code)) (otps db)
        = Some record)
   /\ (5 <= attemptCount record + Z.of_nat (List.length tries))
   /\ (now <= otp_expiresAt record))
  /\ (snd (verifyOTP sha256hex (faulted sha256hex db phone fp countryCode tries)
             now false phone code fp countryCode)
      = refused TooManyAttempts).
Proof.
  intros sha256hex db phone countryCode normalizedPhone code record fp tries
    now.
  assert (H1 : normalizePhoneNumber phone countryCode = Some normalizedPhone)
    by (reflexivity).
  assert (H2 : find (otp_matches normalizedPhone (hashOTP sha256hex code))
    (otps db)
        = Some record)
    by (reflexivity).
  assert (H3 : 5 <= attemptCount record + Z.of_nat (List.length tries))
    by (vm_compute; discriminate).
  assert (H4 : now <= otp_expiresAt record)
    by (vm_compute; discriminate).
  split; [exact (conj H1 (conj H2 (conj H3 H4)))|].
  exact (faults_lock_the_code sha256hex db phone countryCode normalizedPhone
    code record fp tries now H1 H2 H3 H4).
Defined.

(** Eight days after the last activity the sweep deletes the session
    and the secret finds none. *)
Lemma orphaned_family_run :
  let sha256hex := toy_digest in
  let db := db_login in
  let now := t0 + 691200000 in
  let u := "u1" in
  let secret := "secretA" in
  let r := recordA in
  let now2 := t0 + 691200000 in
  let rnd := second_entropy in
  let device := phone_device in
  ((u <> "")
   /\ (token_by_hash (hashToken sha256hex secret) (refreshTokens db) = Some r)
   /\ (rt_revoked r = false)
   /\ (now2 <= rt_expiresAt r)
   /\ (rotatedAt r = None)
   /\ ((forall s, In s (sessions db) -> s_tokenFamily s = rt_tokenFamily r ->
                 s_userId s = Some u
                 /\ sql_lt (lastActivity s) (now - 7 * 24 * 60 * 60 * 1000)
                    = true)))
  /\ (let db' := cleanupOrphanedSessions db now (Some u) None in
      refreshTokens db' = refreshTokens db
      /\ session_by_family (rt_tokenFamily r) (sessions db') = None
      /\ rotateRefreshToken sha256hex db' now2 rnd secret device
         = (db', Error SessionNotFound)).
Proof.
  intros sha256hex db now u secret r now2 rnd device.
  assert (H1 : u <> "")
    by (discriminate).
  assert (H2 : token_by_hash (hashToken sha256hex secret) (refreshTokens db) =
    Some r)
    by (reflexivity).
  assert (H3 : rt_revoked r = false)
    by (reflexivity).
  assert (H4 : now2 <= rt_expiresAt r)
    by (vm_compute; discriminate).
  assert (H5 : rotatedAt r = None)
    by (reflexivity).
  assert (H6 : (forall s, In s (sessions db) -> s_tokenFamily s =
    rt_tokenFamily r ->
                 s_userId s = Some u
                 /\ sql_lt (lastActivity s) (now - 7 * 24 * 60 * 60 * 1000)
                    = true))
    by (intros x [<-|[]] _; split; reflexivity).
  split; [exact (conj H1 (conj H2 (conj H3 (conj H4 (conj H5 H6)))))|].
  exact (orphaned_family_cannot_rotate sha256hex db now u secret r now2 rnd
    device H1 H2 H3 H4 H5 H6).
Defined.

(** An endpoint without a configuration of its own is refused after a
    hundred calls. *)
Lemma signup_cap_run :
  let db := empty_db in
  let identifier_ := "203.0.113.9" in
  let endpoint_ := "auth:signup" in
  let config := {| windowMs := 60 * 1000; maxRequests := 100 |} in
  let start := t0 in
  let uuid1 := "r1" in
  let calls := ninety_nine_calls in
  let t := t0 + 500 in
  let uuid := "r101" in
  ((config_for endpoint_ = Some config)
   /\ (find (in_window identifier_ endpoint_ (start - windowMs config))
        (rateLimits db) = None)
   /\ (existsb (fun r => String.eqb (rl_id r) (generateId "rl" uuid1))
        (rateLimits db) = false)
   /\ (Forall (fun call => inside_window start (windowMs config) (fst call))
             calls)
   /\ ((99 <= List.length calls)%nat)
   /\ (inside_window start (windowMs config) t))
  /\ (allowed
        (snd (checkRateLimit
                (window_calls
                   (fst (checkRateLimit db start uuid1 identifier_ endpoint_))
                   identifier_ endpoint_ calls)
                t uuid identifier_ endpoint_))
      = false).
Proof.
  intros db identifier_ endpoint_ config start uuid1 calls t uuid.
  assert (H1 : config_for endpoint_ = Some config)
    by (reflexivity).
  assert (H2 : find (in_window identifier_ endpoint_ (start - windowMs
    config))
        (rateLimits db) = None)
    by (reflexivity).
  assert (H3 : existsb (fun r => String.eqb (rl_id r) (generateId "rl" uuid1))
        (rateLimits db) = false)
    by (reflexivity).
  assert (H4 : Forall (fun call => inside_window start (windowMs config) (fst
    call))
             calls)
    by (apply Forall_forall; intros call Hcall; apply in_map_iff in Hcall;
      destruct Hcall as (n & <- & Hn); apply in_seq in Hn; unfold
      inside_window, timestamp, config, start, t0; cbn [fst windowMs];
      Z.div_mod_to_equations; lia).
  assert (H5 : (99 <= List.length calls)%nat)
    by (vm_compute; repeat constructor).
  assert (H6 : inside_window start (windowMs config) t)
    by (split; [vm_compute; discriminate|reflexivity]).
  split; [exact (conj H1 (conj H2 (conj H3 (conj H4 (conj H5 H6)))))|].
  exact (every_endpoint_capped db identifier_ endpoint_ config start uuid1
    calls t uuid H1 H2 H3 H4 H5 H6).
Defined.


(** Secret B, handed out by the rotation, presented thirty seconds later
    from another device. *)
Lemma second_rotation_too_soon_run :
  let sha256hex := toy_digest in
  let db := db_login in
  let now := t0 + 61000 in
  let rnd := second_entropy in
  let secret := "secretA" in
  let device := phone_device in
  let db1 := db_rotated in
  let issued := second_pair in
  let now2 := t0 + 91000 in
  let rnd2 := third_entropy in
  let device2 := laptop_device in
  ((rotateRefreshToken sha256hex db now rnd secret device
        = (db1, Tokens issued))
   /\ (refreshToken issued <> secret)
   /\ (now2 - timestamp now < MIN_REFRESH_INTERVAL))
  /\ (rotateRefreshToken sha256hex db1 now2 rnd2 (refreshToken issued) device2
      = (db1, Error RotatedTooFrequently)).
Proof.
  intros sha256hex db now rnd secret device db1 issued now2 rnd2 device2.
  assert (H1 : rotateRefreshToken sha256hex db now rnd secret device
        = (db1, Tokens issued))
    by (reflexivity).
  assert (H2 : refreshToken issued <> secret)
    by (discriminate).
  assert (H3 : now2 - timestamp now < MIN_REFRESH_INTERVAL)
    by (reflexivity).
  split; [exact (conj H1 (conj H2 H3))|].
  exact (rotated_secret_waits_a_minute sha256hex db now rnd secret device db1
    issued now2 rnd2 device2 H1 H2 H3).
Defined.


(** Secret A rotated at 61 seconds, then secret B rotated at 122
    seconds. *)
Lemma rotation_chain_run :
  let sha256hex := toy_digest in
  let db := db_login in
  let now := t0 + 61000 in
  let rnd := second_entropy in
  let secret := "secretA" in
  let device := phone_device in
  let r := recordA in
  let session := sessionA in
  let db1 := db_rotated in
  let issued := second_pair in
  let now2 := t0 + 122000 in
  let rnd2 := third_entropy in
  let device2 := phone_device in
  ((token_by_hash (hashToken sha256hex secret) (refreshTokens db) = Some r)
   /\ (session_by_family (rt_tokenFamily r) (sessions db) = Some session)
   /\ (rotateRefreshToken sha256hex db now rnd secret device
        = (db1, Tokens issued))
   /\ (refreshToken issued <> secret)
   /\ (fingerprint device2 = fingerprint device)
   /\ (MIN_REFRESH_INTERVAL <= now2 - timestamp now)
   /\ (now2 - timestamp now <= 2592000000)
   /\ (now2 - sessionStarted session <= 2592000000)
   /\ (refreshCount session < MAX_REFRESH_COUNT)
   /\ (token_by_id (generateId "rt" (next_rtUuid rnd2)) (refreshTokens db1)
        = None)
   /\ (token_by_hash (hashToken sha256hex (next_secret rnd2)) (refreshTokens db1)
        = None))
  /\ (let after :=
        rotateRefreshToken sha256hex db1 now2 rnd2 (refreshToken issued)
          device2 in
      (exists access,
          snd after = Tokens {| accessToken := access;
                                refreshToken := next_secret rnd2;
                                expiresIn := 15 * 60 |})
      /\ (exists s2,
            session_by_family (rt_tokenFamily r) (sessions (fst after))
              = Some s2
            /\ s_id s2 = s_id session
            /\ refreshCount s2 = refreshCount session + 2
            /\ lastActivity s2 = timestamp now2)
      /\ (exists first,
            token_by_hash (hashToken sha256hex (next_secret rnd))
              (refreshTokens (fst after)) = Some first
            /\ rotatedAt first = Some (timestamp now2)
            /\ newTokenId first = Some (generateId "rt" (next_rtUuid rnd2))
            /\ rt_revoked first = false)
      /\ (exists second,
            token_by_hash (hashToken sha256hex (next_secret rnd2))
              (refreshTokens (fst after)) = Some second
            /\ rt_id second = generateId "rt" (next_rtUuid rnd2)
            /\ rt_tokenFamily second = rt_tokenFamily r
            /\ rt_userId second = rt_userId r
            /\ rt_superuserId second = rt_superuserId r
            /\ rotatedAt second = None
            /\ rt_revoked second = false)).
Proof.
  intros sha256hex db now rnd secret device r session db1 issued now2 rnd2
    device2.
  assert (H1 : token_by_hash (hashToken sha256hex secret) (refreshTokens db) =
    Some r)
    by (reflexivity).
  assert (H2 : session_by_family (rt_tokenFamily r) (sessions db) = Some
    session)
    by (reflexivity).
  assert (H3 : rotateRefreshToken sha256hex db now rnd secret device
        = (db1, Tokens issued))
    by (reflexivity).
  assert (H4 : refreshToken issued <> secret)
    by (discriminate).
  assert (H5 : fingerprint device2 = fingerprint device)
    by (reflexivity).
  assert (H6 : MIN_REFRESH_INTERVAL <= now2 - timestamp now)
    by (vm_compute; discriminate).
  assert (H7 : now2 - timestamp now <= 2592000000)
    by (vm_compute; discriminate).
  assert (H8 : now2 - sessionStarted session <= 2592000000)
    by (vm_compute; discriminate).
  assert (H9 : refreshCount session < MAX_REFRESH_COUNT)
    by (reflexivity).
  assert (H10 : token_by_id (generateId "rt" (next_rtUuid rnd2))
    (refreshTokens db1)
        = None)
    by (reflexivity).
  assert (H11 : token_by_hash (hashToken sha256hex (next_secret rnd2))
    (refreshTokens db1)
        = None)
    by (reflexivity).
  split; [exact (conj H1 (conj H2 (conj H3 (conj H4 (conj H5 (conj H6 (conj H7
    (conj H8 (conj H9 (conj H10 H11))))))))))|].
  exact (rotation_chain sha256hex db now rnd secret device r session db1
    issued now2 rnd2 device2 H1 H2 H3 H4 H5 H6 H7 H8 H9 H10 H11).
Defined.

(** The access token of the rotation, checked 929 seconds later. *)
Lemma token_lifetime_run :
  let sha256hex := toy_digest in
  let db := db_login in
  let now := t0 + 61000 in
  let rnd := second_entropy in
  let secret := "secretA" in
  let device := phone_device in
  let db1 := db_rotated in
  let issued := second_pair in
  let later := t0 + 990000 in
  ((rotateRefreshToken sha256hex db now rnd secret device
        = (db1, Tokens issued)))
  /\ ((verifyAccessToken (accessToken issued) later = Some (accessToken issued)
       <-> later / 1000 < now / 1000 + 930)
      /\ (verifyAccessToken (accessToken issued) later = None
          <-> now / 1000 + 930 <= later / 1000)).
Proof.
  intros sha256hex db now rnd secret device db1 issued later.
  assert (H1 : rotateRefreshToken sha256hex db now rnd secret device
        = (db1, Tokens issued))
    by (reflexivity).
  split; [exact H1|].
  exact (access_token_lifetime sha256hex db now rnd secret device db1 issued
    later H1).
Defined.
